(** * ccdbind / ccdpin: a shallow embedding of the CPU-affinity controller

    The daemon ([cmd/ccdbind/main.go]), its status reporter
    ([cmd/ccdbind/status.go]), the wrapper's multi-instance pin coordinator
    ([cmd/ccdpin/main.go]) and the allowed-CPU reader of the process scanner
    ([internal/procscan/affinity.go]) are embedded as Rocq functions.

    Go maps are [gmap]s, Go slices are lists, [int] is [Z], [uint64] is [N]
    (no arithmetic is done on start times, so no wrap-around is involved),
    Go strings are byte strings.  Effects (systemctl / D-Bus calls, state
    files, the file lock, the process table) go through an abstract host
    interface; every call the program makes is also appended to a trace. *)

From Stdlib Require Import ZArith NArith Ascii String DecimalString DecimalPos.
From stdpp Require Import gmap strings list fin_maps sorting.


Local Open Scope Z_scope.

(** ** Go's [strings] and [strconv] helpers used by the sources *)

Module GoStrings.

(** a byte as a number *)
Definition byte (c : ascii) : N := N_of_ascii c.

(** the six ASCII bytes [unicode.IsSpace] accepts: tab, newline, vertical
    tab, form feed, carriage return and space *)
Definition asciiSpace (c : ascii) : bool := Ascii.is_space c.

(** the two-byte UTF-8 encodings of white-space runes: U+0085 and U+00A0 *)
Definition space2 (c d : ascii) : bool :=
  (byte c =? 194)%N && ((byte d =? 133)%N || (byte d =? 160)%N).

(** the three-byte UTF-8 encodings of white-space runes: U+1680, U+2000 to
    U+200A, U+2028, U+2029, U+202F, U+205F and U+3000 *)
Definition space3 (c d e : ascii) : bool :=
  ((byte c =? 225)%N && (byte d =? 154)%N && (byte e =? 128)%N)
  || ((byte c =? 226)%N && (byte d =? 128)%N
      && (((128 <=? byte e)%N && (byte e <=? 138)%N)
          || (byte e =? 168)%N || (byte e =? 169)%N || (byte e =? 175)%N))
  || ((byte c =? 226)%N && (byte d =? 129)%N && (byte e =? 159)%N)
  || ((byte c =? 227)%N && (byte d =? 128)%N && (byte e =? 128)%N).

(** [unicode.IsSpace] on the rune a byte string starts with: the number of
    bytes of the white-space rune that [String c r] starts with, and [0]
    when it starts with another rune or with a byte that is no rune.  No
    encoding of a white-space rune starts inside another one, so the runes
    [range] decodes from the start of a string are white space exactly at
    the positions where one of these encodings starts. *)
Definition spaceWidth (c : ascii) (r : string) : nat :=
  if asciiSpace c then 1%nat
  else
    match r with
    | String d r' =>
        if space2 c d then 2%nat
        else
          match r' with
          | String e _ => if space3 c d e then 3%nat else 0%nat
          | EmptyString => 0%nat
          end
    | EmptyString => 0%nat
    end.

(** the same for the rune a byte string ends with
    ([utf8.DecodeLastRuneInString]): [c] is the last byte and [r] holds the
    bytes before it, the last one first *)
Definition spaceWidthEnd (c : ascii) (r : string) : nat :=
  if asciiSpace c then 1%nat
  else
    match r with
    | String d r' =>
        if space2 d c then 2%nat
        else
          match r' with
          | String e _ => if space3 e d c then 3%nat else 0%nat
          | EmptyString => 0%nat
          end
    | EmptyString => 0%nat
    end.

(** drop the white-space runes [s] starts with; [width c r] is the number
    of bytes of the rune [String c r] starts with when that rune is white
    space, and [0] otherwise *)
Fixpoint trimWith (width : ascii -> string -> nat) (s : string) : string :=
  match s with
  | EmptyString => EmptyString
  | String c r =>
      match width c r, r with
      | 1%nat, _ => trimWith width r
      | 2%nat, String _ r' => trimWith width r'
      | 3%nat, String _ (String _ r'') => trimWith width r''
      | _, _ => s
      end
  end.

(** [strings.TrimLeftFunc(s, unicode.IsSpace)] *)
Definition trimLeft (s : string) : string := trimWith spaceWidth s.

(** [strings.TrimRightFunc(s, unicode.IsSpace)], on the reversed string *)
Definition trimEnd (s : string) : string := trimWith spaceWidthEnd s.

(** [strings.TrimSpace] *)
Definition TrimSpace (s : string) : string :=
  String.rev (trimEnd (String.rev (trimLeft s))).

(** the word in progress, if any, ends here *)
Definition flush (cur : string) (k : list string) : list string :=
  match cur with
  | EmptyString => k
  | _ => String.rev cur :: k
  end.

(** the loop of [strings.FieldsFunc(s, unicode.IsSpace)]; [cur] holds the
    bytes of the word in progress, the last one first *)
Fixpoint fieldsGo (cur : string) (s : string) : list string :=
  match s with
  | EmptyString => flush cur []
  | String c r =>
      match spaceWidth c r, r with
      | 1%nat, _ => flush cur (fieldsGo EmptyString r)
      | 2%nat, String _ r' => flush cur (fieldsGo EmptyString r')
      | 3%nat, String _ (String _ r'') => flush cur (fieldsGo EmptyString r'')
      | _, _ => fieldsGo (String c cur) r
      end
  end.

(** [strings.Fields]: the maximal runs of runes that are not white space *)
Definition Fields (s : string) : list string := fieldsGo EmptyString s.

(** [strings.HasPrefix s p] *)
Definition HasPrefix (s p : string) : bool := String.prefix p s.

(** [strings.Split s sep] for a one-byte separator. *)
Fixpoint splitOn (sep : ascii) (cur : string) (s : string) : list string :=
  match s with
  | EmptyString => [String.rev cur]
  | String c r =>
      if Ascii.eqb c sep then String.rev cur :: splitOn sep EmptyString r
      else splitOn sep (String c cur) r
  end.

Definition Split (s : string) (sep : ascii) : list string :=
  splitOn sep EmptyString s.

Definition dropCR (s : string) : string :=
  match String.rev s with
  | String "013"%char r => String.rev r
  | _ => s
  end.

(** [bufio.MaxScanTokenSize], the size the buffer of a scanner grows to *)
Definition MaxScanTokenSize : N := 65536.

(** whether the line held in [cur] (its bytes, the last one first, a
    carriage return included) can be a token: the scanner finds the end of
    a line only inside its buffer, so a line of [MaxScanTokenSize] bytes or
    more ends the scan with [bufio.ErrTooLong] *)
Definition fitsBuffer (cur : string) : bool :=
  (N.of_nat (String.length cur) <? MaxScanTokenSize)%N.

(** The tokens of a [bufio.Scanner] with the default [ScanLines] split and
    the default buffer, and whether the scan ended with [bufio.ErrTooLong]:
    lines end at a newline, one trailing carriage return is dropped, an
    empty piece after the last newline is not a line, and the scan stops
    before the first line that does not fit the buffer. *)
Fixpoint scanLines (cur : string) (s : string) : list string * bool :=
  match s with
  | EmptyString =>
      match cur with
      | EmptyString => ([], false)
      | _ => if fitsBuffer cur then ([dropCR (String.rev cur)], false) else ([], true)
      end
  | String c r =>
      if Ascii.eqb c "010"%char
      then
        if fitsBuffer cur
        then
          let '(lines, tooLong) := scanLines EmptyString r in
          (dropCR (String.rev cur) :: lines, tooLong)
        else ([], true)
      else scanLines (String c cur) r
  end.

(** the lines [scanner.Scan] yields over [s] *)
Definition Lines (s : string) : list string := (scanLines EmptyString s).1.

(** [scanner.Err() != nil] after the loop over [s] *)
Definition ScanTooLong (s : string) : bool := (scanLines EmptyString s).2.

(** [strconv.Itoa] *)
Definition Itoa (z : Z) : string := NilZero.string_of_int (Z.to_int z).

Definition fitsInt (z : Z) : bool :=
  (- 2 ^ 63 <=? z) && (z <? 2 ^ 63).

(** [strconv.Atoi]: an optional sign, then at least one decimal digit;
    the value must fit the 64-bit [int]. *)
Definition Atoi (s : string) : option Z :=
  let '(neg, digits) :=
    match s with
    | String "-"%char r => (true, r)
    | String "+"%char r => (false, r)
    | _ => (false, s)
    end in
  match NilZero.uint_of_string digits with
  | Some d =>
      let z := if neg then - Z.of_uint d else Z.of_uint d in
      if fitsInt z then Some z else None
  | None => None
  end.

End GoStrings.

(** ** Errors *)

(** Go [error] values.  [Wrapped ctx e] is [fmt.Errorf("ctx: %w", e)];
    [HostError] stands for an error raised by the operating system, the
    file system or the D-Bus transport. *)
Inductive error : Type :=
| InvalidCPUList (token : string)
| TopologyNotAvailable
| ErrorMsg (msg : string)
| Wrapped (ctx : string) (e : error)
| HostError (what : string).


(** A Go result [(T, error)]. *)
Inductive result (A : Type) : Type :=
| Ok (a : A)
| Err (e : error).
Arguments Ok {A} a.
Arguments Err {A} e.

(** A Go map that may be [nil]: [None] is the nil map.  Reading a nil map
    behaves like reading an empty one. *)
Definition mapLen {K} `{Countable K} {V} (m : option (gmap K V)) : nat :=
  match m with
  | Some g => size g
  | None => 0%nat
  end.

(** [m[k]] on a [map[string]string]: the zero value when the key is
    missing. *)
Definition strAt (m : gmap string string) (k : string) : string :=
  default EmptyString (m !! k).

Definition strAtNil (m : option (gmap string string)) (k : string) : string :=
  match m with
  | Some g => strAt g k
  | None => EmptyString
  end.

(** [make(map[string]string, len(src))] filled by a [range] loop over
    [src]. *)
Definition copyMap (src : gmap string string) : gmap string string :=
  map_fold (fun u val out => <[u := val]> out) ∅ src.

(** ** The CPU-list codec of [internal/topology] *)

Module Topology.

(** Modelled from the spec: [internal/topology] is not among the sources.
    [parse] splits on commas, accepts [N] or [lo-hi] with [lo <= hi],
    tolerates whitespace around tokens and fails with [InvalidCPUList] on
    anything else; [canonicalize] parses and re-emits the strictly
    increasing minimal form; the empty input gives the empty string. *)
Definition parseNum (s : string) : option nat :=
  option_map Nat.of_uint (NilZero.uint_of_string s).

(** Modelled from the spec: a token is [N] or [lo-hi] with [lo <= hi]. *)
Definition parseToken (tok : string) : result (list nat) :=
  let t := GoStrings.TrimSpace tok in
  match GoStrings.Split t "-"%char with
  | [n] =>
      match parseNum n with
      | Some v => Ok [v]
      | None => Err (InvalidCPUList t)
      end
  | [lo; hi] =>
      match parseNum lo, parseNum hi with
      | Some l, Some h =>
          if (l <=? h)%nat then Ok (seq l (S h - l)) else Err (InvalidCPUList t)
      | _, _ => Err (InvalidCPUList t)
      end
  | _ => Err (InvalidCPUList t)
  end.

(** Modelled from the spec: the parsed CPUs are kept strictly increasing. *)
Fixpoint insertCPU (x : nat) (l : list nat) : list nat :=
  match l with
  | [] => [x]
  | y :: r =>
      if (x <? y)%nat then x :: l
      else if (x =? y)%nat then l
      else y :: insertCPU x r
  end.

(** Modelled from the spec: the first bad token fails the whole list. *)
Fixpoint parseTokens (toks : list string) (acc : list nat) : result (list nat) :=
  match toks with
  | [] => Ok acc
  | t :: r =>
      match parseToken t with
      | Ok cpus => parseTokens r (foldr insertCPU acc cpus)
      | Err e => Err e
      end
  end.

(** Modelled from the spec: [topology.ParseCPUList]. *)
Definition ParseCPUList (s : string) : result (list nat) :=
  if decide (GoStrings.TrimSpace s = EmptyString) then Ok []
  else parseTokens (GoStrings.Split s ","%char) [].

(** Modelled from the spec: the maximal runs of consecutive CPUs. *)
Fixpoint runsFrom (lo hi : nat) (l : list nat) : list (nat * nat) :=
  match l with
  | [] => [(lo, hi)]
  | x :: r =>
      if (x =? S hi)%nat then runsFrom lo x r
      else (lo, hi) :: runsFrom x x r
  end.

(** Modelled from the spec: a CPU index in decimal. *)
Definition showNum (n : nat) : string := NilZero.string_of_uint (Nat.to_uint n).

(** Modelled from the spec: a run prints as [N] or [lo-hi]. *)
Definition showRun (r : nat * nat) : string :=
  if (fst r =? snd r)%nat then showNum (fst r)
  else showNum (fst r) +:+ "-" +:+ showNum (snd r).

(** Modelled from the spec: [topology.FormatCPUList], the minimal form. *)
Definition FormatCPUList (cpus : list nat) : string :=
  match cpus with
  | [] => EmptyString
  | x :: r => String.concat "," (map showRun (runsFrom x x r))
  end.

(** Modelled from the spec: [topology.CanonicalizeCPUList] gives the
    canonical string and the parsed CPUs. *)
Definition CanonicalizeCPUList (s : string) : result (string * list nat) :=
  match ParseCPUList s with
  | Ok cpus => Ok (FormatCPUList cpus, cpus)
  | Err e => Err e
  end.

(** [topology.Result] *)
Record Result : Type := mkResult {
  Lists : list string;
  OSCPUs : string;
  GameCPUs : string;
}.

End Topology.

(** ** The init supervisor, as seen through [internal/systemdctl] *)

(** The requests that reach the per-user init supervisor. *)
Inductive sdcall : Type :=
| GetAllowedCPUs (unit : string)
| SetAllowedCPUs (unit value : string)
| StartUnit (unit : string)
| StartTransientUnit (unit : string) (pids : list Z) (slice description : string)
| AttachProcessesToUnit (unit subcgroup : string) (pids : list Z).

(** Every request but the property read changes supervisor state. *)
Definition mutating (c : sdcall) : bool :=
  match c with
  | GetAllowedCPUs _ => false
  | _ => true
  end.

(** The behaviour of the supervisor on a host whose state is a [W]: each
    request returns its Go result and the next host state. *)
Class Supervisor (W : Type) : Type := {
  sd_get_allowed : string -> W -> result string * W;
  sd_set_allowed : string -> string -> W -> option error * W;
  sd_start_unit : string -> W -> option error * W;
  sd_ensure_scope : string -> list Z -> string -> string -> W -> result bool * W;
  sd_attach : string -> string -> list Z -> W -> option error * W;
  (** [systemdctl.NewUserManager(dryRun)]: connect to the user bus *)
  sd_connect : bool -> W -> option error * W;
  (** what a dry-run [EnsureTransientScope] reports as [created] *)
  sd_dry_created : bool;
  (** [time.Now()] *)
  host_now : W -> Z;
  (** [procStartTime]: field 22 of [/proc/<pid>/stat] *)
  host_proc_start : Z -> W -> result N;
  (** [os.Getpid()] *)
  host_getpid : W -> Z;
}.

(** ** A state monad with Go-style error returns

    [S] is everything the running function can change (the structures it
    holds pointers to, the host, the trace); an error return keeps the
    changes made so far. *)
Definition M (S A : Type) : Type := S -> result A * S.

Definition ret {S A} (a : A) : M S A := fun s => (Ok a, s).
Definition fail {S A} (e : error) : M S A := fun s => (Err e, s).
Definition bind {S A B} (c : M S A) (k : A -> M S B) : M S B :=
  fun s =>
    match c s with
    | (Ok a, s') => k a s'
    | (Err e, s') => (Err e, s')
    end.
Definition gets {S A} (f : S -> A) : M S A := fun s => (Ok (f s), s).
Definition modify {S} (f : S -> S) : M S unit := fun s => (Ok tt, f s).
(** [err := c] without returning: the error becomes a value. *)
Definition try {S A} (c : M S A) : M S (result A) :=
  fun s => let '(r, s') := c s in (Ok r, s').
(** [if err != nil { return fmt.Errorf("ctx: %w", err) }] *)
Definition wrapErr {S A} (ctx : string) (c : M S A) : M S A :=
  fun s =>
    match c s with
    | (Err e, s') => (Err (Wrapped ctx e), s')
    | r => r
    end.
(** a Go [error] result turned into a monadic return *)
Definition check {S} (c : S -> option error * S) : M S unit :=
  fun s =>
    match c s with
    | (None, s') => (Ok tt, s')
    | (Some e, s') => (Err e, s')
    end.

Notation "x <- c ;; k" := (bind c (fun x => k))
  (at level 100, c at next level, right associativity).
Notation "c ;;; k" := (bind c (fun _ => k))
  (at level 100, right associativity).

(** [for _, x := range l { if err := body(x); err != nil { return err } }] *)
Fixpoint forEach {S A} (l : list A) (body : A -> M S unit) : M S unit :=
  match l with
  | [] => ret tt
  | x :: r => body x ;;; forEach r body
  end.

(** ** Data of the daemon and of the wrapper *)

(** [pidRecord] of [cmd/ccdbind/main.go].  The field [unit] is spelled
    [recUnit] here, [unit] being a Rocq type. *)
Record pidRecord : Type := mkPidRecord {
  recUnit : string;
  startTime : N;
}.

(** [runtime] of [cmd/ccdbind/main.go] *)
Record runtime : Type := mkRuntime {
  dryRun : bool;
  osCPUs : string;
  gameCPUs : string;
  pidToUnit : gmap Z pidRecord;
}.

(** [state.File]: the daemon's persistent state.  The type is declared in
    [internal/state]; these are the fields [main.go] and [status.go] use. *)
Record File : Type := mkFile {
  Version : Z;
  PinApplied : bool;
  OriginalAllowedCPUs : option (gmap string string);
  OSCPUs : string;
  GameCPUs : string;
  LastSuccessfulPinApply : Z;
  LastSuccessfulRestore : Z;
}.

(** [procscan.GameProcess], with the fields the daemon reads. *)
Record GameProcess : Type := mkGameProcess {
  PID : Z;
  StartTime : N;
  Exe : string;
  GameID : string;
  IDSource : string;
}.

(** the result of [Scanner.Scan]: processes grouped by game id *)
Definition Games : Type := gmap string (list GameProcess).

(** [config.Config], with the fields the daemon core reads. *)
Record Config : Type := mkConfig {
  PinSessionSlice : bool;
  PinSlices : list string;
  OSCPUsOverride : string;
  GameCPUsOverride : string;
}.

(** [pinState] of [cmd/ccdpin/main.go] *)
Record pinState : Type := mkPinState {
  pVersion : Z;
  Instances : option (gmap string N);
  pOriginalAllowedCPUs : option (gmap string string);
  pOSCPUs : string;
  Slices : list string;
  UpdatedAt : Z;
}.

(** ** Observable actions *)

Inductive event : Type :=
| Bus (c : sdcall)
    (** a request sent to the init supervisor *)
| DryRunLog (c : sdcall)
    (** a request short-circuited in dry-run: only a diagnostic is logged *)
| StateSaved (st : File)
    (** [state.Save]: the daemon state file is written *)
| DumpedState (st : File)
| Printed (line : string)
| LockTaken
| LockReleased
| PinStateSaved (st : pinState)
    (** [saveLocked]: the coordinator state file is written *)
| GameRun (gameCPUs : string) (cmd : list string)
| Warned (msg : string).

(** The files and the lock of the host. *)
Class Storage (W : Type) : Type := {
  fs_load_state : W -> result File;
  fs_save_state : File -> W -> option error * W;
  (** open the lock file and [flock] it *)
  fs_lock : W -> option error * W;
  fs_unlock : W -> W;
  (** the coordinator state file: [None] when it does not exist *)
  fs_read_pin : W -> result (option pinState);
  fs_write_pin : pinState -> W -> option error * W;
  (** [defaultStateDir] and [os.MkdirAll] *)
  fs_state_dir : W -> option error * W;
  (** [runGame]: launch the child and wait for its exit status *)
  host_run_game : string -> list string -> W -> Z * W;
}.

(** A running program: the structures it holds ([mem]), the host and the
    trace of what it did. *)
Record Proc (W Mem : Type) : Type := mkProc {
  mem : Mem;
  host : W;
  trace : list event;
}.
Arguments mkProc {W Mem} mem host trace.
Arguments mem {W Mem} p.
Arguments host {W Mem} p.
Arguments trace {W Mem} p.

(** [systemdctl.Systemctl] and [systemdctl.UserManager] *)
Record Systemctl : Type := mkSystemctl { DryRun : bool }.
Record UserManager : Type := mkUserManager { mgrDryRun : bool }.

Section HostOps.
Context {W : Type} `{Supervisor W} `{Storage W} {Mem : Type}.

Definition emit (e : event) : M (Proc W Mem) unit :=
  modify (fun p => mkProc (mem p) (host p) (trace p ++ [e])%list).

Definition getMem : M (Proc W Mem) Mem := gets mem.

Definition setMem (f : Mem -> Mem) : M (Proc W Mem) unit :=
  modify (fun p => mkProc (f (mem p)) (host p) (trace p)).

Definition timeNow : M (Proc W Mem) Z := gets (fun p => host_now (host p)).

(** run a host operation that returns a Go result *)
Definition onHost {A} (f : W -> result A * W) : M (Proc W Mem) A :=
  fun p =>
    let '(r, w') := f (host p) in
    (r, mkProc (mem p) w' (trace p)).

(** run a host operation that returns a Go [error] *)
Definition onHostE (f : W -> option error * W) : M (Proc W Mem) unit :=
  fun p =>
    match f (host p) with
    | (None, w') => (Ok tt, mkProc (mem p) w' (trace p))
    | (Some e, w') => (Err e, mkProc (mem p) w' (trace p))
    end.

(** Modelled from the spec: [internal/systemdctl] is not among the
    sources.  The property read always goes to the supervisor; in dry-run
    every mutating operation logs a diagnostic and returns success. *)
Definition Systemctl_GetAllowedCPUs (sys : Systemctl) (uname : string)
  : M (Proc W Mem) string :=
  emit (Bus (GetAllowedCPUs uname)) ;;;
  onHost (sd_get_allowed uname).

(** Modelled from the spec: [Systemctl.SetAllowedCPUs] sets the runtime
    property, or only logs in dry-run. *)
Definition Systemctl_SetAllowedCPUs (sys : Systemctl) (uname value : string)
  : M (Proc W Mem) unit :=
  if DryRun sys then emit (DryRunLog (SetAllowedCPUs uname value))
  else
    emit (Bus (SetAllowedCPUs uname value)) ;;;
    onHostE (sd_set_allowed uname value).

(** Modelled from the spec: [Systemctl.StartUnit]. *)
Definition Systemctl_StartUnit (sys : Systemctl) (uname : string)
  : M (Proc W Mem) unit :=
  if DryRun sys then emit (DryRunLog (StartUnit uname))
  else
    emit (Bus (StartUnit uname)) ;;;
    onHostE (sd_start_unit uname).

(** Modelled from the spec: [UserManager.EnsureTransientScope]; the value
    is [created]. *)
Definition EnsureTransientScope (mgr : UserManager) (uname : string)
    (pids : list Z) (slice description : string) : M (Proc W Mem) bool :=
  if mgrDryRun mgr then
    emit (DryRunLog (StartTransientUnit uname pids slice description)) ;;;
    ret sd_dry_created
  else
    emit (Bus (StartTransientUnit uname pids slice description)) ;;;
    onHost (sd_ensure_scope uname pids slice description).

(** Modelled from the spec: [UserManager.AttachProcesses]. *)
Definition AttachProcesses (mgr : UserManager) (uname subcgroup : string)
    (pids : list Z) : M (Proc W Mem) unit :=
  if mgrDryRun mgr then
    emit (DryRunLog (AttachProcessesToUnit uname subcgroup pids))
  else
    emit (Bus (AttachProcessesToUnit uname subcgroup pids)) ;;;
    onHostE (sd_attach uname subcgroup pids).

End HostOps.

(** ** The daemon: [cmd/ccdbind/main.go] *)

Module Daemon.

(** What [handleTick] reaches through its pointers [st] and [r]. *)
Record Mem : Type := mkMem {
  st : File;
  r : runtime;
}.

Definition setSt (f : File -> File) (m : Mem) : Mem := mkMem (f (st m)) (r m).
Definition setR (f : runtime -> runtime) (m : Mem) : Mem := mkMem (st m) (f (r m)).

Definition withPidToUnit (f : gmap Z pidRecord -> gmap Z pidRecord)
    (x : runtime) : runtime :=
  mkRuntime (dryRun x) (osCPUs x) (gameCPUs x) (f (pidToUnit x)).

Definition withOriginals (o : option (gmap string string)) (s : File) : File :=
  mkFile (Version s) (PinApplied s) o (OSCPUs s) (GameCPUs s)
    (LastSuccessfulPinApply s) (LastSuccessfulRestore s).

(** [st.PinApplied = false; st.LastSuccessfulRestore = time.Now()] *)
Definition markRestored (now : Z) (s : File) : File :=
  mkFile (Version s) false (OriginalAllowedCPUs s) (OSCPUs s) (GameCPUs s)
    (LastSuccessfulPinApply s) now.

(** lines 313-317 of [handleTick] *)
Definition markPinned (orig : gmap string string) (x : runtime) (now : Z)
    (s : File) : File :=
  mkFile (Version s) true (Some orig) (osCPUs x) (gameCPUs x)
    now (LastSuccessfulRestore s).

(** [dedupe] *)
Fixpoint dedupeFrom (seen : gset string) (l : list string) : list string :=
  match l with
  | [] => []
  | s :: rest =>
      let s := GoStrings.TrimSpace s in
      if decide (s = EmptyString) then dedupeFrom seen rest
      else if decide (s ∈ seen) then dedupeFrom seen rest
      else s :: dedupeFrom ({[s]} ∪ seen) rest
  end.

Definition dedupe (l : list string) : list string := dedupeFrom ∅ l.

(** [slicesToPin] *)
Definition slicesToPin (cfg : Config) : list string :=
  let slices := (PinSlices cfg ++ (if PinSessionSlice cfg then ["session.slice"] else []))%list in
  let slices := dedupe slices in
  match slices with
  | [] => ["app.slice"; "background.slice"]
  | _ => slices
  end.

(** [resolveCPUs].  [canonicalize] is [topology.CanonicalizeCPUList] and
    [detect] the outcome of [topology.Detect()], both outside the
    sources. *)
Definition resolveCPUs
    (canonicalize : string -> result (string * list nat))
    (detect : result Topology.Result)
    (cfg : Config) : result (string * string) :=
  if decide (GoStrings.TrimSpace (OSCPUsOverride cfg) ≠ EmptyString
             ∧ GoStrings.TrimSpace (GameCPUsOverride cfg) ≠ EmptyString)
  then
    match canonicalize (OSCPUsOverride cfg) with
    | Err e => Err (Wrapped "invalid os_cpus override" e)
    | Ok (osCanonical, _) =>
        match canonicalize (GameCPUsOverride cfg) with
        | Err e => Err (Wrapped "invalid game_cpus override" e)
        | Ok (gameCanonical, _) => Ok (osCanonical, gameCanonical)
        end
    end
  else
    match detect with
    | Err e => Err e
    | Ok res =>
        if decide (Topology.GameCPUs res = EmptyString)
        then Err (ErrorMsg "topology detection found only one list")
        else Ok (Topology.OSCPUs res, Topology.GameCPUs res)
    end.

(** The reapply test of [handleTick], lines 254-273: the loop over the
    managed slices with its two [break]s and its [continue]. *)
Fixpoint reapplyScan (os : string) (originals : option (gmap string string))
    (currentAllowed : gmap string string) (slices : list string) : bool :=
  match slices with
  | [] => false
  | u :: rest =>
      if decide (strAt currentAllowed u ≠ os) then true
      else
        match originals with
        | None => reapplyScan os originals currentAllowed rest
        | Some o =>
            match o !! u with
            | Some _ => reapplyScan os originals currentAllowed rest
            | None =>
                if decide (strAt currentAllowed u ≠ os) then true
                else reapplyScan os originals currentAllowed rest
            end
        end
  end.

Definition reapplyNeeded (s : File) (x : runtime)
    (currentAllowed : gmap string string) (slices : list string) : bool :=
  if PinApplied s
  then reapplyScan (osCPUs x) (OriginalAllowedCPUs s) currentAllowed slices
  else true.

(** lines 281-284: [orig = make(...)] filled from [currentAllowed] *)
Definition snapshot (currentAllowed : gmap string string) : gmap string string :=
  copyMap currentAllowed.

(** one round of the backfill loop, lines 287-296 *)
Definition backfillStep (os : string) (u val : string)
    (orig : gmap string string) : gmap string string :=
  match orig !! u with
  | Some _ => orig
  | None =>
      if decide (val ≠ os) then <[u := val]> orig
      else <[u := EmptyString]> orig
  end.

(** lines 286-297: the backfill loop over [currentAllowed] *)
Definition backfill (os : string) (currentAllowed orig : gmap string string)
    : gmap string string :=
  map_fold (backfillStep os) orig currentAllowed.

(** lines 276-298: the value of [orig] after the [if]/[else] *)
Definition computeOrig (s : File) (x : runtime)
    (currentAllowed : gmap string string) : gmap string string :=
  if PinApplied s
  then backfill (osCPUs x) currentAllowed (default ∅ (OriginalAllowedCPUs s))
  else snapshot currentAllowed.

(** The classification of one scanned process, lines 346-357: [true] when
    the pid is appended to [newPIDs]. *)
Definition classifyNew (bindings : gmap Z pidRecord) (uname : string)
    (gp : GameProcess) : bool :=
  match bindings !! PID gp with
  | None => true
  | Some rec =>
      if decide (recUnit rec ≠ uname) then true
      else if ((startTime rec =? 0) || (StartTime gp =? 0))%N then true
      else if decide (startTime rec ≠ StartTime gp) then true
      else false
  end.

(** the locals of the loop over [procs], lines 337-358 *)
Record Visit : Type := mkVisit {
  alive : gset Z;
  pidStarts : gmap Z N;
  pids : list Z;
  newPIDs : list Z;
}.

Definition visitProc (bindings : gmap Z pidRecord) (uname : string)
    (v : Visit) (gp : GameProcess) : Visit :=
  mkVisit ({[PID gp]} ∪ alive v)
    (<[PID gp := StartTime gp]> (pidStarts v))
    (pids v ++ [PID gp])%list
    (if classifyNew bindings uname gp then (newPIDs v ++ [PID gp])%list else newPIDs v).

Definition visitAll (bindings : gmap Z pidRecord) (uname : string)
    (alive0 : gset Z) (procs : list GameProcess) : Visit :=
  foldl (visitProc bindings uname) (mkVisit alive0 ∅ [] []) procs.

(** [r.pidToUnit[pid] = pidRecord{unit, pidStarts[pid]}] for each pid *)
Definition recordPids (uname : string) (starts : gmap Z N) (l : list Z)
    (bindings : gmap Z pidRecord) : gmap Z pidRecord :=
  foldl (fun b pid => <[pid := mkPidRecord uname (default 0%N (starts !! pid))]> b)
    bindings l.

(** lines 392-396: drop the bindings of pids not seen alive *)
Definition purge (seen : gset Z) (bindings : gmap Z pidRecord) : gmap Z pidRecord :=
  filter (fun kv => kv.1 ∈ seen) bindings.

(** [sort.Strings] over the keys of [games] *)
Definition sortedGameIDs (games : Games) : list string :=
  merge_sort String.le (map fst (map_to_list games)).

Section WithHost.
Context {W : Type} `{Supervisor W} `{Storage W}.
(** [systemdctl.UnitNameForGameID], outside the sources *)
Variable UnitNameForGameID : string -> string.

Local Abbreviation Run := (M (Proc W Mem)).

(** Modelled from the spec: [state.Save(statePath, *st)] of
    [internal/state] writes the file whatever the dry-run flag is. *)
Definition saveState : Run unit :=
  m <- getMem ;;
  emit (StateSaved (st m)) ;;;
  onHostE (fs_save_state (st m)).

(** [restoreSlices] *)
Definition restoreSlices (sys : Systemctl) (slices : list string)
    (originals : option (gmap string string)) : Run unit :=
  forEach slices (fun u => Systemctl_SetAllowedCPUs sys u (strAtNil originals u)).

(** [readAllowedCPUs] *)
Fixpoint readAllowedCPUsInto (sys : Systemctl) (slices : list string)
    (out : gmap string string) : Run (gmap string string) :=
  match slices with
  | [] => ret out
  | u :: rest =>
      val <- Systemctl_GetAllowedCPUs sys u ;;
      readAllowedCPUsInto sys rest (<[u := val]> out)
  end.

Definition readAllowedCPUs (sys : Systemctl) (slices : list string)
    : Run (gmap string string) :=
  readAllowedCPUsInto sys slices ∅.

(** lines 275-321: the reapply block.  The backfill loop writes into
    [orig], which is the map [st.OriginalAllowedCPUs] itself when the pin
    is applied and that map is not nil, so those writes are visible in
    [st] even when a later call fails. *)
Definition reapply (sys : Systemctl) (slices : list string)
    (currentAllowed : gmap string string) : Run unit :=
  m <- getMem ;;
  let orig := computeOrig (st m) (r m) currentAllowed in
  (if PinApplied (st m) && bool_decide (is_Some (OriginalAllowedCPUs (st m)))
   then setMem (setSt (withOriginals (Some orig)))
   else ret tt) ;;;
  forEach slices (fun u => Systemctl_SetAllowedCPUs sys u (osCPUs (r m))) ;;;
  now <- timeNow ;;
  setMem (setSt (markPinned orig (r m) now)) ;;;
  saveState.

(** lines 331-389: one round of the loop over the game ids; the result
    is the [alive] set so far. *)
Definition gameStep (sys : Systemctl) (mgr : UserManager) (games : Games)
    (alive0 : gset Z) (gameID : string) : Run (gset Z) :=
  let procs := default [] (games !! gameID) in
  let uname := UnitNameForGameID gameID in
  match procs with
  | [] => ret alive0
  | _ =>
      m <- getMem ;;
      let v := visitAll (pidToUnit (r m)) uname alive0 procs in
      let desc := "ccdbind game " +:+ gameID in
      created <- wrapErr ("EnsureTransientScope " +:+ uname)
                   (EnsureTransientScope mgr uname (pids v) "game.slice" desc) ;;
      wrapErr ("pin scope " +:+ uname)
        (Systemctl_SetAllowedCPUs sys uname (gameCPUs (r m))) ;;;
      (if created : bool then
         setMem (setR (withPidToUnit (recordPids uname (pidStarts v) (pids v))))
       else
         match newPIDs v with
         | [] => ret tt
         | _ =>
             wrapErr ("AttachProcessesToUnit " +:+ uname)
               (AttachProcesses mgr uname "" (newPIDs v)) ;;;
             setMem (setR (withPidToUnit (recordPids uname (pidStarts v) (newPIDs v))))
         end) ;;;
      ret (alive v)
  end.

Fixpoint gameLoop (sys : Systemctl) (mgr : UserManager) (games : Games)
    (alive0 : gset Z) (gameIDs : list string) : Run (gset Z) :=
  match gameIDs with
  | [] => ret alive0
  | g :: rest =>
      alive1 <- gameStep sys mgr games alive0 g ;;
      gameLoop sys mgr games alive1 rest
  end.

(** [handleTick] *)
Definition handleTick (sys : Systemctl) (mgr : UserManager)
    (slices : list string) (games : Games) : Run unit :=
  if decide (size games = 0%nat) then
    m <- getMem ;;
    if PinApplied (st m) then
      restoreSlices sys slices (OriginalAllowedCPUs (st m)) ;;;
      now <- timeNow ;;
      setMem (setSt (markRestored now)) ;;;
      saveState ;;;
      setMem (setR (withPidToUnit (fun _ => ∅)))
    else ret tt
  else
    currentAllowed <- readAllowedCPUs sys slices ;;
    m <- getMem ;;
    (if reapplyNeeded (st m) (r m) currentAllowed slices
     then reapply sys slices currentAllowed
     else ret tt) ;;;
    seen <- gameLoop sys mgr games ∅ (sortedGameIDs games) ;;
    setMem (setR (withPidToUnit (purge seen))).

(** [restoreIfNeeded]; [scan] is the outcome of [scanner.Scan()] *)
Definition restoreIfNeeded (sys : Systemctl) (slices : list string)
    (scan : result Games) : Run unit :=
  m <- getMem ;;
  if negb (PinApplied (st m)) then ret tt
  else
    match scan with
    | Err e => fail e
    | Ok games =>
        if decide (0 < size games)%nat then ret tt
        else
          restoreSlices sys slices (OriginalAllowedCPUs (st m)) ;;;
          now <- timeNow ;;
          setMem (setSt (markRestored now)) ;;;
          saveState
    end.

(** The [for]/[select] loop of [runDaemon], lines 152-175.  [ticks]
    lists the outcome of [scanner.Scan()] at each timer tick; after the
    last one the context is cancelled and the loop takes its
    [ctx.Done()] branch. *)
Fixpoint tickLoop (sys : Systemctl) (mgr : UserManager)
    (slices : list string) (ticks : list (result Games)) : Run unit :=
  match ticks with
  | [] =>
      m <- getMem ;;
      if PinApplied (st m) then
        res <- try (restoreSlices sys slices (OriginalAllowedCPUs (st m))) ;;
        match res with
        | Err _ => ret tt
        | Ok _ =>
            now <- timeNow ;;
            setMem (setSt (markRestored now)) ;;;
            _ <- try saveState ;;
            ret tt
        end
      else ret tt
  | Err _ :: rest => tickLoop sys mgr slices rest
  | Ok games :: rest =>
      _ <- try (handleTick sys mgr slices games) ;;
      tickLoop sys mgr slices rest
  end.

(** the command-line flags of [runDaemon] the core depends on *)
Record Flags : Type := mkFlags {
  flagPrintTopo : bool;
  flagDryRun : bool;
  flagDumpState : bool;
}.

(** [runDaemon], from the parsed flags on.  An [Err] result is a call of
    [fatal] (exit status 1); [cfgLoad] is the outcome of [config.Load],
    [startupScan] the scan made by [restoreIfNeeded]. *)
Definition runDaemon (flags : Flags) (cfgLoad : result Config)
    (canonicalize : string -> result (string * list nat))
    (detect : result Topology.Result)
    (startupScan : result Games) (ticks : list (result Games)) : Run unit :=
  if flagDumpState flags then
    loaded <- onHost (fun w => (fs_load_state w, w)) ;;
    emit (DumpedState loaded)
  else
    match cfgLoad with
    | Err e => fail e
    | Ok cfg =>
        setMem (setR (fun _ => mkRuntime (flagDryRun flags) "" "" ∅)) ;;;
        match resolveCPUs canonicalize detect cfg with
        | Err e => fail e
        | Ok (effectiveOS, effectiveGame) =>
            setMem (setR (fun x => mkRuntime (dryRun x) effectiveOS effectiveGame (pidToUnit x))) ;;;
            if flagPrintTopo flags then
              emit (Printed ("OS_CPUS=" +:+ effectiveOS)) ;;;
              emit (Printed ("GAME_CPUS=" +:+ effectiveGame))
            else
              let slices := slicesToPin cfg in
              let sys := mkSystemctl (flagDryRun flags) in
              _ <- try (Systemctl_StartUnit sys "game.slice") ;;
              wrapErr "connect to user dbus" (onHostE (sd_connect (flagDryRun flags))) ;;;
              let mgr := mkUserManager (flagDryRun flags) in
              loaded <- onHost (fun w => (fs_load_state w, w)) ;;
              setMem (setSt (fun _ => loaded)) ;;;
              _ <- try (restoreIfNeeded sys slices startupScan) ;;
              tickLoop sys mgr slices ticks
        end
    end.

End WithHost.

(** the zero values of [st] and [r] before [runDaemon] assigns them *)
Definition zeroMem : Mem :=
  mkMem (mkFile 0 false None "" "" 0 0) (mkRuntime false "" "" ∅).

End Daemon.

(** ** The allowed-CPU scan: [internal/procscan/affinity.go] *)

Module Procscan.

(** [CPUConstraint] *)
Record CPUConstraint : Type := mkCPUConstraint {
  PID : Z;
  StartTime : N;
  Exe : string;
  AllowedCPUs : string;
}.

(** [os.DirEntry]: one entry of the listing of the process-table root *)
Record DirEntry : Type := mkDirEntry {
  Name : string;
  IsDir : bool;
}.

(** The process table below [procRoot]: the listing of the root
    ([os.ReadDir]) and, for the directory of a given name, the files the
    scan reads by path: [<root>/<name>/status] and [<root>/<name>/stat]
    ([os.ReadFile], [os.Open]) and the target of the link
    [<root>/<name>/exe] ([os.Readlink]). *)
Record ProcRoot : Type := mkProcRoot {
  entries : result (list DirEntry);
  statusFile : string -> result string;
  statFile : string -> result string;
  exeLink : string -> result string;
}.

(** the loop of [allowedCPUsFromStatus] over the scanned lines *)
Fixpoint allowedCPUsFromLines (lines : list string) : string * bool :=
  match lines with
  | [] => (EmptyString, false)
  | line :: rest =>
      if negb (GoStrings.HasPrefix line "Cpus_allowed_list:")
      then allowedCPUsFromLines rest
      else
        match GoStrings.Fields line with
        | _ :: f1 :: _ => (GoStrings.TrimSpace f1, true)
        | _ => (EmptyString, false)
        end
  end.

(** [allowedCPUsFromStatus]; the error of the scanner is not looked at *)
Definition allowedCPUsFromStatus (data : string) : string * bool :=
  allowedCPUsFromLines (GoStrings.Lines data).

(** [allowedCPUsAt], on the outcome of reading [<root>/<pid>/status];
    [canonicalize] is [topology.CanonicalizeCPUList]. *)
Definition allowedCPUsAt
    (canonicalize : string -> result (string * list nat))
    (status : result string) : result string :=
  match status with
  | Err e => Err e
  | Ok data =>
      let '(allowed, ok) := allowedCPUsFromStatus data in
      if negb ok then Err (ErrorMsg "Cpus_allowed_list not found")
      else
        match canonicalize allowed with
        | Err _ => Ok (GoStrings.TrimSpace allowed)
        | Ok (canonical, _) => Ok canonical
        end
  end.

(** the loop of [isOwnedByUIDAt] and what follows it; [tooLong] tells
    whether the scan ended with an error ([scanner.Err()]) *)
Fixpoint ownedFromLines (uid : Z) (tooLong : bool) (lines : list string) : result bool :=
  match lines with
  | [] =>
      if tooLong then Err (ErrorMsg "bufio.Scanner: token too long")
      else Err (ErrorMsg "Uid line not found")
  | line :: rest =>
      if negb (GoStrings.HasPrefix line "Uid:") then ownedFromLines uid tooLong rest
      else
        match GoStrings.Fields line with
        | _ :: f1 :: _ =>
            match GoStrings.Atoi f1 with
            | Some parsed => Ok (bool_decide (parsed = uid))
            | None => Err (ErrorMsg "strconv.Atoi: invalid syntax")
            end
        | _ => Err (ErrorMsg "unexpected Uid line")
        end
  end.

(** [isOwnedByUIDAt], on the outcome of reading [<root>/<pid>/status] *)
Definition isOwnedByUIDAt (status : result string) (uid : Z) : result bool :=
  match status with
  | Err e => Err e
  | Ok data => ownedFromLines uid (GoStrings.ScanTooLong data) (GoStrings.Lines data)
  end.

(** [filepath.Base] on a slash-separated path *)
Fixpoint dropSlashes (s : string) : string :=
  match s with
  | String "/"%char rest => dropSlashes rest
  | _ => s
  end.

Fixpoint takeToSlash (s : string) : string :=
  match s with
  | EmptyString => EmptyString
  | String c rest => if Ascii.eqb c "/"%char then EmptyString else String c (takeToSlash rest)
  end.

Definition Base (path : string) : string :=
  match path with
  | EmptyString => "."
  | _ =>
      match String.rev (takeToSlash (dropSlashes (String.rev path))) with
      | EmptyString => "/"
      | b => b
      end
  end.

(** [strings.ToLower] on a string of ASCII bytes, where the library lowers
    the bytes [A] to [Z] and keeps the others.  On a string with other
    bytes the library maps every rune through [unicode.ToLower], whose
    tables are not among the sources: the statements that say what a
    lower-cased string is are made for ASCII strings. *)
Definition lowerChar (c : ascii) : ascii :=
  let n := nat_of_ascii c in
  if ((65 <=? n) && (n <=? 90))%nat then ascii_of_nat (n + 32) else c.

Fixpoint ToLower (s : string) : string :=
  match s with
  | EmptyString => EmptyString
  | String c rest => String (lowerChar c) (ToLower rest)
  end.

(** [exeBasenameLowerAt] *)
Definition exeBasenameLowerAt (link : result string) : string :=
  match link with
  | Err _ => EmptyString
  | Ok target =>
      let base := GoStrings.TrimSpace (Base target) in
      if decide (base = EmptyString ∨ base = "." ∨ base = "/") then EmptyString
      else ToLower base
  end.

(** the part of [line] after its last [')'], or [None] without one *)
Fixpoint afterLastParen (s : string) : option string :=
  match s with
  | EmptyString => None
  | String c rest =>
      match afterLastParen rest with
      | Some t => Some t
      | None => if Ascii.eqb c ")"%char then Some rest else None
      end
  end.

(** [strconv.ParseUint(s, 10, 64)] *)
Definition ParseUint (s : string) : result N :=
  match NilZero.uint_of_string s with
  | Some d =>
      let n := N.of_uint d in
      if (n <? 2 ^ 64)%N then Ok n else Err (ErrorMsg "strconv.ParseUint: value out of range")
  | None => Err (ErrorMsg "strconv.ParseUint: invalid syntax")
  end.

(** [procStartTimeAt] *)
Definition procStartTimeAt (stat : result string) : result N :=
  match stat with
  | Err e => Err e
  | Ok data =>
      let line := GoStrings.TrimSpace data in
      if decide (line = EmptyString) then Err (ErrorMsg "empty stat")
      else
        match afterLastParen line with
        | None => Err (ErrorMsg "invalid stat format")
        | Some (String _ (String c tail)) =>
            match GoStrings.Fields (String c tail) !! 19%nat with
            | Some f => ParseUint f
            | None => Err (ErrorMsg "stat too short")
            end
        | Some _ => Err (ErrorMsg "invalid stat format")
        end
  end.

(** the body of the loop of [scanUserCPUConstraintsAt]: the record the
    entry contributes, if any.  The files are read by path, below the
    directory named [strconv.Itoa(pid)], which need not be the name of the
    entry. *)
Definition scanEntry (canonicalize : string -> result (string * list nat))
    (root : ProcRoot) (uid : Z) (ent : DirEntry) : option CPUConstraint :=
  if negb (IsDir ent) then None
  else
    match GoStrings.Atoi (Name ent) with
    | None => None
    | Some pid =>
        if decide (pid <= 0) then None
        else
          let dir := GoStrings.Itoa pid in
          match isOwnedByUIDAt (statusFile root dir) uid with
          | Err _ | Ok false => None
          | Ok true =>
              let exe := exeBasenameLowerAt (exeLink root dir) in
              if decide (exe = EmptyString) then None
              else
                match allowedCPUsAt canonicalize (statusFile root dir) with
                | Err _ => None
                | Ok allowed =>
                    if decide (GoStrings.TrimSpace allowed = EmptyString) then None
                    else
                      let startTime :=
                        match procStartTimeAt (statFile root dir) with
                        | Ok t => t
                        | Err _ => 0%N
                        end in
                      Some (mkCPUConstraint pid startTime exe allowed)
                end
          end
    end.

(** [scanUserCPUConstraintsAt] *)
Definition scanUserCPUConstraintsAt
    (canonicalize : string -> result (string * list nat))
    (root : ProcRoot) (uid : Z) : result (list CPUConstraint) :=
  match entries root with
  | Err e => Err e
  | Ok ents => Ok (omap (scanEntry canonicalize root uid) ents)
  end.

End Procscan.

(** ** The status reporter's summary of all processes: [runStatus] *)

Module Status.

(** [statusProgramSummary] *)
Record statusProgramSummary : Type := mkSummary {
  Exe : string;
  Class : string;
  AllowedCPUs : string;
  Count : Z;
  SamplePIDs : list Z;
}.

(** lines 108-120: the CPU lists the report classifies against;
    [resolved] is the outcome of [resolveCPUs(cfg)]. *)
Definition effectiveCPUs (st : File) (resolved : result (string * string))
    : string * string :=
  let os := GoStrings.TrimSpace (OSCPUs st) in
  let game := GoStrings.TrimSpace (GameCPUs st) in
  if decide (os = EmptyString ∨ game = EmptyString) then
    match resolved with
    | Ok (resOS, resGame) =>
        (if decide (os = EmptyString) then resOS else os,
         if decide (game = EmptyString) then resGame else game)
    | Err _ => (os, game)
    end
  else (os, game).

(** the [switch] of lines 188-195: [None] is the [continue] *)
Definition classOf (os game : string) (p : Procscan.CPUConstraint) : option string :=
  if decide (os ≠ EmptyString ∧ Procscan.AllowedCPUs p = os) then Some "os"
  else if decide (game ≠ EmptyString ∧ Procscan.AllowedCPUs p = game) then Some "game"
  else None.

(** lines 202-205, on the summary [groups[k]] points to *)
Definition bump (pid : Z) (s : statusProgramSummary) : statusProgramSummary :=
  mkSummary (Exe s) (Class s) (AllowedCPUs s) (Count s + 1)
    (if (length (SamplePIDs s) <? 8)%nat then (SamplePIDs s ++ [pid])%list
     else SamplePIDs s).

(** one round of the loop of lines 186-206 *)
Definition addProcess (os game : string)
    (groups : gmap (string * string) statusProgramSummary)
    (p : Procscan.CPUConstraint) : gmap (string * string) statusProgramSummary :=
  match classOf os game p with
  | None => groups
  | Some class =>
      let k := (Procscan.Exe p, class) in
      let s :=
        match groups !! k with
        | Some s => s
        | None => mkSummary (Procscan.Exe p) class (Procscan.AllowedCPUs p) 0 []
        end in
      <[k := bump (Procscan.PID p) s]> groups
  end.

Definition groupAll (os game : string) (all : list Procscan.CPUConstraint)
    : gmap (string * string) statusProgramSummary :=
  foldl (addProcess os game) ∅ all.

(** the comparison function given to [sort.Slice], lines 212-220 *)
Definition less (a b : statusProgramSummary) : bool :=
  if decide (Class a ≠ Class b) then String.ltb (Class a) (Class b)
  else if decide (Count a ≠ Count b) then Count b <? Count a
  else String.ltb (Exe a) (Exe b).

Definition notAfter (a b : statusProgramSummary) : Prop := less b a = false.

#[global] Instance notAfter_dec : RelDecision notAfter.
Proof. intros a b. unfold notAfter. apply _. Defined.

(** [sort.Slice(summaries, less)]: a sort by [less].  The summaries have
    pairwise distinct (class, executable) keys, on which [less] is a
    strict total order, so every correct sort returns the same list. *)
Definition sortSlice (l : list statusProgramSummary) : list statusProgramSummary :=
  merge_sort notAfter l.


End Status.

(** ** The wrapper's pin coordinator: [cmd/ccdpin/main.go] *)

Module Ccdpin.

(** [slicePinManager] (the paths of the state directory are the host's) *)
Record slicePinManager : Type := mkManager {
  sys : Systemctl;
  osCPUs : string;
  slices : list string;
  debug : bool;
  pid : Z;
  startTS : N;
}.

(** [resolved] *)
Record resolved : Type := mkResolved {
  rOSCPUs : string;
  rGameCPUs : string;
  noOSPin : bool;
  osSlices : list string;
  rDebug : bool;
}.

Definition withInstances (i : option (gmap string N)) (s : pinState) : pinState :=
  mkPinState (pVersion s) i (pOriginalAllowedCPUs s) (pOSCPUs s) (Slices s) (UpdatedAt s).

Definition withVersion (v : Z) (s : pinState) : pinState :=
  mkPinState v (Instances s) (pOriginalAllowedCPUs s) (pOSCPUs s) (Slices s) (UpdatedAt s).

Definition withUpdatedAt (t : Z) (s : pinState) : pinState :=
  mkPinState (pVersion s) (Instances s) (pOriginalAllowedCPUs s) (pOSCPUs s) (Slices s) t.

(** lines 941-946 of [pinSlicesLocked] *)
Definition withSnapshot (current : gmap string string) (os : string)
    (pinned : list string) (s : pinState) : pinState :=
  mkPinState (pVersion s) (Instances s) (Some (copyMap current)) os pinned (UpdatedAt s).

(** lines 994-996 of [releaseAndRestore] *)
Definition cleared (s : pinState) : pinState :=
  mkPinState (pVersion s) (Instances s) None "" [] (UpdatedAt s).

(** [pinState{Version: 1}] *)
Definition freshState : pinState := mkPinState 1 None None "" [] 0.

(** [if st.Version == 0 { st.Version = 1 }] *)
Definition fixVersion (s : pinState) : pinState :=
  if decide (pVersion s = 0) then withVersion 1 s else s.

Section WithHost.
Context {W : Type} `{Supervisor W} `{Storage W}.

Local Abbreviation Run := (M (Proc W pinState)).

(** the closure [unlock] returned by [lockAndLoad] *)
Definition unlock : Run unit :=
  emit LockReleased ;;;
  onHostE (fun w => (None, fs_unlock w)).

(** [lockAndLoad]; the loaded state becomes the local [st] *)
Definition lockAndLoad : Run unit :=
  onHostE fs_lock ;;;
  emit LockTaken ;;;
  loaded <- try (onHost (fun w => (fs_read_pin w, w))) ;;
  match loaded with
  | Err e => unlock ;;; fail e
  | Ok None => setMem (fun _ => freshState)
  | Ok (Some s) => setMem (fun _ => fixVersion s)
  end.

(** [saveLocked(st)] *)
Definition saveLocked : Run unit :=
  s <- getMem ;;
  emit (PinStateSaved (fixVersion s)) ;;;
  onHostE (fs_write_pin (fixVersion s)).

(** the test of the loop of [pruneDeadInstances]: [true] when the
    entry is copied to [out] *)
Definition instanceLive (w : W) (k : string) (recorded : N) : bool :=
  match GoStrings.Atoi k with
  | None => false
  | Some p =>
      if decide (p <= 0) then false
      else
        match host_proc_start p w with
        | Err _ => false
        | Ok liveStart =>
            negb (negb (recorded =? 0)%N && negb (liveStart =? 0)%N
                  && negb (liveStart =? recorded)%N)
        end
  end.

(** [pruneDeadInstances] *)
Definition pruneDeadInstances (w : W) (s : pinState) : pinState :=
  if decide (mapLen (Instances s) = 0%nat) then s
  else
    withInstances
      (Some (filter (fun kv => instanceLive w kv.1 kv.2 = true)
               (default ∅ (Instances s))))
      s.

Definition prune : Run unit :=
  fun p => (Ok tt, mkProc (pruneDeadInstances (host p) (mem p)) (host p) (trace p)).

(** lines 924-936: read the slices that exist *)
Fixpoint probeSlices (m : slicePinManager) (l : list string)
    (pinned : list string) (current : gmap string string)
    : Run (list string * gmap string string) :=
  match l with
  | [] => ret (pinned, current)
  | u :: rest =>
      res <- try (Systemctl_GetAllowedCPUs (sys m) u) ;;
      match res with
      | Err _ => probeSlices m rest pinned current
      | Ok val => probeSlices m rest (pinned ++ [u])%list (<[u := val]> current)
      end
  end.

(** lines 954-962: the best-effort rollback *)
Fixpoint rollback (m : slicePinManager) (l : list string) : Run unit :=
  match l with
  | [] => ret tt
  | u2 :: rest =>
      s <- getMem ;;
      match default ∅ (pOriginalAllowedCPUs s) !! u2 with
      | None => rollback m rest
      | Some orig =>
          _ <- try (Systemctl_SetAllowedCPUs (sys m) u2 orig) ;;
          rollback m rest
      end
  end.

(** lines 948-965: pin each slice, rolling all of them back at the
    first failure *)
Fixpoint pinEach (m : slicePinManager) (pinned l : list string) : Run unit :=
  match l with
  | [] => ret tt
  | u :: rest =>
      res <- try (Systemctl_SetAllowedCPUs (sys m) u (osCPUs m)) ;;
      match res with
      | Err e => rollback m pinned ;;; fail e
      | Ok _ => pinEach m pinned rest
      end
  end.

(** [pinSlicesLocked] *)
Definition pinSlicesLocked (m : slicePinManager) : Run unit :=
  probed <- probeSlices m (slices m) [] ∅ ;;
  let '(pinned, current) := probed in
  match pinned with
  | [] => fail (ErrorMsg "no OS slices could be pinned")
  | _ =>
      setMem (withSnapshot current (osCPUs m) pinned) ;;;
      pinEach m pinned pinned
  end.

Definition instKey (m : slicePinManager) : string := GoStrings.Itoa (pid m).

(** lines 824-829 *)
Definition addSelf (m : slicePinManager) (s : pinState) : pinState :=
  withInstances (Some (<[instKey m := startTS m]> (default ∅ (Instances s)))) s.

(** [delete(st.Instances, instKey)] *)
Definition dropSelf (m : slicePinManager) (s : pinState) : pinState :=
  match Instances s with
  | None => s
  | Some i => withInstances (Some (delete (instKey m) i)) s
  end.

(** [AcquireAndPin] after [lockAndLoad] succeeded, up to its [return] *)
Definition acquireLocked (m : slicePinManager) : Run unit :=
  prune ;;;
  setMem (addSelf m) ;;;
  s <- getMem ;;
  (if decide (mapLen (Instances s) = 1%nat) then
     res <- try (pinSlicesLocked m) ;;
     match res with
     | Err e =>
         setMem (dropSelf m) ;;;
         _ <- try saveLocked ;;
         unlock ;;;
         fail e
     | Ok _ => ret tt
     end
   else ret tt) ;;;
  now <- timeNow ;;
  setMem (withUpdatedAt now) ;;;
  res <- try saveLocked ;;
  match res with
  | Err e => unlock ;;; fail e
  | Ok _ => unlock
  end.

(** [AcquireAndPin]: [Ok] stands for the returned cleanup closure, which
    calls [releaseAndRestore].  The deferred function unlocks once more
    on the paths that return an error. *)
Definition AcquireAndPin (m : slicePinManager) : Run unit :=
  lockAndLoad ;;;
  res <- try (acquireLocked m) ;;
  match res with
  | Err e => unlock ;;; fail e
  | Ok _ => ret tt
  end.

(** lines 978-985 of [releaseAndRestore] *)
Definition removeSelf (m : slicePinManager) (s : pinState) : pinState :=
  match Instances s with
  | None => s
  | Some i =>
      match i !! instKey m with
      | Some recorded =>
          if ((recorded =? 0) || (startTS m =? 0) || (recorded =? startTS m))%N
          then withInstances (Some (delete (instKey m) i)) s
          else s
      | None => s
      end
  end.

(** the test of line 987 *)
Definition restoreDue (s : pinState) : bool :=
  bool_decide (mapLen (Instances s) = 0%nat)
  && bool_decide (0 < mapLen (pOriginalAllowedCPUs s))%nat.

(** lines 988-993 *)
Fixpoint restoreEach (m : slicePinManager) (originals : option (gmap string string))
    (l : list string) : Run unit :=
  match l with
  | [] => ret tt
  | u :: rest =>
      _ <- try (Systemctl_SetAllowedCPUs (sys m) u (strAtNil originals u)) ;;
      restoreEach m originals rest
  end.

(** [releaseAndRestore] *)
Definition releaseAndRestore (m : slicePinManager) : Run unit :=
  locked <- try lockAndLoad ;;
  match locked with
  | Err e => emit (Warned "release lock")
  | Ok _ =>
      prune ;;;
      setMem (removeSelf m) ;;;
      s <- getMem ;;
      (if restoreDue s then
         restoreEach m (pOriginalAllowedCPUs s) (Slices s) ;;;
         setMem cleared
       else ret tt) ;;;
      now <- timeNow ;;
      setMem (withUpdatedAt now) ;;;
      _ <- try saveLocked ;;
      unlock
  end.

(** [newSlicePinManager] *)
Definition newSlicePinManager (s : Systemctl) (sl : list string)
    (os : string) (dbg : bool) : Run slicePinManager :=
  if decide (GoStrings.TrimSpace os = EmptyString) then fail (ErrorMsg "empty os cpus")
  else
    match sl with
    | [] => fail (ErrorMsg "no slices configured")
    | _ =>
        onHostE fs_state_dir ;;;
        self <- gets (fun p => host_getpid (host p)) ;;
        started <- gets (fun p => host_proc_start self (host p)) ;;
        ret (mkManager s os sl dbg self
               (match started with Ok t => t | Err _ => 0%N end))
    end.

(** [runGame], seen as one host action that yields the exit status *)
Definition runGame (game : string) (cmd : list string) : Run Z :=
  emit (GameRun game cmd) ;;;
  onHost (fun w => let '(code, w') := host_run_game game cmd w in (Ok code, w')).

(** [main], from the resolved options on: the value is the exit status
    given to [os.Exit]; an [Err] is a call of [fatal]. *)
Definition main (rs : resolved) (cmd : list string) : Run Z :=
  match cmd with
  | [] => fail (ErrorMsg "no command provided")
  | _ =>
      let s := mkSystemctl false in
      cleanup <-
        (if noOSPin rs then ret (ret tt)
         else
           made <- try (newSlicePinManager s (osSlices rs) (rOSCPUs rs) (rDebug rs)) ;;
           match made with
           | Err e => emit (Warned "os slice pin disabled") ;;; ret (ret tt)
           | Ok pin =>
               got <- try (AcquireAndPin pin) ;;
               match got with
               | Err e => emit (Warned "failed to pin OS slices") ;;; ret (ret tt)
               | Ok _ => ret (releaseAndRestore pin)
               end
           end) ;;
      exitCode <- runGame (rGameCPUs rs) cmd ;;
      (cleanup : Run unit) ;;;
      ret exitCode
  end.

End WithHost.

End Ccdpin.

(** ** A simulated host

    A first-order host on which the programs can be run: the supervisor
    keeps one [AllowedCPUs] value per unit, property reads and writes fail
    on designated units, files are written unless the disk is full, and
    the process table maps live pids to their start times. *)

Module Sim.

Record World : Type := mkWorld {
  units : gmap string string;
  unreadable : gset string;
  readonly : gset string;
  stateFile : option File;
  pinFile : option pinState;
  locked : bool;
  procs : gmap Z N;
  self : Z;
  clock : Z;
  diskFull : bool;
}.

Definition withUnits (f : gmap string string -> gmap string string) (w : World) : World :=
  mkWorld (f (units w)) (unreadable w) (readonly w) (stateFile w) (pinFile w)
    (locked w) (procs w) (self w) (clock w) (diskFull w).

Definition withStateFile (s : File) (w : World) : World :=
  mkWorld (units w) (unreadable w) (readonly w) (Some s) (pinFile w)
    (locked w) (procs w) (self w) (clock w) (diskFull w).

Definition withPinFile (s : pinState) (w : World) : World :=
  mkWorld (units w) (unreadable w) (readonly w) (stateFile w) (Some s)
    (locked w) (procs w) (self w) (clock w) (diskFull w).

Definition withLocked (b : bool) (w : World) : World :=
  mkWorld (units w) (unreadable w) (readonly w) (stateFile w) (pinFile w)
    b (procs w) (self w) (clock w) (diskFull w).

Definition withSelf (p : Z) (w : World) : World :=
  mkWorld (units w) (unreadable w) (readonly w) (stateFile w) (pinFile w)
    (locked w) (procs w) p (clock w) (diskFull w).

#[global] Instance supervisor : Supervisor World := {|
  sd_get_allowed u w :=
    if decide (u ∈ unreadable w) then (Err (HostError "property read failed"), w)
    else (Ok (strAt (units w) u), w);
  sd_set_allowed u v w :=
    if decide (u ∈ readonly w) then (Some (HostError "property write failed"), w)
    else (None, withUnits (insert u v) w);
  sd_start_unit u w := (None, w);
  sd_ensure_scope u pids slice desc w :=
    match units w !! u with
    | Some _ => (Ok false, w)
    | None => (Ok true, withUnits (insert u EmptyString) w)
    end;
  sd_attach u sub pids w := (None, w);
  sd_connect dry w := (None, w);
  sd_dry_created := false;
  host_now w := clock w;
  host_proc_start p w :=
    match procs w !! p with
    | Some t => Ok t
    | None => Err (HostError "no such process")
    end;
  host_getpid w := self w;
|}.

#[global] Instance storage : Storage World := {|
  fs_load_state w := Ok (default (Daemon.st Daemon.zeroMem) (stateFile w));
  fs_save_state s w :=
    if diskFull w then (Some (HostError "write failed"), w)
    else (None, withStateFile s w);
  fs_lock w := (None, withLocked true w);
  fs_unlock w := withLocked false w;
  fs_read_pin w := Ok (pinFile w);
  fs_write_pin s w :=
    if diskFull w then (Some (HostError "write failed"), w)
    else (None, withPinFile s w);
  fs_state_dir w := (None, w);
  host_run_game game cmd w := (0, w);
|}.

(** a host with the given unit properties and live processes, nothing
    failing and no state on disk *)
Definition fresh (us : gmap string string) (ps : gmap Z N) : World :=
  mkWorld us ∅ ∅ None None false ps 0 0 false.

Definition start {Mem} (m : Mem) (w : World) : Proc World Mem := mkProc m w [].

End Sim.


(** ** Vocabulary of the statements *)

(** the request [c] was made, for real or as a dry-run diagnostic *)
Definition requested (c : sdcall) (e : event) : Prop :=
  e = Bus c \/ e = DryRunLog c.

(** [e] asks the supervisor to attach [pid] to the unit [uname] *)
Definition attachesPid (uname : string) (pid : Z) (e : event) : Prop :=
  exists l, pid ∈ l /\ requested (AttachProcessesToUnit uname "" l) e.

(** [e] is a request that changes supervisor state and was really sent *)
Definition busMutation (e : event) : bool :=
  match e with
  | Bus c => mutating c
  | _ => false
  end.

(** [e] is a write of the daemon state file *)
Definition isStateSaved (e : event) : bool :=
  match e with
  | StateSaved _ => true
  | _ => false
  end.

(** the event a [SetAllowedCPUs] call leaves in the trace *)
Definition setEvent (sys : Systemctl) (uname value : string) : event :=
  if DryRun sys then DryRunLog (SetAllowedCPUs uname value)
  else Bus (SetAllowedCPUs uname value).


(** What "the pid is (re-)attached to the unit of its game" means for one
    successful round of the game loop started in [p]: the pid ends up bound
    to the unit in the pid→unit map, and unless the scope was just created
    with all the pids of the game (which include it), an attach request
    carrying the pid was made. *)
Definition reattached {W : Type} `{Supervisor W} `{Storage W}
    (UnitNameForGameID : string -> string) (sys : Systemctl) (mgr : UserManager)
    (games : Games) (alive0 : gset Z) (gameID : string) (procs : list GameProcess)
    (pid : Z) (p : Proc W Daemon.Mem) : Prop :=
  forall alive' p',
    Daemon.gameStep UnitNameForGameID sys mgr games alive0 gameID p = (Ok alive', p') ->
    (exists t, pidToUnit (Daemon.r (mem p')) !! pid
               = Some (mkPidRecord (UnitNameForGameID gameID) t))
    /\ exists created p1 evs,
         EnsureTransientScope mgr (UnitNameForGameID gameID) (map PID procs)
           "game.slice" ("ccdbind game " +:+ gameID) p = (Ok created, p1)
         /\ trace p' = trace p ++ evs
         /\ (created = false -> Exists (attachesPid (UnitNameForGameID gameID) pid) evs).


(** ** Concrete data for the examples *)

Module Scenario.

(** a unit-name function of the shape the daemon uses *)
Definition unitName (gameID : string) : string :=
  "ccdbind-game-" +:+ gameID +:+ ".scope".

Definition sys : Systemctl := mkSystemctl false.
Definition mgr : UserManager := mkUserManager false.
Definition drySys : Systemctl := mkSystemctl true.
Definition dryMgr : UserManager := mkUserManager true.

(** a game process whose start time could not be read *)
Definition gpZero : GameProcess := mkGameProcess 42 0 "game.exe" "730" "SteamAppId".
(** the same pid seen with start time 900 *)
Definition gpLater : GameProcess := mkGameProcess 42 900 "game.exe" "730" "SteamAppId".

Definition gamesZero : Games := {[ "730" := [gpZero] ]}.
Definition gamesLater : Games := {[ "730" := [gpLater] ]}.

(** S1: the two-CCD topology *)
Definition os : string := "0-7".
Definition game : string := "8-15".

Definition slices : list string := ["app.slice"; "background.slice"].

(** pid 42 bound to the scope of game 730, start time unreadable *)
Definition zeroBinding : gmap Z pidRecord :=
  {[ 42 := mkPidRecord (unitName "730") 0 ]}.




(** the pin applied with an original recorded for [app.slice] only;
    [app.slice] was widened behind the daemon's back while
    [background.slice] is still at the OS CPUs *)
Definition partialMem : Daemon.Mem :=
  Daemon.mkMem
    (mkFile 1 true (Some {[ "app.slice" := "2-5" ]}) os game 0 0)
    (mkRuntime false os game ∅).

Definition tamperedWorld : Sim.World :=
  Sim.fresh {[ "app.slice" := "0-15"; "background.slice" := os ]} {[ 42 := 900%N ]}.

Definition tampered : Proc Sim.World Daemon.Mem := Sim.start partialMem tamperedWorld.

(** the S1 topology as [topology.Detect] reports it *)
Definition detected : result Topology.Result :=
  Ok (Topology.mkResult ["0-7"; "8-15"] os game).

(** the default configuration: no overrides *)
Definition defaultConfig : Config := mkConfig false ["app.slice"; "background.slice"] "" "".

Definition tab : string := String "009"%char EmptyString.
Definition nl : string := String "010"%char EmptyString.

(** the UTF-8 encodings of U+00A0 (no-break space) and U+2003 (em space) *)
Definition nbsp : string := String "194"%char (String "160"%char EmptyString).
Definition emsp : string :=
  String "226"%char (String "128"%char (String "131"%char EmptyString)).

(** the status file of the repository's [TestAllowedCPUsFromStatus] *)
Definition statusFoo : string :=
  "Name:" +:+ tab +:+ "foo" +:+ nl +:+
  "Uid:" +:+ tab +:+ "1000" +:+ tab +:+ "1000" +:+ tab +:+ "1000" +:+ tab +:+ "1000" +:+ nl +:+
  "Cpus_allowed_list:" +:+ tab +:+ "0-3,8-11" +:+ nl.

(** the status file of [TestAllowedCPUsFromStatusMissing] *)
Definition statusMissing : string :=
  "Name:" +:+ tab +:+ "foo" +:+ nl +:+
  "Uid:" +:+ tab +:+ "1000" +:+ tab +:+ "1000" +:+ tab +:+ "1000" +:+ tab +:+ "1000" +:+ nl.

(** a status file whose mask the codec rejects *)
Definition statusOdd : string :=
  "Uid:" +:+ tab +:+ "1000" +:+ nl +:+
  "Cpus_allowed_list:" +:+ tab +:+ "0-3,x" +:+ nl.

(** the status file of a process of the user [uid] with the mask [mask] *)
Definition statusOf (uid mask : string) : string :=
  "Uid:" +:+ tab +:+ uid +:+ tab +:+ uid +:+ nl +:+
  "Cpus_allowed_list:" +:+ tab +:+ mask +:+ nl.

(** the processes of a table: for the directory of each, the owner, the
    target of the [exe] link and the mask *)
Definition procFiles : gmap string (string * string * string) :=
  {[ "10" := ("1000", "/usr/bin/Bash", "0-7");
     "11" := ("1000", "/games/game.exe", "8-15");
     "12" := ("1000", "/usr/bin/bash", "0-7");
     "13" := ("1000", "/usr/bin/vi", "0-15");
     "14" := ("0", "/usr/sbin/sshd", "0-7") ]}.

(** a process table holding [files], listed as [ents]; no [stat] file can
    be read *)
Definition tableOf (ents : list Procscan.DirEntry) : Procscan.ProcRoot :=
  Procscan.mkProcRoot (Ok ents)
    (fun name =>
       match procFiles !! name with
       | Some (uid, _, mask) => Ok (statusOf uid mask)
       | None => Err (HostError "no such file or directory")
       end)
    (fun _ => Err (HostError "stat unreadable"))
    (fun name =>
       match procFiles !! name with
       | Some (_, exe, _) => Ok exe
       | None => Err (HostError "no such file or directory")
       end).

(** two shells of user 1000 on the OS CPUs, a game on the GAME CPUs, an
    unconstrained editor, a daemon of another user on the OS CPUs, and an
    entry that is no process *)
Definition procTable : Procscan.ProcRoot :=
  tableOf
    [ Procscan.mkDirEntry "10" true; Procscan.mkDirEntry "11" true;
      Procscan.mkDirEntry "12" true; Procscan.mkDirEntry "13" true;
      Procscan.mkDirEntry "14" true; Procscan.mkDirEntry "cpuinfo" false ].

(** a listing with two more names that [strconv.Atoi] reads as 12 *)
Definition oddTable : Procscan.ProcRoot :=
  tableOf
    [ Procscan.mkDirEntry "12" true; Procscan.mkDirEntry "+12" true;
      Procscan.mkDirEntry "012" true ].

(** a status file whose [Groups:] line, of 65536 bytes, comes before the
    mask *)
Definition longLine : string :=
  "Groups:" +:+ tab +:+ string_of_list_ascii (repeat "0"%char (N.to_nat 65528)).

Definition statusLong : string :=
  longLine +:+ nl +:+ "Cpus_allowed_list:" +:+ tab +:+ "0-3" +:+ nl.

(** the same with a [Groups:] line one byte shorter *)
Definition statusNearlyLong : string :=
  "Groups:" +:+ tab +:+ string_of_list_ascii (repeat "0"%char (N.to_nat 65527)) +:+ nl +:+
  "Cpus_allowed_list:" +:+ tab +:+ "0-3" +:+ nl.

(** S4: wrappers A (pid 100) and B (pid 200), both alive, OS slices
    initially at ["0-15"] *)
Definition pinA : Ccdpin.slicePinManager :=
  Ccdpin.mkManager (mkSystemctl false) os slices false 100 7.
Definition pinB : Ccdpin.slicePinManager :=
  Ccdpin.mkManager (mkSystemctl false) os slices false 200 9.

Definition wrapperWorld : Sim.World :=
  Sim.withSelf 100
    (Sim.fresh {[ "app.slice" := "0-15"; "background.slice" := "0-15" ]}
       {[ 100 := 7%N; 200 := 9%N ]}).

Definition wrapperStart : Proc Sim.World pinState :=
  Sim.start Ccdpin.freshState wrapperWorld.

(** the same host, except that [background.slice] refuses property writes *)
Definition refusingWorld : Sim.World :=
  Sim.mkWorld {[ "app.slice" := "0-15"; "background.slice" := "0-15" ]}
    ∅ {[ "background.slice" ]} None None false {[ 100 := 7%N; 200 := 9%N ]} 100 0 false.

Definition refusingStart : Proc Sim.World pinState :=
  Sim.start Ccdpin.freshState refusingWorld.

(** a coordinator state file left behind by a dead wrapper that had the
    pid 100 and could not read its start time *)
Definition staleState : pinState :=
  mkPinState 1 (Some {[ "100" := 0%N ]}) None "" [] 0.

(** the host of [refusingWorld] with that file on a disk that is full *)
Definition staleFullStart : Proc Sim.World pinState :=
  Sim.start Ccdpin.freshState
    (Sim.mkWorld {[ "app.slice" := "0-15"; "background.slice" := "0-15" ]}
       ∅ {[ "background.slice" ]} None (Some staleState) false
       {[ 100 := 7%N; 200 := 9%N ]} 100 0 true).

(** the options of a wrapper that pins the default slices *)
Definition wrapperOptions : Ccdpin.resolved :=
  Ccdpin.mkResolved os game false slices false.



(** S4: wrapper A acquires, then wrapper B; A releases, then B *)
Definition afterA : Proc Sim.World pinState :=
  (Ccdpin.AcquireAndPin pinA wrapperStart).2.
Definition afterAB : Proc Sim.World pinState :=
  (Ccdpin.AcquireAndPin pinB afterA).2.
Definition afterARelease : Proc Sim.World pinState :=
  (Ccdpin.releaseAndRestore pinA afterAB).2.
Definition afterBRelease : Proc Sim.World pinState :=
  (Ccdpin.releaseAndRestore pinB afterARelease).2.


(** the same OS override with no GAME override *)
Definition invertedAlone : Config :=
  mkConfig false ["app.slice"; "background.slice"] "5-3" "".

(** S2 start: nothing pinned, no state file, slices unconstrained *)
Definition cleanStart : Proc Sim.World Daemon.Mem :=
  Sim.start Daemon.zeroMem
    (Sim.fresh {[ "app.slice" := ""; "background.slice" := "" ]} {[ 42 := 900%N ]}).

(** a dry run of the daemon that sees game 730 at its only tick *)
Definition dryRunOnce : result unit * Proc Sim.World Daemon.Mem :=
  Daemon.runDaemon unitName (Daemon.mkFlags false true false) (Ok defaultConfig)
    Topology.CanonicalizeCPUList detected (Ok ∅) [Ok gamesLater] cleanStart.

(** a daemon whose pid 42 is bound to the scope of game 730 with the
    recorded start time [t], the scope being loaded *)
Definition boundAt (t : N) : Proc Sim.World Daemon.Mem :=
  Sim.start
    (Daemon.mkMem (mkFile 1 true (Some ∅) os game 0 0)
       (mkRuntime false os game {[ 42 := mkPidRecord (unitName "730") t ]}))
    (Sim.fresh {[ unitName "730" := game ]} {[ 42 := 900%N ]}).

End Scenario.


(** [respects R c]: every run of [c], successful or not, takes a state to an
    [R]-related state. *)
Definition respects {S A : Type} (R : S -> S -> Prop) (c : M S A) : Prop :=
  forall s res s', c s = (res, s') -> R s s'.

(** the events a run from [p] to [p'] added to the trace all satisfy [P] *)
Definition addsOnly {W Mem : Type} (P : event -> Prop) (p p' : Proc W Mem) : Prop :=
  exists evs, trace p' = trace p ++ evs /\ Forall P evs.

(** the daemon's state structure [st] is not written *)
Definition sameSt {W : Type} (p p' : Proc W Daemon.Mem) : Prop :=
  Daemon.st (mem p') = Daemon.st (mem p).


(** the value the backfill records for a slice whose current value is [c] *)
Definition backfillValue (os c : string) : string :=
  if decide (c <> os) then c else EmptyString.


(** the events that neither change supervisor state nor write the daemon
    state file *)
Definition pureEvent (e : event) : Prop :=
  busMutation e = false /\ isStateSaved e = false.


(** a string that does not start with a white-space rune; [endOK] is the
    same for the end of a string given with its last byte first *)
Definition headOK (s : string) : Prop :=
  match s with
  | String c r => GoStrings.spaceWidth c r = 0%nat
  | EmptyString => True
  end.

Definition endOK (s : string) : Prop :=
  match s with
  | String c r => GoStrings.spaceWidthEnd c r = 0%nat
  | EmptyString => True
  end.

(** a string that does not end with a white-space rune *)
Definition lastOK (s : string) : Prop := endOK (String.rev s).


(** The process whose status file reads [status] belongs to the user
    [uid]: the file can be read, and the first of its lines that starts with
    [Uid:] has at least two fields, the second of which is a decimal numeral
    of value [uid] (the real uid of the process). *)
Definition ownedBy (uid : Z) (status : result string) : Prop :=
  exists data pre line post f0 f1 rest,
    status = Ok data
    /\ GoStrings.Lines data = (pre ++ line :: post)%list
    /\ Forall (fun l => GoStrings.HasPrefix l "Uid:" = false) pre
    /\ GoStrings.HasPrefix line "Uid:" = true
    /\ GoStrings.Fields line = f0 :: f1 :: rest
    /\ GoStrings.Atoi f1 = Some uid.

(** The summary as the spec words it: the scanned processes of executable
    [exe] that fall in class [class], ... *)
Definition groupMembers (os game exe class : string)
    (all : list Procscan.CPUConstraint) : list Procscan.CPUConstraint :=
  filter (fun p => Procscan.Exe p = exe /\ Status.classOf os game p = Some class) all.

(** ... the summary of such a group: its size and its first 8 pids, ... *)
Definition expectedSummary (exe class : string)
    (members : list Procscan.CPUConstraint) : Status.statusProgramSummary :=
  Status.mkSummary exe class
    (match members with
     | p :: _ => Procscan.AllowedCPUs p
     | [] => EmptyString
     end)
    (Z.of_nat (length members))
    (take 8 (map Procscan.PID members)).

(** ... and the order of the groups: class ascending, then count
    descending, then executable ascending, strings being compared bytewise
    as Go's [<] does. *)
Definition summaryBefore (a b : Status.statusProgramSummary) : Prop :=
  String.ltb (Status.Class a) (Status.Class b) = true
  \/ (Status.Class a = Status.Class b
      /\ (Status.Count b < Status.Count a
          \/ (Status.Count a = Status.Count b
              /\ String.ltb (Status.Exe a) (Status.Exe b) = true))).

(** the key under which a summary is grouped *)
Definition summaryKey (s : Status.statusProgramSummary) : string * string :=
  (Status.Exe s, Status.Class s).


(** [e] is a request that reached the supervisor *)
Definition isBus (e : event) : bool :=
  match e with
  | Bus _ => true
  | _ => false
  end.

(** the part of the trace of [p'] added since [p] (a run only appends) *)
Definition added {W Mem : Type} (p p' : Proc W Mem) : list event :=
  drop (length (trace p)) (trace p').



(** the coordinator state a wrapper works on at acquire: the loaded state,
    pruned, with the wrapper's own entry inserted *)
Definition atAcquire {W : Type} `{Supervisor W} (m : Ccdpin.slicePinManager)
    (p1 : Proc W pinState) : pinState :=
  Ccdpin.addSelf m (Ccdpin.pruneDeadInstances (host p1) (mem p1)).


Section CoordinatorVocabulary.
Context {W : Type} `{Supervisor W} `{Storage W}.

(** the tail of [AcquireAndPin]: stamp, save, unlock *)
Definition finishAcquire : M (Proc W pinState) unit :=
  now <- timeNow ;;
  setMem (Ccdpin.withUpdatedAt now) ;;;
  res <- try Ccdpin.saveLocked ;;
  match res with
  | Err e => Ccdpin.unlock ;;; fail e
  | Ok _ => Ccdpin.unlock
  end.

(** the state in which a failed pin leaves the acquirer: own entry dropped,
    state saved, lock released *)
Definition afterFailedPin (m : Ccdpin.slicePinManager) (p2 : Proc W pinState)
    : Proc W pinState :=
  let q := (Ccdpin.saveLocked
              (mkProc (Ccdpin.dropSelf m (mem p2)) (host p2) (trace p2))).2 in
  mkProc (mem q) (fs_unlock (host q)) (trace q ++ [LockReleased]).

End CoordinatorVocabulary.


(** the instances map of the coordinator state in memory is not written *)
Definition keepsInstances {W : Type} (p p' : Proc W pinState) : Prop :=
  Instances (mem p') = Instances (mem p).

(** The coordinator state file behaves as a file.  [saveLocked] writes a
    temporary file and renames it over the state file, so a save that
    succeeds is what the next read returns and a save that fails leaves the
    file as it was; neither the lock nor a request to the supervisor
    touches the file. *)
Class PinFile (W : Type) `{Supervisor W} `{Storage W} : Prop := {
  write_then_read : forall s w w',
    fs_write_pin s w = (None, w') -> fs_read_pin w' = Ok (Some s);
  failed_write : forall s w e w',
    fs_write_pin s w = (Some e, w') -> fs_read_pin w' = fs_read_pin w;
  lock_keeps_file : forall w r w',
    fs_lock w = (r, w') -> fs_read_pin w' = fs_read_pin w;
  unlock_keeps_file : forall w, fs_read_pin (fs_unlock w) = fs_read_pin w;
  get_keeps_file : forall u w r w',
    sd_get_allowed u w = (r, w') -> fs_read_pin w' = fs_read_pin w;
  set_keeps_file : forall u v w r w',
    sd_set_allowed u v w = (r, w') -> fs_read_pin w' = fs_read_pin w;
}.

(** the coordinator state file is not written *)
Definition sameFile {W : Type} `{Storage W} (p p' : Proc W pinState) : Prop :=
  fs_read_pin (host p') = fs_read_pin (host p).




(** * The configuration file, the wrapper's front end and the status command *)

(** ** More of Go's [strings] *)

Module GoMore.

(** [strings.HasSuffix s suffix] *)
Definition HasSuffix (s suffix : string) : bool :=
  String.prefix (String.rev suffix) (String.rev s).

(** [strings.IndexByte s c]: [None] is [-1] *)
Fixpoint IndexByte (s : string) (c : ascii) : option nat :=
  match s with
  | EmptyString => None
  | String a rest =>
      if Ascii.eqb a c then Some 0%nat
      else option_map S (IndexByte rest c)
  end.

(** [s[:i]] for [i <= len(s)] *)
Fixpoint sliceTo (s : string) (i : nat) : string :=
  match i, s with
  | S j, String a rest => String a (sliceTo rest j)
  | _, _ => EmptyString
  end.

End GoMore.

(** ** The configuration file: [internal/config/config.go] *)

Module ConfigFile.

(** [config.Config]; [Interval] is a [time.Duration], in nanoseconds *)
Record Config : Type := mkConfig {
  Interval : Z;
  EnvKeys : list string;
  ExeAllowlist : list string;
  IgnoreExe : list string;
  IgnoreFile : string;
  PinSessionSlice : bool;
  PinSlices : list string;
  OSCPUsOverride : string;
  GameCPUsOverride : string;
}.

(** [tomlConfig]: what [toml.Decode] fills; a key that is absent leaves
    the zero value ([None] for the [*bool]) *)
Record tomlConfig : Type := mkToml {
  tInterval : string;
  tEnvKeys : list string;
  tExeAllowlist : list string;
  tIgnoreExe : list string;
  tIgnoreFile : string;
  tPinSessionSlice : option bool;
  tPinSlices : list string;
  tOSCPUsOverride : string;
  tGameCPUsOverride : string;
}.

(** [Default] *)
Definition Default : Config :=
  mkConfig (2 * 1000000000)
    ["SteamAppId"; "SteamGameId"; "STEAM_COMPAT_APP_ID"]
    []
    ["steam"; "steamwebhelper"; "steamservice";
     "steam-runtime-launcher-interface-0"; "steam-runtime-supervisor";
     "pressure-vessel"; "pressure-vessel-wrap"; "wineserver"; "wine64"; "wine";
     "services.exe"; "explorer.exe"; "conhost.exe"; "rpcss.exe";
     "winedevice.exe"; "plugplay.exe"; "svchost.exe"; "winedbg";
     "gameoverlayui"; "gameoverlayui.exe"; "steam_monitor"; "reaper"]
    ""
    false
    ["app.slice"; "background.slice"]
    "" "".

(** the loop of [dedupeNonEmpty]; [transform] is [None] for [nil] *)
Fixpoint dedupeFrom (transform : option (string -> string)) (seen : gset string)
    (l : list string) : list string :=
  match l with
  | [] => []
  | s :: rest =>
      let s := GoStrings.TrimSpace s in
      if decide (s = EmptyString) then dedupeFrom transform seen rest
      else
        let s := match transform with Some f => f s | None => s end in
        if decide (s = EmptyString) then dedupeFrom transform seen rest
        else if decide (s ∈ seen) then dedupeFrom transform seen rest
        else s :: dedupeFrom transform ({[s]} ∪ seen) rest
  end.

(** [dedupeNonEmpty] *)
Definition dedupeNonEmpty (l : list string) (transform : option (string -> string))
    : list string :=
  dedupeFrom transform ∅ l.

(** a result whose error may be [os.ErrNotExist] ([Missing]) or another
    error ([Failed]) *)
Inductive found (A : Type) : Type :=
| Got (a : A)
| Missing
| Failed (e : error).
Arguments Got {A} a.
Arguments Missing {A}.
Arguments Failed {A} e.

(** the outcome of [os.ReadFile] *)
Definition fileRead : Type := found string.

(** the loop of [loadIgnoreFile] over the lines *)
Fixpoint ignoreLines (lines : list string) : list string :=
  match lines with
  | [] => []
  | line :: rest =>
      let line := GoStrings.TrimSpace line in
      if decide (line = EmptyString) then ignoreLines rest
      else if GoStrings.HasPrefix line "#" then ignoreLines rest
      else line :: ignoreLines rest
  end.

(** [loadIgnoreFile], on the outcome of reading [path] *)
Definition loadIgnoreFile (read : fileRead) : found (list string) :=
  match read with
  | Got data => Got (ignoreLines (GoStrings.Split data "010"%char))
  | Missing => Missing
  | Failed e => Failed e
  end.

(** [expandTilde]; [home] is the outcome of [os.UserHomeDir()] and [join]
    is [filepath.Join] *)
Definition expandTilde (home : result string) (join : string -> string -> string)
    (path : string) : string :=
  let path := GoStrings.TrimSpace path in
  if decide (path = EmptyString) then path
  else if negb (GoStrings.HasPrefix path "~") then path
  else
    match home with
    | Err _ => path
    | Ok h =>
        match path with
        | String "~"%char EmptyString => h
        | String "~"%char (String "/"%char rest) => join h rest
        | String "~"%char rest => join h rest
        | _ => path
        end
    end.

(** lines 112-141 of [Load]: the decoded file laid over the defaults;
    [parseDuration] is [time.ParseDuration] *)
Definition overlay (parseDuration : string -> result Z) (tc : tomlConfig)
    (cfg : Config) : result Config :=
  match
    (if decide (tInterval tc ≠ EmptyString) then
       match parseDuration (tInterval tc) with
       | Err e => Err (Wrapped "invalid interval" e)
       | Ok d => Ok d
       end
     else Ok (Interval cfg))
  with
  | Err e => Err e
  | Ok interval =>
      Ok (mkConfig interval
            (match tEnvKeys tc with
             | [] => EnvKeys cfg
             | l => dedupeNonEmpty l None
             end)
            (match tExeAllowlist tc with
             | [] => ExeAllowlist cfg
             | l => dedupeNonEmpty l (Some Procscan.ToLower)
             end)
            (match tIgnoreExe tc with
             | [] => IgnoreExe cfg
             | l => dedupeNonEmpty l (Some Procscan.ToLower)
             end)
            (if decide (tIgnoreFile tc ≠ EmptyString)
             then GoStrings.TrimSpace (tIgnoreFile tc) else IgnoreFile cfg)
            (match tPinSessionSlice tc with
             | Some b => b
             | None => PinSessionSlice cfg
             end)
            (match tPinSlices tc with
             | [] => PinSlices cfg
             | l => dedupeNonEmpty l None
             end)
            (if decide (tOSCPUsOverride tc ≠ EmptyString)
             then GoStrings.TrimSpace (tOSCPUsOverride tc) else OSCPUsOverride cfg)
            (if decide (tGameCPUsOverride tc ≠ EmptyString)
             then GoStrings.TrimSpace (tGameCPUsOverride tc) else GameCPUsOverride cfg))
  end.

Definition withIgnoreFile (f : string) (cfg : Config) : Config :=
  mkConfig (Interval cfg) (EnvKeys cfg) (ExeAllowlist cfg) (IgnoreExe cfg) f
    (PinSessionSlice cfg) (PinSlices cfg) (OSCPUsOverride cfg) (GameCPUsOverride cfg).

Definition withIgnoreExe (l : list string) (cfg : Config) : Config :=
  mkConfig (Interval cfg) (EnvKeys cfg) (ExeAllowlist cfg) l (IgnoreFile cfg)
    (PinSessionSlice cfg) (PinSlices cfg) (OSCPUsOverride cfg) (GameCPUsOverride cfg).

(** lines 145-159 of [Load]: the ignore list is read and merged *)
Definition withIgnoreList (defaultIgnorePath : result string) (home : result string)
    (join : string -> string -> string) (readFile : string -> fileRead)
    (cfg : Config) : result Config :=
  match
    (if decide (GoStrings.TrimSpace (IgnoreFile cfg) = EmptyString) then
       match defaultIgnorePath with
       | Err e => Err e
       | Ok ignorePath => Ok (withIgnoreFile ignorePath cfg)
       end
     else Ok cfg)
  with
  | Err e => Err e
  | Ok cfg =>
      let cfg := withIgnoreFile (expandTilde home join (IgnoreFile cfg)) cfg in
      match loadIgnoreFile (readFile (IgnoreFile cfg)) with
      | Got extra =>
          Ok (withIgnoreExe
                (dedupeNonEmpty (IgnoreExe cfg ++ extra) (Some Procscan.ToLower)) cfg)
      | Missing => Ok cfg
      | Failed e => Err e
      end
  end.

(** [Load]; [decode] is [toml.Decode] into a [tomlConfig] *)
Definition Load (decode : string -> result tomlConfig)
    (parseDuration : string -> result Z)
    (defaultIgnorePath : result string) (home : result string)
    (join : string -> string -> string) (readFile : string -> fileRead)
    (path : string) : result Config :=
  match
    (if decide (path ≠ EmptyString) then
       match readFile path with
       | Failed e => Err e
       | Missing => Ok Default
       | Got data =>
           match decode data with
           | Err e => Err e
           | Ok tc => overlay parseDuration tc Default
           end
       end
     else Ok Default)
  with
  | Err e => Err e
  | Ok cfg => withIgnoreList defaultIgnorePath home join readFile cfg
  end.

End ConfigFile.

(** [runDaemon] lines 83-110: the fields of the loaded configuration that
    [resolveCPUs] and [slicesToPin] read *)
Definition daemonConfig (c : ConfigFile.Config) : Config :=
  mkConfig (ConfigFile.PinSessionSlice c) (ConfigFile.PinSlices c)
    (ConfigFile.OSCPUsOverride c) (ConfigFile.GameCPUsOverride c).

(** ** The wrapper's front end: [cmd/ccdpin/main.go] *)

Module Wrapper.

Definition envGameCPUs : string := "STEAM_CCD_GAME_CPUS".
Definition envOSCPUs : string := "STEAM_CCD_OS_CPUS".
Definition envSwap : string := "STEAM_CCD_SWAP".
Definition envNoOSPin : string := "STEAM_CCD_NO_OS_PIN".
Definition envOSSlices : string := "STEAM_CCD_OS_SLICES".
Definition envDebug : string := "STEAM_CCD_DEBUG".

(** [options] *)
Record options : Type := mkOptions {
  print : bool;
  swap : bool;
  noOSPin : bool;
  gameCPUs : string;
  osCPUs : string;
}.

(** [parseBoolEnv]; [env] is [os.Getenv] *)
Definition parseBoolEnv (env : string -> string) (k : string) : bool :=
  let v := GoStrings.TrimSpace (env k) in
  if decide (v = EmptyString) then false
  else
    let l := Procscan.ToLower v in
    if decide (l ∈ ["1"; "true"; "yes"; "y"; "on"; "enable"; "enabled"]) then true
    else if decide (l ∈ ["0"; "false"; "no"; "n"; "off"; "disable"; "disabled"]) then false
    else true.

(** the loop of [parseSlicesEnv] over the fields *)
Fixpoint slicesFrom (seen : gset string) (fields : list string) : list string :=
  match fields with
  | [] => []
  | f :: rest =>
      let f := GoStrings.TrimSpace f in
      if decide (f = EmptyString) then slicesFrom seen rest
      else if negb (GoMore.HasSuffix f ".slice") then slicesFrom seen rest
      else if decide (f ∈ seen) then slicesFrom seen rest
      else f :: slicesFrom ({[f]} ∪ seen) rest
  end.

(** [parseSlicesEnv] *)
Definition parseSlicesEnv (v : string) : list string :=
  let v := GoStrings.TrimSpace v in
  if decide (v = EmptyString) then []
  else slicesFrom ∅ (GoStrings.Fields v).

(** [resolve]: the resolved options and the [ccds] field.  [detect] is
    the outcome of [topology.Detect()], consulted only when [needDetect]
    holds, and [canonicalize] is [topology.CanonicalizeCPUList]. *)
Definition resolve (env : string -> string) (detect : result Topology.Result)
    (canonicalize : string -> result (string * list nat))
    (opts : options) : result (Ccdpin.resolved * list string) :=
  let debug := parseBoolEnv env envDebug in
  let noPin := noOSPin opts || parseBoolEnv env envNoOSPin in
  let swapped := swap opts || parseBoolEnv env envSwap in
  let osSlices :=
    match parseSlicesEnv (env envOSSlices) with
    | [] => ["app.slice"; "background.slice"; "session.slice"]
    | l => l
    end in
  let os0 := GoStrings.TrimSpace (osCPUs opts) in
  let os1 := if decide (os0 = EmptyString)
             then GoStrings.TrimSpace (env envOSCPUs) else os0 in
  let game0 := GoStrings.TrimSpace (gameCPUs opts) in
  let game1 := if decide (game0 = EmptyString)
               then GoStrings.TrimSpace (env envGameCPUs) else game0 in
  let needDetect :=
    print opts || bool_decide (os1 = EmptyString)
    || bool_decide (game1 = EmptyString) || swapped in
  match (if needDetect then detect else Ok (Topology.mkResult [] "" "")) with
  | Err e => Err e
  | Ok det =>
      let os2 := if decide (os1 = EmptyString) then Topology.OSCPUs det else os1 in
      let game2 := if decide (game1 = EmptyString) then Topology.GameCPUs det else game1 in
      if decide (GoStrings.TrimSpace game2 = EmptyString)
      then Err (ErrorMsg "could not resolve GAME_CPUS")
      else
        match
          (if decide (GoStrings.TrimSpace os2 ≠ EmptyString) then
             match canonicalize os2 with
             | Err e => Err (Wrapped "invalid OS CPU list" e)
             | Ok (c, _) => Ok c
             end
           else Ok os2)
        with
        | Err e => Err e
        | Ok os3 =>
            match canonicalize game2 with
            | Err e => Err (Wrapped "invalid GAME CPU list" e)
            | Ok (game3, _) =>
                if swapped then
                  if decide (GoStrings.TrimSpace os3 = EmptyString)
                  then Err (ErrorMsg "cannot swap without OS_CPUS")
                  else Ok (Ccdpin.mkResolved game3 os3 noPin osSlices debug,
                           Topology.Lists det)
                else Ok (Ccdpin.mkResolved os3 game3 noPin osSlices debug,
                         Topology.Lists det)
            end
        end
  end.

(** the loop of [systemdRunSetenvArgs] over [os.Environ()] *)
Fixpoint setenvFrom (seen : gset string) (environ : list string) : list string :=
  match environ with
  | [] => []
  | kv :: rest =>
      if decide (kv = EmptyString) then setenvFrom seen rest
      else
        match GoMore.IndexByte kv "="%char with
        | None | Some O => setenvFrom seen rest
        | Some i =>
            let k := GoMore.sliceTo kv i in
            if decide (k = EmptyString) then setenvFrom seen rest
            else if decide (k ∈ seen) then setenvFrom seen rest
            else ("--setenv=" +:+ kv) :: setenvFrom ({[k]} ∪ seen) rest
        end
  end.

(** [systemdRunSetenvArgs] *)
Definition systemdRunSetenvArgs (environ : list string) : list string :=
  setenvFrom ∅ environ.

(** What [runGame] hands to [runCmd]: the binary followed by its
    arguments.  [userSystemd] is [userSystemdAvailable(ctx)], [systemdRun]
    and [taskset] are [hasBinary] of the two tools; [None] is the panic of
    [cmd[0]] on an empty command in the last branch. *)
Definition gameArgv (userSystemd systemdRun taskset : bool) (gameCPUs : string)
    (environ : list string) (cmd : list string) : option (list string) :=
  if userSystemd && systemdRun then
    let args :=
      ["--user"; "--scope"; "--wait"; "--quiet"; "--slice=game.slice";
       "-p"; "AllowedCPUs=" +:+ gameCPUs]
      ++ systemdRunSetenvArgs environ ++ ["--"] in
    if taskset then
      Some ("systemd-run" :: (args ++ ["taskset"; "-c"; gameCPUs; "--"]) ++ cmd)
    else Some ("systemd-run" :: args ++ cmd)
  else if taskset then Some ("taskset" :: ["-c"; gameCPUs; "--"] ++ cmd)
  else
    match cmd with
    | [] => None
    | bin :: args => Some (bin :: args)
    end.

(** [procStartTime], on the outcome of reading [/proc/<pid>/stat] *)
Definition procStartTime (stat : result string) : result N :=
  match stat with
  | Err e => Err e
  | Ok data =>
      let line := GoStrings.TrimSpace data in
      match Procscan.afterLastParen line with
      | Some (String _ (String c tail)) =>
          match GoStrings.Fields (String c tail) !! 19%nat with
          | Some f => Procscan.ParseUint f
          | None => Err (ErrorMsg "stat too short")
          end
      | _ => Err (ErrorMsg "invalid stat")
      end
  end.

End Wrapper.

(** ** The status reporter's options and slice report: [runStatus] *)

Module StatusCmd.

(** lines 67-83: the filter chosen by [--filter], [--only-games] and
    [--all]; an [Err] is a call of [fatal].  [quote] is the [%q] verb of
    [fmt]. *)
Definition resolveFilter (quote : string -> string) (flagFilter : string)
    (flagOnlyGames flagAll : bool) : result string :=
  let filter := Procscan.ToLower (GoStrings.TrimSpace flagFilter) in
  if flagOnlyGames && flagAll
  then Err (ErrorMsg "cannot use --only-games and --all together")
  else
    let filter := if flagOnlyGames then "games" else filter in
    let filter := if flagAll then "all" else filter in
    let filter := if decide (filter = EmptyString) then "games" else filter in
    if decide (filter ≠ "games" ∧ filter ≠ "all")
    then Err (ErrorMsg ("invalid --filter=" +:+ quote filter +:+ " (expected games|all)"))
    else Ok filter.

(** [statusSlice]; [ReadAllowedCPUErr] holds the error whose text the
    source stores, [None] for the empty string *)
Record statusSlice : Type := mkStatusSlice {
  Unit : string;
  sAllowedCPUs : string;
  OriginalAllowed : string;
  ReadAllowedCPUErr : option error;
}.

Section WithHost.
Context {W : Type} `{Supervisor W} `{Storage W} {Mem : Type}.

(** lines 133-148: one [statusSlice] per managed slice *)
Fixpoint sliceReport (sys : Systemctl) (originals : option (gmap string string))
    (slices : list string) : M (Proc W Mem) (list statusSlice) :=
  match slices with
  | [] => ret []
  | u :: rest =>
      res <- try (Systemctl_GetAllowedCPUs sys u) ;;
      let ss :=
        match res with
        | Err e => mkStatusSlice u "" (strAtNil originals u) (Some e)
        | Ok val => mkStatusSlice u val (strAtNil originals u) None
        end in
      more <- sliceReport sys originals rest ;;
      ret (ss :: more)
  end.

End WithHost.

End StatusCmd.

(** ** Vocabulary of the further statements *)

(** what [dedupeNonEmpty] makes of one entry before it filters: the entry
    trimmed, then transformed *)
Definition normalised (transform : option (string -> string)) (s : string) : string :=
  match transform with
  | Some f => f (GoStrings.TrimSpace s)
  | None => GoStrings.TrimSpace s
  end.

(** a name as the configuration keeps it: not empty and without white
    space around it *)
Definition clean (x : string) : Prop :=
  x <> EmptyString /\ GoStrings.TrimSpace x = x.

(** a clean name in lower case *)
Definition cleanLower (x : string) : Prop :=
  clean x /\ Procscan.ToLower x = x.

(** the lists of a configuration are in the form [Load] leaves them in *)
Definition tidy (cfg : ConfigFile.Config) : Prop :=
  NoDup (ConfigFile.EnvKeys cfg) /\ Forall clean (ConfigFile.EnvKeys cfg)
  /\ NoDup (ConfigFile.ExeAllowlist cfg) /\ Forall cleanLower (ConfigFile.ExeAllowlist cfg)
  /\ NoDup (ConfigFile.IgnoreExe cfg) /\ Forall cleanLower (ConfigFile.IgnoreExe cfg)
  /\ NoDup (ConfigFile.PinSlices cfg) /\ Forall clean (ConfigFile.PinSlices cfg)
  /\ GoStrings.TrimSpace (ConfigFile.OSCPUsOverride cfg) = ConfigFile.OSCPUsOverride cfg
  /\ GoStrings.TrimSpace (ConfigFile.GameCPUsOverride cfg) = ConfigFile.GameCPUsOverride cfg.

(** a request to the supervisor, sent or only logged in dry-run *)
Definition isRequest (e : event) : Prop :=
  match e with
  | Bus _ | DryRunLog _ => True
  | _ => False
  end.

(** what the wrapper's coordinator adds to the trace *)
Definition coordinatorEvent (e : event) : Prop :=
  match e with
  | Bus _ | DryRunLog _ | LockTaken | LockReleased | PinStateSaved _ | Warned _ => True
  | _ => False
  end.

(** whether the coordinator lock, free before, is held after the events
    [evs] *)
Definition lockHeldAfter (evs : list event) : bool :=
  foldl (fun held e =>
           match e with
           | LockTaken => true
           | LockReleased => false
           | _ => held
           end) false evs.

(** [pid] is the pid of a process of one of the game groups of [games] *)
Definition observed (games : Games) (pid : Z) : Prop :=
  exists gameID procs gp,
    games !! gameID = Some procs /\ gp ∈ procs /\ PID gp = pid.

(** a string without white space: no white-space rune starts at any of
    its bytes *)
Fixpoint noSpace (s : string) : Prop :=
  match s with
  | EmptyString => True
  | String c r => GoStrings.spaceWidth c r = 0%nat /\ noSpace r
  end.

(** no white-space rune starts inside [w] when [w] is followed by [after] *)
Fixpoint noSpaceBefore (w after : string) : Prop :=
  match w with
  | EmptyString => True
  | String c r => GoStrings.spaceWidth c (r +:+ after) = 0%nat /\ noSpaceBefore r after
  end.

(** a string of ASCII bytes *)
Fixpoint isASCII (s : string) : bool :=
  match s with
  | EmptyString => true
  | String c r => (GoStrings.byte c <? 128)%N && isASCII r
  end.

(** an executable name as the configuration keeps it: clean, of ASCII
    bytes and in lower case *)
Definition lowerName (x : string) : Prop :=
  cleanLower x /\ isASCII x = true.

(** the executable names the decoder returns and the files read are made of
    ASCII bytes *)
Definition asciiNames (decode : string -> result ConfigFile.tomlConfig)
    (readFile : string -> ConfigFile.fileRead) : Prop :=
  (forall data tc,
     decode data = Ok tc ->
     Forall (fun x => isASCII x = true) (ConfigFile.tExeAllowlist tc)
     /\ Forall (fun x => isASCII x = true) (ConfigFile.tIgnoreExe tc))
  /\ (forall p data, readFile p = ConfigFile.Got data -> isASCII data = true).

(** the options [opts] with [--swap] given *)
Definition withSwap (opts : Wrapper.options) : Wrapper.options :=
  Wrapper.mkOptions (Wrapper.print opts) true (Wrapper.noOSPin opts)
    (Wrapper.gameCPUs opts) (Wrapper.osCPUs opts).

(** the resolved options with the two CPU lists exchanged *)
Definition exchanged (r : Ccdpin.resolved) : Ccdpin.resolved :=
  Ccdpin.mkResolved (Ccdpin.rGameCPUs r) (Ccdpin.rOSCPUs r) (Ccdpin.noOSPin r)
    (Ccdpin.osSlices r) (Ccdpin.rDebug r).

(** the name of an environment entry [NAME=value]: [None] when the entry
    has no [=] or starts with it *)
Definition envKey (kv : string) : option string :=
  match GoMore.IndexByte kv "="%char with
  | Some (S i) => Some (GoMore.sliceTo kv (S i))
  | _ => None
  end.

Module Cases.

(** a configuration file that sets every list, with duplicates, blanks and
    upper case *)
Definition decoded : ConfigFile.tomlConfig :=
  ConfigFile.mkToml "500ms" ["SteamAppId"; " SteamAppId "]
    ["Game.EXE"; "game.exe"] ["Steam"; " "] " ~/ignore.txt "
    (Some true) [" app.slice"; "app.slice"; ""] " 0-7 " "8-15".

(** a host with that configuration file and a two-line ignore list *)
Definition readFile (path : string) : ConfigFile.fileRead :=
  if decide (path = "config.toml") then ConfigFile.Got "decoded elsewhere"
  else if decide (path = "/home/u/ignore.txt")
       then ConfigFile.Got ("# launchers" +:+ String "010"%char ("  Steam " +:+ String "010"%char "Wine"))
       else ConfigFile.Missing.

Definition decode (data : string) : result ConfigFile.tomlConfig := Ok decoded.

Definition parseDuration (s : string) : result Z :=
  if decide (s = "500ms") then Ok 500000000 else Err (ErrorMsg "time: invalid duration").

Definition join (a b : string) : string := a +:+ "/" +:+ b.

(** the same host with an unreadable ignore list *)
Definition readFileDenied (path : string) : ConfigFile.fileRead :=
  if decide (path = "/home/u/ignore.txt") then ConfigFile.Failed (HostError "permission denied")
  else readFile path.

(** a daemon with the pin applied that still binds pid 7, which is gone *)
Definition staleStart : Proc Sim.World Daemon.Mem :=
  Sim.start
    (Daemon.mkMem (mkFile 1 true (Some ∅) Scenario.os Scenario.game 0 0)
       (mkRuntime false Scenario.os Scenario.game {[ 7 := mkPidRecord "old.scope" 5%N ]}))
    (Sim.fresh {[ "app.slice" := Scenario.os; "background.slice" := Scenario.os ]}
       {[ 42 := 900%N ]}).

(** a [stat] line whose command name holds a space and a parenthesis; the
    start time is the 20th field after the command name *)
Definition statLine : string :=
  "4242 (my game) x) S 1 4242 4242 0 -1 4194304 100 0 0 0 5 3 0 0 20 0 1 0 903211 1000000 200"
  +:+ String "010"%char EmptyString.

(** an environment that names the slices and nothing else *)
Definition env (k : string) : string :=
  if decide (k = Wrapper.envOSSlices) then " app.slice  user.slice app.slice misc " else "".

(** both CPU lists on the command line *)
Definition explicit : Wrapper.options :=
  Wrapper.mkOptions false false false "8-15" " 0-7 ".

(** what topology detection finds on a two-CCD host *)
Definition twoCCD : Topology.Result := Topology.mkResult ["0-7"; "8-15"] "0-7" "8-15".

End Cases.


(** * Properties *)

(** ** Reasoning about the monad *)

Section MonadFacts.
Context {S A B : Type}.

Lemma bind_Ok (c : M S A) (k : A -> M S B) s a s1 :
  c s = (Ok a, s1) -> bind c k s = k a s1.
Proof. intros Hc. unfold bind. now rewrite Hc. Qed.

Lemma bind_Err (c : M S A) (k : A -> M S B) s e s1 :
  c s = (Err e, s1) -> bind c k s = (Err e, s1).
Proof. intros Hc. unfold bind. now rewrite Hc. Qed.

Lemma bind_inv (c : M S A) (k : A -> M S B) s res s' :
  bind c k s = (res, s') ->
  (exists a s1, c s = (Ok a, s1) /\ k a s1 = (res, s'))
  \/ (exists e, c s = (Err e, s') /\ res = Err e).
Proof.
  unfold bind. destruct (c s) as [[a|e] s1] eqn:Hc; intros Hk.
  - left. eauto.
  - right. inversion Hk; subst. eauto.
Qed.

Lemma try_run (c : M S A) s :
  try c s = (Ok (c s).1, (c s).2).
Proof. unfold try. now destruct (c s). Qed.

Lemma wrapErr_inv ctx (c : M S A) s res s' :
  wrapErr ctx c s = (res, s') ->
  (exists a, c s = (Ok a, s') /\ res = Ok a)
  \/ (exists e, c s = (Err e, s') /\ res = Err (Wrapped ctx e)).
Proof.
  unfold wrapErr. destruct (c s) as [[a|e] s1] eqn:Hc; intros Hk;
    inversion Hk; subst; eauto.
Qed.

End MonadFacts.

(** ** Classification of scanned pids (lines 341-358 of [handleTick]) *)

Lemma visitAll_app bindings uname v procs :
  foldl (Daemon.visitProc bindings uname) v procs =
  Daemon.mkVisit
    (list_to_set (map PID procs) ∪ Daemon.alive v)
    (foldl (fun m gp => <[PID gp := StartTime gp]> m) (Daemon.pidStarts v) procs)
    (Daemon.pids v ++ map PID procs)
    (Daemon.newPIDs v ++
       map PID (filter (fun gp => Daemon.classifyNew bindings uname gp = true) procs)).
Proof.
  revert v. induction procs as [|gp procs IH]; intros v; simpl.
  - destruct v; simpl. rewrite !app_nil_r. f_equal. set_solver.
  - rewrite IH. unfold Daemon.visitProc at 1 2 3 4; simpl. f_equal.
    + set_solver.
    + now rewrite <- app_assoc.
    + rewrite filter_cons.
      destruct (Daemon.classifyNew bindings uname gp) eqn:Hc.
      * rewrite decide_True by done. simpl. now rewrite <- app_assoc.
      * rewrite decide_False by (intros ?; congruence). done.
Qed.

Lemma visitAll_newPIDs bindings uname alive0 procs :
  Daemon.newPIDs (Daemon.visitAll bindings uname alive0 procs) =
  map PID (filter (fun gp => Daemon.classifyNew bindings uname gp = true) procs).
Proof. unfold Daemon.visitAll. now rewrite visitAll_app. Qed.

Lemma visitAll_pids bindings uname alive0 procs :
  Daemon.pids (Daemon.visitAll bindings uname alive0 procs) = map PID procs.
Proof. unfold Daemon.visitAll. now rewrite visitAll_app. Qed.

Lemma classifyNew_true_iff bindings uname gp :
  Daemon.classifyNew bindings uname gp = true <->
  bindings !! PID gp = None
  \/ exists rec, bindings !! PID gp = Some rec
       /\ (recUnit rec <> uname
           \/ startTime rec <> StartTime gp
           \/ startTime rec = 0%N
           \/ StartTime gp = 0%N).
Proof.
  unfold Daemon.classifyNew.
  destruct (bindings !! PID gp) as [rec|] eqn:Hb.
  - destruct (decide (recUnit rec <> uname)) as [Hu|Hu].
    { split; [|done]. intros _. right. exists rec. auto. }
    destruct (N.eqb_spec (startTime rec) 0) as [Hz|Hz]; simpl.
    { split; [|done]. intros _. right. exists rec. auto. }
    destruct (N.eqb_spec (StartTime gp) 0) as [Hz'|Hz']; simpl.
    { split; [|done]. intros _. right. exists rec. auto. }
    destruct (decide (startTime rec <> StartTime gp)) as [Hs|Hs].
    { split; [|done]. intros _. right. exists rec. auto. }
    split; [done|]. intros [|[rec' [[= <-] Hor]]]; [done|].
    exfalso. tauto.
  - split; auto.
Qed.

(** ** The primitive operations: what they change and what they log *)

Section PrimitiveFacts.
Context {W : Type} `{Supervisor W} `{Storage W} {Mem : Type}.
Implicit Types p : Proc W Mem.

Lemma emit_run (e : event) p :
  emit e p = (Ok tt, mkProc (mem p) (host p) (trace p ++ [e])).
Proof. reflexivity. Qed.

Lemma setMem_run (f : Mem -> Mem) p :
  setMem f p = (Ok tt, mkProc (f (mem p)) (host p) (trace p)).
Proof. reflexivity. Qed.

Lemma getMem_run p : getMem p = (Ok (mem p), p).
Proof. reflexivity. Qed.

Lemma timeNow_run p : timeNow p = (Ok (host_now (host p)), p).
Proof. reflexivity. Qed.

Lemma Set_frame sys u v p res p' :
  Systemctl_SetAllowedCPUs sys u v p = (res, p') ->
  mem p' = mem p /\ trace p' = trace p ++ [setEvent sys u v].
Proof.
  unfold Systemctl_SetAllowedCPUs, setEvent. destruct (DryRun sys).
  - rewrite emit_run. intros [= <- <-]. auto.
  - unfold bind. rewrite emit_run. unfold onHostE; simpl.
    destruct (sd_set_allowed u v (host p)) as [[e|] w']; intros [= <- <-]; auto.
Qed.

Lemma Set_dry_run sys u v p :
  DryRun sys = true ->
  Systemctl_SetAllowedCPUs sys u v p =
  (Ok tt, mkProc (mem p) (host p) (trace p ++ [DryRunLog (SetAllowedCPUs u v)])).
Proof. intros Hd. unfold Systemctl_SetAllowedCPUs. now rewrite Hd. Qed.

Lemma Get_frame sys u p res p' :
  Systemctl_GetAllowedCPUs sys u p = (res, p') ->
  mem p' = mem p /\ trace p' = trace p ++ [Bus (GetAllowedCPUs u)].
Proof.
  unfold Systemctl_GetAllowedCPUs, bind. rewrite emit_run. unfold onHost; simpl.
  destruct (sd_get_allowed u (host p)) as [r w']. intros [= <- <-]. auto.
Qed.

Lemma Ensure_frame mgr u l sl d p res p' :
  EnsureTransientScope mgr u l sl d p = (res, p') ->
  mem p' = mem p
  /\ exists e, trace p' = trace p ++ [e] /\ requested (StartTransientUnit u l sl d) e
       /\ (mgrDryRun mgr = true -> e = DryRunLog (StartTransientUnit u l sl d)).
Proof.
  unfold EnsureTransientScope, requested. destruct (mgrDryRun mgr).
  - unfold bind. rewrite emit_run. unfold ret. intros [= <- <-]. simpl. eauto 8.
  - unfold bind. rewrite emit_run. unfold onHost; simpl.
    destruct (sd_ensure_scope u l sl d (host p)) as [r w']. intros [= <- <-].
    simpl. split; [done|]. eexists. split; [done|]. split; [auto|done].
Qed.

Lemma Attach_frame mgr u sub l p res p' :
  AttachProcesses mgr u sub l p = (res, p') ->
  mem p' = mem p
  /\ exists e, trace p' = trace p ++ [e] /\ requested (AttachProcessesToUnit u sub l) e
       /\ (mgrDryRun mgr = true -> e = DryRunLog (AttachProcessesToUnit u sub l)).
Proof.
  unfold AttachProcesses, requested. destruct (mgrDryRun mgr).
  - rewrite emit_run. intros [= <- <-]. simpl. eauto 8.
  - unfold bind. rewrite emit_run. unfold onHostE; simpl.
    destruct (sd_attach u sub l (host p)) as [[e|] w']; intros [= <- <-];
      simpl; (split; [done|]; eexists; split; [done|]; split; [auto|done]).
Qed.

End PrimitiveFacts.

(** ** One round of the game loop *)

Lemma recordPids_lookup uname starts l bindings pid :
  Daemon.recordPids uname starts l bindings !! pid =
  if decide (pid ∈ l) then Some (mkPidRecord uname (default 0%N (starts !! pid)))
  else bindings !! pid.
Proof.
  unfold Daemon.recordPids. revert bindings.
  induction l as [|x l IH]; intros bindings; cbn [foldl].
  - rewrite decide_False by set_solver. done.
  - rewrite IH. destruct (decide (pid ∈ l)) as [Hin|Hin].
    + rewrite decide_True by set_solver. done.
    + destruct (decide (pid = x)) as [->|Hne].
      * rewrite decide_True by set_solver. now rewrite lookup_insert_eq.
      * rewrite decide_False by set_solver. now rewrite lookup_insert_ne.
Qed.

Section GameStep.
Context {W : Type} `{Supervisor W} `{Storage W}.
Variable UN : string -> string.
Implicit Types p : Proc W Daemon.Mem.

(** A successful round, step by step. *)
Lemma gameStep_Ok sys mgr games alive0 gameID procs p alive' p' :
  games !! gameID = Some procs -> procs <> [] ->
  Daemon.gameStep UN sys mgr games alive0 gameID p = (Ok alive', p') ->
  let u := UN gameID in
  let v := Daemon.visitAll (pidToUnit (Daemon.r (mem p))) u alive0 procs in
  exists created p1 p2,
    EnsureTransientScope mgr u (Daemon.pids v) "game.slice" ("ccdbind game " +:+ gameID) p
      = (Ok created, p1)
    /\ Systemctl_SetAllowedCPUs sys u (gameCPUs (Daemon.r (mem p))) p1 = (Ok tt, p2)
    /\ alive' = Daemon.alive v
    /\ if created then
         p' = mkProc (Daemon.setR (Daemon.withPidToUnit
                        (Daemon.recordPids u (Daemon.pidStarts v) (Daemon.pids v))) (mem p2))
                (host p2) (trace p2)
       else
         match Daemon.newPIDs v with
         | [] => p' = p2
         | _ => exists p3,
             AttachProcesses mgr u "" (Daemon.newPIDs v) p2 = (Ok tt, p3)
             /\ p' = mkProc (Daemon.setR (Daemon.withPidToUnit
                              (Daemon.recordPids u (Daemon.pidStarts v) (Daemon.newPIDs v))) (mem p3))
                      (host p3) (trace p3)
         end.
Proof.
  intros Hg Hne. unfold Daemon.gameStep. rewrite Hg. simpl.
  destruct procs as [|gp0 procs0]; [done|].
  set (procs := gp0 :: procs0) in *.
  intros Hrun.
  apply bind_inv in Hrun as [(m & q & Hm & Hrun)|(e & Hm & _)];
    [|rewrite getMem_run in Hm; discriminate].
  rewrite getMem_run in Hm. injection Hm as <- <-.
  apply bind_inv in Hrun as [(created & p1 & Hens & Hrun)|(e & _ & [=])].
  apply wrapErr_inv in Hens as [(c' & Hens & [= <-])|(e & _ & [=])].
  apply bind_inv in Hrun as [([] & p2 & Hset & Hrun)|(e & _ & [=])].
  apply wrapErr_inv in Hset as [(c' & Hset & _)|(e & _ & [=])].
  destruct c'.
  apply bind_inv in Hrun as [([] & p3 & Hrec & Hrun)|(e & _ & [=])].
  unfold ret in Hrun. injection Hrun as <- <-.
  exists created, p1, p2. split; [exact Hens|]. split; [exact Hset|]. split; [done|].
  destruct created.
  - rewrite setMem_run in Hrec. now injection Hrec as <-.
  - destruct (Daemon.newPIDs _) as [|n ns] eqn:Hnew.
    + unfold ret in Hrec. now injection Hrec as <-.
    + apply bind_inv in Hrec as [([] & p4 & Hatt & Hrec)|(e & _ & [=])].
      apply wrapErr_inv in Hatt as [(c' & Hatt & _)|(e & _ & [=])].
      destruct c'. rewrite setMem_run in Hrec. injection Hrec as <-.
      exists p4. split; [exact Hatt|done].
Qed.

(** A pid classified as new is bound to the unit after a successful round,
    and an attach request carries it unless the scope was just created. *)
Lemma gameStep_reattaches sys mgr games alive0 gameID procs gp p :
  games !! gameID = Some procs -> gp ∈ procs ->
  Daemon.classifyNew (pidToUnit (Daemon.r (mem p))) (UN gameID) gp = true ->
  reattached UN sys mgr games alive0 gameID procs (PID gp) p.
Proof.
  intros Hg Hin Hnew alive' p' Hrun.
  assert (Hne : procs <> []) by (intros ->; set_solver).
  destruct (gameStep_Ok _ _ _ _ _ _ _ _ _ Hg Hne Hrun)
    as (created & p1 & p2 & Hens & Hset & _ & Hfin).
  set (u := UN gameID) in *.
  set (v := Daemon.visitAll (pidToUnit (Daemon.r (mem p))) u alive0 procs) in *.
  assert (Hpids : PID gp ∈ Daemon.pids v).
  { subst v. rewrite visitAll_pids. apply list_elem_of_fmap. eauto. }
  assert (HnewIn : PID gp ∈ Daemon.newPIDs v).
  { subst v. rewrite visitAll_newPIDs. apply list_elem_of_fmap.
    exists gp. split; [done|]. apply list_elem_of_filter. done. }
  destruct (Ensure_frame _ _ _ _ _ _ _ _ Hens) as (Hm1 & e1 & Ht1 & _ & _).
  destruct (Set_frame _ _ _ _ _ _ Hset) as (Hm2 & Ht2).
  assert (Hpv : Daemon.pids v = map PID procs) by (subst v; apply visitAll_pids).
  destruct created.
  - subst p'. split.
    + unfold Daemon.setR, Daemon.withPidToUnit. cbn [mem Daemon.r pidToUnit].
      rewrite recordPids_lookup, decide_True by done. eauto.
    + exists true, p1, ([e1] ++ [setEvent sys u (gameCPUs (Daemon.r (mem p)))]).
      rewrite <- Hpv. split; [exact Hens|]. split; [|done].
      rewrite Ht2, Ht1. now rewrite <- app_assoc.
  - destruct (Daemon.newPIDs v) as [|n ns] eqn:En; [set_solver|].
    destruct Hfin as (p3 & Hatt & ->).
    destruct (Attach_frame _ _ _ _ _ _ _ Hatt) as (Hm3 & e3 & Ht3 & Hreq & _).
    split.
    + unfold Daemon.setR, Daemon.withPidToUnit. cbn [mem Daemon.r pidToUnit].
      rewrite recordPids_lookup, decide_True by done. eauto.
    + exists false, p1, ([e1] ++ [setEvent sys u (gameCPUs (Daemon.r (mem p)))] ++ [e3]).
      rewrite <- Hpv. split; [exact Hens|]. split.
      * rewrite Ht3, Ht2, Ht1. now rewrite <- !app_assoc.
      * intros _. apply Exists_app. right. apply Exists_app. right.
        apply Exists_cons_hd. exists (n :: ns). done.
Qed.

End GameStep.

(** ** C5 and C9: which pids are new to the unit of their game *)

(** C5 as stated does not hold: a pid bound to the same unit, whose recorded
    and observed start times are both zero (hence equal), is classified as
    new although none of the three conditions of the claim holds. *)
Lemma classifyNew_three_conditions_counterexample :
  ~ (Daemon.classifyNew Scenario.zeroBinding (Scenario.unitName "730") Scenario.gpZero = true
     <->
     (Scenario.zeroBinding !! PID Scenario.gpZero = None
      \/ exists rec,
           Scenario.zeroBinding !! PID Scenario.gpZero = Some rec
           /\ (recUnit rec <> Scenario.unitName "730"
               \/ startTime rec <> StartTime Scenario.gpZero))).
Proof.
  intros [Hif _].
  destruct (Hif eq_refl) as [Hnone|(rec & Hrec & Hor)].
  - vm_compute in Hnone. discriminate.
  - vm_compute in Hrec. injection Hrec as <-.
    destruct Hor as [Hu|Hs]; [apply Hu|apply Hs]; reflexivity.
Qed.

(** C5 (amended): a pid of a game group is classified as new to the game's
    unit exactly when it is absent from the pid→unit map, or bound to a
    different unit, or its observed start time differs from the recorded
    one, or one of the two start times is zero; the list handed to the
    attach call is the list of the pids so classified; in particular a pid
    recorded with start time T that reappears with T' ≠ T is classified as
    new and re-attached. *)
Theorem pid_classification {W : Type} `{Supervisor W} `{Storage W}
    (UN : string -> string) sys mgr (games : Games) alive0 gameID procs gp
    (p : Proc W Daemon.Mem) :
  games !! gameID = Some procs -> gp ∈ procs ->
  (Daemon.classifyNew (pidToUnit (Daemon.r (mem p))) (UN gameID) gp = true <->
     pidToUnit (Daemon.r (mem p)) !! PID gp = None
     \/ exists rec, pidToUnit (Daemon.r (mem p)) !! PID gp = Some rec
          /\ (recUnit rec <> UN gameID
              \/ startTime rec <> StartTime gp
              \/ startTime rec = 0%N
              \/ StartTime gp = 0%N))
  /\ Daemon.newPIDs (Daemon.visitAll (pidToUnit (Daemon.r (mem p))) (UN gameID) alive0 procs)
     = map PID (filter (fun gp' =>
         Daemon.classifyNew (pidToUnit (Daemon.r (mem p))) (UN gameID) gp' = true) procs)
  /\ (forall rec,
        pidToUnit (Daemon.r (mem p)) !! PID gp = Some rec ->
        startTime rec <> StartTime gp ->
        Daemon.classifyNew (pidToUnit (Daemon.r (mem p))) (UN gameID) gp = true
        /\ reattached UN sys mgr games alive0 gameID procs (PID gp) p).
Proof.
  intros Hg Hin. split; [apply classifyNew_true_iff|].
  split; [apply visitAll_newPIDs|].
  intros rec Hrec Hdiff.
  assert (Hnew : Daemon.classifyNew (pidToUnit (Daemon.r (mem p))) (UN gameID) gp = true).
  { apply classifyNew_true_iff. right. exists rec. auto. }
  split; [exact Hnew|]. now apply gameStep_reattaches.
Qed.

Lemma pid_classification_witness :
  Scenario.gamesLater !! "730" = Some [Scenario.gpLater]
  /\ Scenario.gpLater ∈ [Scenario.gpLater]
  /\ Daemon.classifyNew (pidToUnit (Daemon.r (mem (Scenario.boundAt 5))))
       (Scenario.unitName "730") Scenario.gpLater = true
  /\ reattached Scenario.unitName Scenario.sys Scenario.mgr Scenario.gamesLater ∅
       "730" [Scenario.gpLater] 42 (Scenario.boundAt 5).
Proof.
  assert (Hg : Scenario.gamesLater !! "730" = Some [Scenario.gpLater]) by reflexivity.
  assert (Hin : Scenario.gpLater ∈ [Scenario.gpLater]) by (apply list_elem_of_here).
  split; [exact Hg|]. split; [exact Hin|].
  apply (proj2 (proj2 (pid_classification Scenario.unitName Scenario.sys Scenario.mgr
           Scenario.gamesLater ∅ "730" [Scenario.gpLater] Scenario.gpLater
           (Scenario.boundAt 5) Hg Hin))
         (mkPidRecord (Scenario.unitName "730") 5)).
  - reflexivity.
  - vm_compute. discriminate.
Defined.

(** C9: a pid already bound to the same unit is still classified as new, and
    re-attached, when the recorded or the observed start time is zero, even
    when the two are equal. *)
Theorem zero_start_time_is_new {W : Type} `{Supervisor W} `{Storage W}
    (UN : string -> string) sys mgr (games : Games) alive0 gameID procs gp rec
    (p : Proc W Daemon.Mem) :
  games !! gameID = Some procs -> gp ∈ procs ->
  pidToUnit (Daemon.r (mem p)) !! PID gp = Some rec ->
  recUnit rec = UN gameID ->
  (startTime rec = 0 \/ StartTime gp = 0)%N ->
  Daemon.classifyNew (pidToUnit (Daemon.r (mem p))) (UN gameID) gp = true
  /\ PID gp ∈ Daemon.newPIDs
       (Daemon.visitAll (pidToUnit (Daemon.r (mem p))) (UN gameID) alive0 procs)
  /\ reattached UN sys mgr games alive0 gameID procs (PID gp) p.
Proof.
  intros Hg Hin Hrec Hu Hz.
  assert (Hnew : Daemon.classifyNew (pidToUnit (Daemon.r (mem p))) (UN gameID) gp = true).
  { apply classifyNew_true_iff. right. exists rec. split; [done|].
    destruct Hz; auto. }
  split; [exact Hnew|]. split.
  - rewrite visitAll_newPIDs. apply list_elem_of_fmap. exists gp. split; [done|].
    now apply list_elem_of_filter.
  - now apply gameStep_reattaches.
Qed.

Lemma zero_start_time_is_new_witness :
  Scenario.gamesZero !! "730" = Some [Scenario.gpZero]
  /\ Scenario.gpZero ∈ [Scenario.gpZero]
  /\ pidToUnit (Daemon.r (mem (Scenario.boundAt 0))) !! PID Scenario.gpZero
     = Some (mkPidRecord (Scenario.unitName "730") 0)
  /\ (startTime (mkPidRecord (Scenario.unitName "730") 0) = 0
      \/ StartTime Scenario.gpZero = 0)%N
  /\ Daemon.classifyNew (pidToUnit (Daemon.r (mem (Scenario.boundAt 0))))
       (Scenario.unitName "730") Scenario.gpZero = true
  /\ PID Scenario.gpZero ∈ Daemon.newPIDs
       (Daemon.visitAll (pidToUnit (Daemon.r (mem (Scenario.boundAt 0))))
          (Scenario.unitName "730") ∅ [Scenario.gpZero])
  /\ reattached Scenario.unitName Scenario.sys Scenario.mgr Scenario.gamesZero ∅
       "730" [Scenario.gpZero] (PID Scenario.gpZero) (Scenario.boundAt 0).
Proof.
  assert (Hg : Scenario.gamesZero !! "730" = Some [Scenario.gpZero]) by reflexivity.
  assert (Hin : Scenario.gpZero ∈ [Scenario.gpZero]) by (apply list_elem_of_here).
  assert (Hrec : pidToUnit (Daemon.r (mem (Scenario.boundAt 0))) !! PID Scenario.gpZero
                 = Some (mkPidRecord (Scenario.unitName "730") 0)) by reflexivity.
  assert (Hz : (startTime (mkPidRecord (Scenario.unitName "730") 0) = 0
                \/ StartTime Scenario.gpZero = 0)%N) by (left; reflexivity).
  split; [exact Hg|]. split; [exact Hin|]. split; [exact Hrec|]. split; [exact Hz|].
  exact (zero_start_time_is_new Scenario.unitName Scenario.sys Scenario.mgr
           Scenario.gamesZero ∅ "730" [Scenario.gpZero] Scenario.gpZero
           (mkPidRecord (Scenario.unitName "730") 0) (Scenario.boundAt 0)
           Hg Hin Hrec eq_refl Hz).
Defined.

(** On the simulated host the round of the zero-start-time pid succeeds: the
    scope exists already, so the pid is attached again and recorded. *)
Example zero_start_time_round_runs :
  exists p',
    Daemon.gameStep Scenario.unitName Scenario.sys Scenario.mgr Scenario.gamesZero ∅
      "730" (Scenario.boundAt 0) = (Ok {[ 42 ]}, p')
    /\ trace p' =
       [ Bus (StartTransientUnit (Scenario.unitName "730") [42] "game.slice" "ccdbind game 730");
         Bus (SetAllowedCPUs (Scenario.unitName "730") "8-15");
         Bus (AttachProcessesToUnit (Scenario.unitName "730") "" [42]) ]
    /\ pidToUnit (Daemon.r (mem p')) !! 42 = Some (mkPidRecord (Scenario.unitName "730") 0).
Proof. eexists. vm_compute. split; [reflexivity|]. split; reflexivity. Qed.

(** ** C3: the restore procedure and its failure *)

Section RestoreFacts.
Context {W : Type} `{Supervisor W} `{Storage W} {Mem : Type}.
Implicit Types p : Proc W Mem.

(** A loop of [SetAllowedCPUs] calls leaves the program's memory alone and
    logs the calls it made, in order: all of them when it succeeds, those up
    to the failing one otherwise. *)
Lemma forEach_Set sys (f : string -> string) l p res p' :
  forEach l (fun u => Systemctl_SetAllowedCPUs sys u (f u)) p = (res, p') ->
  mem p' = mem p
  /\ exists n, (n <= length l)%nat
       /\ trace p' = trace p ++ map (fun u => setEvent sys u (f u)) (take n l)
       /\ (res = Ok tt -> n = length l)
       /\ (forall e, res = Err e -> (0 < n)%nat).
Proof.
  revert p. induction l as [|u l IH]; intros p Hrun; cbn [forEach] in Hrun.
  - unfold ret in Hrun. injection Hrun as <- <-. split; [done|].
    exists 0%nat. rewrite app_nil_r. repeat split; auto. intros e [=].
  - apply bind_inv in Hrun as [([] & p1 & Hset & Hrest)|(e & Hset & ->)].
    + destruct (Set_frame _ _ _ _ _ _ Hset) as (Hm1 & Ht1).
      destruct (IH _ Hrest) as (Hm & n & Hn & Ht & Hok & Herr).
      split; [congruence|]. exists (Datatypes.S n). cbn [take map length].
      rewrite Ht, Ht1, <- app_assoc. repeat split; auto with lia.
    + destruct (Set_frame _ _ _ _ _ _ Hset) as (Hm1 & Ht1).
      split; [done|]. exists 1%nat. cbn [take map length]. rewrite take_0.
      repeat split; auto with lia. intros [=].
Qed.

End RestoreFacts.

Section IdleTick.
Context {W : Type} `{Supervisor W} `{Storage W}.
Variable UN : string -> string.
Implicit Types p : Proc W Daemon.Mem.

Lemma saveState_frame p res p' :
  Daemon.saveState p = (res, p') ->
  mem p' = mem p /\ trace p' = trace p ++ [StateSaved (Daemon.st (mem p))].
Proof.
  unfold Daemon.saveState, bind. rewrite getMem_run, emit_run.
  unfold onHostE. cbn [host mem trace].
  destruct (fs_save_state _ _) as [[e|] w']; intros [= <- <-]; auto.
Qed.


End IdleTick.



(** ** Properties kept by every step of a run *)

Section Respects.
Context {S : Type} (R : S -> S -> Prop) `{!PreOrder R}.

Lemma respects_ret {A} (a : A) : respects R (ret a).
Proof. intros s res s' [= <- <-]. reflexivity. Qed.

Lemma respects_fail {A} e : respects R (fail e : M S A).
Proof. intros s res s' [= <- <-]. reflexivity. Qed.

Lemma respects_gets {A} (f : S -> A) : respects R (gets f).
Proof. intros s res s' [= <- <-]. reflexivity. Qed.

Lemma respects_bind {A B} (c : M S A) (k : A -> M S B) :
  respects R c -> (forall a, respects R (k a)) -> respects R (bind c k).
Proof.
  intros Hc Hk s res s' Hrun.
  apply bind_inv in Hrun as [(a & s1 & Hc1 & Hk1)|(e & Hc1 & _)].
  - etrans; [apply (Hc _ _ _ Hc1)|apply (Hk _ _ _ _ Hk1)].
  - apply (Hc _ _ _ Hc1).
Qed.

Lemma respects_try {A} (c : M S A) : respects R c -> respects R (try c).
Proof.
  intros Hc s res s' Hrun. rewrite try_run in Hrun. injection Hrun as _ <-.
  apply (Hc s (c s).1). now destruct (c s).
Qed.

Lemma respects_wrapErr {A} ctx (c : M S A) : respects R c -> respects R (wrapErr ctx c).
Proof.
  intros Hc s res s' Hrun.
  apply wrapErr_inv in Hrun as [(a & Hc1 & _)|(e & Hc1 & _)]; apply (Hc _ _ _ Hc1).
Qed.

Lemma respects_forEach {A} (l : list A) (body : A -> M S unit) :
  (forall x, respects R (body x)) -> respects R (forEach l body).
Proof.
  intros Hb. induction l as [|x l IH]; cbn [forEach].
  - apply respects_ret.
  - apply respects_bind; auto.
Qed.

End Respects.

#[global] Instance addsOnly_preorder {W Mem} (P : event -> Prop) :
  PreOrder (@addsOnly W Mem P).
Proof.
  split.
  - intros p. exists []. now rewrite app_nil_r.
  - intros p1 p2 p3 (e1 & H1 & F1) (e2 & H2 & F2). exists (e1 ++ e2).
    rewrite H2, H1, <- app_assoc. split; [done|]. now apply Forall_app.
Qed.

#[global] Instance sameSt_preorder {W} : PreOrder (@sameSt W).
Proof.
  split.
  - intros p. reflexivity.
  - intros p1 p2 p3 H1 H2. unfold sameSt in *. congruence.
Qed.

(** a step that leaves the program's memory alone keeps [st] *)
Lemma sameSt_of_mem {W} (p p' : Proc W Daemon.Mem) : mem p' = mem p -> sameSt p p'.
Proof. unfold sameSt. now intros ->. Qed.

Section GameLoopKeepsSt.
Context {W : Type} `{Supervisor W} `{Storage W}.
Variable UN : string -> string.

Lemma sameSt_setR (f : runtime -> runtime) :
  respects (@sameSt W) (setMem (Daemon.setR f)).
Proof. intros p res p' [= <- <-]. reflexivity. Qed.

Lemma gameStep_sameSt sys mgr games alive0 gameID :
  respects (@sameSt W) (Daemon.gameStep UN sys mgr games alive0 gameID).
Proof.
  unfold Daemon.gameStep.
  destruct (default [] (games !! gameID)) as [|gp procs].
  { apply respects_ret; apply _. }
  apply respects_bind; [apply _|apply respects_gets; apply _|]. intros m.
  apply respects_bind; [apply _| |].
  { apply respects_wrapErr. intros p res p' Hrun.
    apply sameSt_of_mem. eapply Ensure_frame, Hrun. }
  intros created.
  apply respects_bind; [apply _| |].
  { apply respects_wrapErr. intros p res p' Hrun.
    apply sameSt_of_mem. eapply Set_frame, Hrun. }
  intros _.
  apply respects_bind; [apply _| |intros; apply respects_ret; apply _].
  destruct created; [apply sameSt_setR|].
  destruct (Daemon.newPIDs _); [apply respects_ret; apply _|].
  apply respects_bind; [apply _| |intros; apply sameSt_setR].
  apply respects_wrapErr. intros p res p' Hrun.
  apply sameSt_of_mem. eapply Attach_frame, Hrun.
Qed.

Lemma gameLoop_sameSt sys mgr games gameIDs alive0 :
  respects (@sameSt W) (Daemon.gameLoop UN sys mgr games alive0 gameIDs).
Proof.
  revert alive0. induction gameIDs as [|g rest IH]; intros alive0; cbn [Daemon.gameLoop].
  - apply respects_ret; apply _.
  - apply respects_bind; [apply _|apply gameStep_sameSt|auto].
Qed.

End GameLoopKeepsSt.

(** ** C1: the originals recorded by a reapply *)

Lemma copyMap_id (m : gmap string string) : copyMap m = m.
Proof.
  unfold copyMap.
  apply (map_fold_weak_ind (fun r m => r = m)); [done|].
  intros i x m' r _ ->. done.
Qed.

Lemma backfill_lookup os (cur orig : gmap string string) u :
  Daemon.backfill os cur orig !! u =
  match orig !! u with
  | Some v => Some v
  | None => backfillValue os <$> cur !! u
  end.
Proof.
  unfold Daemon.backfill. revert u.
  apply (map_fold_weak_ind (fun r m => forall u,
    r !! u = match orig !! u with
             | Some v => Some v
             | None => backfillValue os <$> m !! u
             end)).
  - intros u. rewrite lookup_empty. now destruct (orig !! u).
  - intros i x m r Hi IH u.
    assert (Hri : r !! i = orig !! i).
    { rewrite IH, Hi. now destruct (orig !! i). }
    unfold Daemon.backfillStep. rewrite Hri.
    destruct (orig !! i) as [v|] eqn:Hoi.
    + rewrite IH. destruct (decide (u = i)) as [->|Hne].
      * now rewrite Hoi.
      * now rewrite lookup_insert_ne.
    + assert (Hins : (if decide (x <> os) then <[i:=x]> r else <[i:=EmptyString]> r)
                     = <[i := backfillValue os x]> r).
      { unfold backfillValue. now destruct (decide (x <> os)). }
      rewrite Hins. destruct (decide (u = i)) as [->|Hne].
      * rewrite lookup_insert_eq, Hoi, lookup_insert_eq. done.
      * rewrite !lookup_insert_ne by done. apply IH.
Qed.

Section ReapplyFacts.
Context {W : Type} `{Supervisor W} `{Storage W}.
Implicit Types p : Proc W Daemon.Mem.

(** [readAllowedCPUs] reads each managed slice and nothing else. *)
Lemma readAllowedCPUsInto_Ok sys l out p cur p0 :
  Daemon.readAllowedCPUsInto sys l out p = (Ok cur, p0) ->
  mem p0 = mem p
  /\ forall u, is_Some (cur !! u) <-> u ∈ l \/ is_Some (out !! u).
Proof.
  revert out p. induction l as [|x l IH]; intros out p Hrun;
    cbn [Daemon.readAllowedCPUsInto] in Hrun.
  - unfold ret in Hrun. injection Hrun as <- <-. split; [done|].
    intros u. set_solver.
  - apply bind_inv in Hrun as [(val & p1 & Hget & Hrest)|(e & _ & [=])].
    destruct (Get_frame _ _ _ _ _ Hget) as (Hm1 & _).
    destruct (IH _ _ Hrest) as (Hm & Hdom). split; [congruence|].
    intros u. rewrite Hdom. destruct (decide (u = x)) as [->|Hne].
    + rewrite lookup_insert_eq. split; [left; apply list_elem_of_here|eauto].
    + rewrite lookup_insert_ne by done. set_solver.
Qed.

Lemma readAllowedCPUs_Ok sys l p cur p0 :
  Daemon.readAllowedCPUs sys l p = (Ok cur, p0) ->
  mem p0 = mem p /\ forall u, is_Some (cur !! u) <-> u ∈ l.
Proof.
  intros Hrun. destruct (readAllowedCPUsInto_Ok _ _ _ _ _ _ Hrun) as (Hm & Hdom).
  split; [done|]. intros u. rewrite Hdom, lookup_empty.
  split; [intros [|[? [=]]]; done|auto].
Qed.

(** What the reapply block leaves in [st.OriginalAllowedCPUs]: the computed
    [orig] when it completes, and otherwise either [orig] (written through
    the shared map) or the map as it was. *)
Lemma reapply_outcome sys slices cur p0 r0 p1 :
  Daemon.reapply sys slices cur p0 = (r0, p1) ->
  let orig := Daemon.computeOrig (Daemon.st (mem p0)) (Daemon.r (mem p0)) cur in
  (r0 = Ok tt -> OriginalAllowedCPUs (Daemon.st (mem p1)) = Some orig)
  /\ (OriginalAllowedCPUs (Daemon.st (mem p1)) = Some orig
      \/ OriginalAllowedCPUs (Daemon.st (mem p1)) = OriginalAllowedCPUs (Daemon.st (mem p0))).
Proof.
  unfold Daemon.reapply. intros Hrun.
  apply bind_inv in Hrun as [(m & q & Hm & Hrun)|(e & Hm & _)];
    [|rewrite getMem_run in Hm; discriminate].
  rewrite getMem_run in Hm. injection Hm as <- <-.
  set (orig := Daemon.computeOrig _ _ cur) in *. cbn zeta.
  apply bind_inv in Hrun as [([] & q1 & Halias & Hrun)|(e & Halias & _)]; cycle 1.
  { destruct (_ && _); [rewrite setMem_run in Halias|unfold ret in Halias]; discriminate. }
  assert (Hq1 : OriginalAllowedCPUs (Daemon.st (mem q1)) = Some orig
                \/ OriginalAllowedCPUs (Daemon.st (mem q1))
                   = OriginalAllowedCPUs (Daemon.st (mem p0))).
  { destruct (_ && _).
    - rewrite setMem_run in Halias. injection Halias as <-. now left.
    - unfold ret in Halias. injection Halias as <-. now right. }
  apply bind_inv in Hrun as [([] & q2 & Hsets & Hrun)|(e & Hsets & ->)]; cycle 1.
  { destruct (forEach_Set _ _ _ _ _ _ Hsets) as (Hmq & _).
    split; [intros [=]|]. now rewrite Hmq. }
  apply bind_inv in Hrun as [(now & q3 & Hnow & Hrun)|(e & Hnow & _)];
    [|rewrite timeNow_run in Hnow; discriminate].
  rewrite timeNow_run in Hnow. injection Hnow as <- <-.
  apply bind_inv in Hrun as [([] & q4 & Hmark & Hrun)|(e & Hmark & _)];
    [|rewrite setMem_run in Hmark; discriminate].
  rewrite setMem_run in Hmark. injection Hmark as <-.
  destruct (saveState_frame _ _ _ Hrun) as (Hm4 & _).
  rewrite Hm4. cbn [mem Daemon.setSt Daemon.st Daemon.markPinned OriginalAllowedCPUs].
  auto.
Qed.

(** the ticks with games: read, reapply if needed, then the game loop *)
Lemma handleTick_busy (UN : string -> string) sys mgr slices (games : Games)
    p cur p0 res p' :
  size games <> 0%nat ->
  Daemon.readAllowedCPUs sys slices p = (Ok cur, p0) ->
  Daemon.reapplyNeeded (Daemon.st (mem p)) (Daemon.r (mem p)) cur slices = true ->
  Daemon.handleTick UN sys mgr slices games p = (res, p') ->
  exists r0 p1,
    Daemon.reapply sys slices cur p0 = (r0, p1)
    /\ (forall e, r0 = Err e -> res = Err e /\ p' = p1)
    /\ Daemon.st (mem p') = Daemon.st (mem p1).
Proof.
  intros Hsz Hread Hneed Hrun.
  destruct (readAllowedCPUs_Ok _ _ _ _ _ Hread) as (Hm0 & _).
  unfold Daemon.handleTick in Hrun. rewrite decide_False in Hrun by done.
  rewrite (bind_Ok _ _ _ _ _ Hread) in Hrun.
  unfold bind at 1 in Hrun. rewrite getMem_run, Hm0, Hneed in Hrun.
  apply bind_inv in Hrun as [([] & p1 & Hre & Hrun)|(e & Hre & ->)].
  - exists (Ok tt), p1. split; [done|]. split; [intros e [=]|].
    apply bind_inv in Hrun as [(seen & p2 & Hloop & Hrun)|(e & Hloop & _)].
    + rewrite setMem_run in Hrun. injection Hrun as _ <-.
      cbn [mem Daemon.setR Daemon.st]. apply (gameLoop_sameSt UN _ _ _ _ _ _ _ _ Hloop).
    + apply (gameLoop_sameSt UN _ _ _ _ _ _ _ _ Hloop).
  - exists (Err e), p'. split; [done|]. split; [|done]. intros e' [= <-]. done.
Qed.

End ReapplyFacts.

(** C1: in a tick with games whose reapply test is positive, [orig] is
    written to [st.OriginalAllowedCPUs] as follows.  With [pin_applied]
    already true, no entry already present is ever changed; an entry is added
    only for a managed slice that had none, and its value is the slice's
    current [AllowedCPUs] when that differs from [os_cpus] and the empty
    string otherwise; when the reapply block completes, every managed slice
    without an entry has received one.  With [pin_applied] false, a
    completed reapply block records exactly the current value of every
    managed slice. *)
Theorem originals_backfill {W : Type} `{Supervisor W} `{Storage W}
    (UN : string -> string) sys mgr slices (games : Games)
    (p : Proc W Daemon.Mem) cur p0 res p' :
  size games <> 0%nat ->
  Daemon.readAllowedCPUs sys slices p = (Ok cur, p0) ->
  Daemon.reapplyNeeded (Daemon.st (mem p)) (Daemon.r (mem p)) cur slices = true ->
  Daemon.handleTick UN sys mgr slices games p = (res, p') ->
  exists r0 p1,
    Daemon.reapply sys slices cur p0 = (r0, p1)
    /\ (forall e, r0 = Err e -> res = Err e)
    /\ (PinApplied (Daemon.st (mem p)) = true ->
          (forall u v,
             default ∅ (OriginalAllowedCPUs (Daemon.st (mem p))) !! u = Some v ->
             default ∅ (OriginalAllowedCPUs (Daemon.st (mem p'))) !! u = Some v)
          /\ (forall u v,
                default ∅ (OriginalAllowedCPUs (Daemon.st (mem p))) !! u = None ->
                default ∅ (OriginalAllowedCPUs (Daemon.st (mem p'))) !! u = Some v ->
                u ∈ slices
                /\ exists c, cur !! u = Some c
                     /\ v = backfillValue (osCPUs (Daemon.r (mem p))) c)
          /\ (r0 = Ok tt ->
              forall u c,
                default ∅ (OriginalAllowedCPUs (Daemon.st (mem p))) !! u = None ->
                cur !! u = Some c ->
                default ∅ (OriginalAllowedCPUs (Daemon.st (mem p'))) !! u
                = Some (backfillValue (osCPUs (Daemon.r (mem p))) c)))
    /\ (PinApplied (Daemon.st (mem p)) = false ->
        r0 = Ok tt ->
        OriginalAllowedCPUs (Daemon.st (mem p')) = Some cur
        /\ forall u, u ∈ slices <-> is_Some (cur !! u)).
Proof.
  intros Hsz Hread Hneed Hrun.
  destruct (readAllowedCPUs_Ok _ _ _ _ _ Hread) as (Hm0 & Hdom).
  destruct (handleTick_busy UN _ _ _ _ _ _ _ _ _ Hsz Hread Hneed Hrun)
    as (r0 & p1 & Hre & Herr & Hst).
  exists r0, p1. split; [exact Hre|]. split; [intros e He; apply (Herr e He)|].
  destruct (reapply_outcome _ _ _ _ _ _ Hre) as (Hok & Hany).
  rewrite Hm0 in Hok, Hany. rewrite Hst.
  unfold Daemon.computeOrig in Hok, Hany.
  split.
  - intros Hpin. rewrite Hpin in Hok, Hany.
    set (old := default ∅ (OriginalAllowedCPUs (Daemon.st (mem p)))) in *.
    set (os := osCPUs (Daemon.r (mem p))) in *.
    split; [|split].
    + intros u v Hold. destruct Hany as [-> | ->]; [|exact Hold].
      cbn [from_option id]. now rewrite backfill_lookup, Hold.
    + intros u v Hold Hnew. destruct Hany as [Heq|Heq]; rewrite Heq in Hnew.
      * cbn [from_option id] in Hnew. rewrite backfill_lookup, Hold in Hnew.
        destruct (cur !! u) as [c|] eqn:Hc; [|discriminate].
        injection Hnew as <-. split; [apply Hdom; rewrite Hc; eauto|eauto].
      * fold old in Hnew. congruence.
    + intros Hr0 u c Hold Hc. rewrite (Hok Hr0). cbn [from_option id].
      now rewrite backfill_lookup, Hold, Hc.
  - intros Hpin Hr0. rewrite Hpin in Hok. rewrite (Hok Hr0).
    unfold Daemon.snapshot. rewrite copyMap_id. split; [done|].
    intros u. now rewrite Hdom.
Qed.

Lemma originals_backfill_witness :
  size Scenario.gamesLater <> 0%nat
  /\ Daemon.readAllowedCPUs Scenario.sys Scenario.slices Scenario.tampered
     = (Ok {[ "app.slice" := "0-15"; "background.slice" := "0-7" ]},
        mkProc Scenario.partialMem Scenario.tamperedWorld
          [ Bus (GetAllowedCPUs "app.slice"); Bus (GetAllowedCPUs "background.slice") ])
  /\ Daemon.reapplyNeeded (Daemon.st (mem Scenario.tampered))
       (Daemon.r (mem Scenario.tampered))
       {[ "app.slice" := "0-15"; "background.slice" := "0-7" ]} Scenario.slices = true
  /\ (forall u v,
        default ∅ (OriginalAllowedCPUs (Daemon.st (mem Scenario.tampered))) !! u = Some v ->
        default ∅ (OriginalAllowedCPUs (Daemon.st (mem
          (Daemon.handleTick Scenario.unitName Scenario.sys Scenario.mgr Scenario.slices
             Scenario.gamesLater Scenario.tampered).2))) !! u = Some v)
  /\ OriginalAllowedCPUs (Daemon.st (mem
       (Daemon.handleTick Scenario.unitName Scenario.sys Scenario.mgr Scenario.slices
          Scenario.gamesLater Scenario.tampered).2))
     = Some {[ "app.slice" := "2-5"; "background.slice" := "" ]}.
Proof.
  assert (Hsz : size Scenario.gamesLater <> 0%nat) by (vm_compute; discriminate).
  assert (Hread :
    Daemon.readAllowedCPUs Scenario.sys Scenario.slices Scenario.tampered
    = (Ok {[ "app.slice" := "0-15"; "background.slice" := "0-7" ]},
       mkProc Scenario.partialMem Scenario.tamperedWorld
         [ Bus (GetAllowedCPUs "app.slice"); Bus (GetAllowedCPUs "background.slice") ]))
    by (vm_compute; reflexivity).
  assert (Hneed :
    Daemon.reapplyNeeded (Daemon.st (mem Scenario.tampered))
      (Daemon.r (mem Scenario.tampered))
      {[ "app.slice" := "0-15"; "background.slice" := "0-7" ]} Scenario.slices = true)
    by (vm_compute; reflexivity).
  split; [exact Hsz|]. split; [exact Hread|]. split; [exact Hneed|].
  split; [|vm_compute; reflexivity].
  destruct (originals_backfill Scenario.unitName Scenario.sys Scenario.mgr Scenario.slices
              Scenario.gamesLater Scenario.tampered _ _ _ _ Hsz Hread Hneed
              (surjective_pairing _))
    as (r0 & p1 & _ & _ & Hpin & _).
  exact (proj1 (Hpin eq_refl)).
Defined.

(** ** C4: what a dry run does *)

Section DryRun.
Context {W : Type} `{Supervisor W} `{Storage W}.
Variable UN : string -> string.

(** no request that changes supervisor state reaches the supervisor *)
Local Abbreviation quiet := (respects (@addsOnly W Daemon.Mem (fun ev => busMutation ev = false))).

Lemma quiet_emit e : busMutation e = false -> quiet (emit e).
Proof.
  intros He p res p' Hrun. rewrite emit_run in Hrun. injection Hrun as _ <-.
  exists [e]. split; [done|]. now constructor.
Qed.

Lemma quiet_same_trace {A} (c : M (Proc W Daemon.Mem) A) :
  (forall p res p', c p = (res, p') -> trace p' = trace p) -> quiet c.
Proof.
  intros Hc p res p' Hrun. exists []. rewrite app_nil_r. split; [eauto|constructor].
Qed.

Lemma quiet_setMem f : quiet (setMem f).
Proof. apply quiet_same_trace. now intros p res p' [= _ <-]. Qed.

Lemma quiet_onHost {A} (f : W -> result A * W) : quiet (onHost f).
Proof.
  apply quiet_same_trace. intros p res p'. unfold onHost.
  destruct (f (host p)). now intros [= _ <-].
Qed.

Lemma quiet_onHostE (f : W -> option error * W) : quiet (onHostE f).
Proof.
  apply quiet_same_trace. intros p res p'. unfold onHostE.
  destruct (f (host p)) as [[e|] w]; now intros [= _ <-].
Qed.

Create HintDb quiet discriminated.

Ltac quiet_steps :=
  repeat first
    [ solve [auto with quiet nocore]
    | apply quiet_setMem
    | apply quiet_onHost
    | apply quiet_onHostE
    | apply quiet_emit; reflexivity
    | apply respects_ret; apply _
    | apply respects_fail; apply _
    | apply respects_gets; apply _
    | apply respects_try
    | apply respects_wrapErr
    | apply respects_bind; [apply _| |intro]
    | apply respects_forEach; [apply _|intro]
    | congruence
    | match goal with
      | |- respects _ (if ?b then _ else _) => destruct b
      | |- respects _ (match ?x with _ => _ end) => destruct x
      end ].

Lemma quiet_Get sys u : quiet (Systemctl_GetAllowedCPUs sys u).
Proof. unfold Systemctl_GetAllowedCPUs. quiet_steps. Qed.

Lemma quiet_Set sys u v : DryRun sys = true -> quiet (Systemctl_SetAllowedCPUs sys u v).
Proof. intros Hd. unfold Systemctl_SetAllowedCPUs. rewrite Hd. quiet_steps. Qed.

Lemma quiet_StartUnit sys u : DryRun sys = true -> quiet (Systemctl_StartUnit sys u).
Proof. intros Hd. unfold Systemctl_StartUnit. rewrite Hd. quiet_steps. Qed.

Lemma quiet_Ensure mgr u l sl d :
  mgrDryRun mgr = true -> quiet (EnsureTransientScope mgr u l sl d).
Proof. intros Hd. unfold EnsureTransientScope. rewrite Hd. quiet_steps. Qed.

Lemma quiet_Attach mgr u sub l :
  mgrDryRun mgr = true -> quiet (AttachProcesses mgr u sub l).
Proof. intros Hd. unfold AttachProcesses. rewrite Hd. quiet_steps. Qed.

Lemma quiet_saveState : quiet Daemon.saveState.
Proof. unfold Daemon.saveState, getMem. quiet_steps. Qed.

#[local] Hint Resolve quiet_Get quiet_Set quiet_StartUnit quiet_Ensure quiet_Attach
  quiet_saveState : quiet.

Lemma quiet_restoreSlices sys slices originals :
  DryRun sys = true -> quiet (Daemon.restoreSlices sys slices originals).
Proof. intros Hd. unfold Daemon.restoreSlices. quiet_steps. Qed.

Lemma quiet_readAllowedCPUsInto sys slices out :
  quiet (Daemon.readAllowedCPUsInto sys slices out).
Proof.
  revert out. induction slices as [|u l IH]; intros out;
    cbn [Daemon.readAllowedCPUsInto]; quiet_steps.
Qed.

Lemma quiet_reapply sys slices cur :
  DryRun sys = true -> quiet (Daemon.reapply sys slices cur).
Proof. intros Hd. unfold Daemon.reapply, getMem, timeNow. quiet_steps. Qed.

Lemma quiet_gameStep sys mgr games alive0 gameID :
  DryRun sys = true -> mgrDryRun mgr = true ->
  quiet (Daemon.gameStep UN sys mgr games alive0 gameID).
Proof. intros Hd Hm. unfold Daemon.gameStep, getMem. quiet_steps. Qed.

#[local] Hint Resolve quiet_restoreSlices quiet_readAllowedCPUsInto quiet_reapply
  quiet_gameStep : quiet.

Lemma quiet_gameLoop sys mgr games gameIDs alive0 :
  DryRun sys = true -> mgrDryRun mgr = true ->
  quiet (Daemon.gameLoop UN sys mgr games alive0 gameIDs).
Proof.
  intros Hd Hm. revert alive0.
  induction gameIDs as [|g rest IH]; intros alive0; cbn [Daemon.gameLoop]; quiet_steps.
Qed.

#[local] Hint Resolve quiet_gameLoop : quiet.

Lemma quiet_handleTick sys mgr slices games :
  DryRun sys = true -> mgrDryRun mgr = true ->
  quiet (Daemon.handleTick UN sys mgr slices games).
Proof.
  intros Hd Hm. unfold Daemon.handleTick, Daemon.readAllowedCPUs, getMem, timeNow.
  quiet_steps.
Qed.

Lemma quiet_restoreIfNeeded sys slices scan :
  DryRun sys = true -> quiet (Daemon.restoreIfNeeded sys slices scan).
Proof.
  intros Hd. unfold Daemon.restoreIfNeeded, getMem, timeNow. quiet_steps.
Qed.

#[local] Hint Resolve quiet_handleTick quiet_restoreIfNeeded : quiet.

Lemma quiet_tickLoop sys mgr slices ticks :
  DryRun sys = true -> mgrDryRun mgr = true ->
  quiet (Daemon.tickLoop UN sys mgr slices ticks).
Proof.
  intros Hd Hm. induction ticks as [|[games|e] rest IH]; cbn [Daemon.tickLoop].
  - unfold getMem, timeNow. quiet_steps.
  - quiet_steps.
  - apply IH.
Qed.

#[local] Hint Resolve quiet_tickLoop : quiet.

Lemma quiet_runDaemon flags cfgLoad canonicalize detect startupScan ticks :
  Daemon.flagDryRun flags = true ->
  quiet (Daemon.runDaemon UN flags cfgLoad canonicalize detect startupScan ticks).
Proof.
  intros Hd. unfold Daemon.runDaemon. rewrite Hd.
  destruct (Daemon.flagDumpState flags); [quiet_steps|].
  destruct cfgLoad as [cfg|e]; [|quiet_steps].
  quiet_steps. apply quiet_tickLoop; reflexivity.
Qed.

End DryRun.

Section DryRunSaves.
Context {W : Type} `{Supervisor W} `{Storage W}.
Implicit Types p : Proc W Daemon.Mem.

(** in dry-run a loop of [SetAllowedCPUs] calls cannot fail *)
Lemma forEach_Set_dry sys (f : string -> string) l p :
  DryRun sys = true ->
  forEach l (fun u => Systemctl_SetAllowedCPUs sys u (f u)) p =
  (Ok tt, mkProc (mem p) (host p)
            (trace p ++ map (fun u => DryRunLog (SetAllowedCPUs u (f u))) l)).
Proof.
  intros Hd. revert p. induction l as [|u l IH]; intros p; cbn [forEach map].
  - unfold ret. rewrite app_nil_r. now destruct p.
  - erewrite bind_Ok by (now apply Set_dry_run). rewrite IH. cbn [mem host trace].
    now rewrite <- app_assoc.
Qed.

(** so the reapply block always reaches its [state.Save] *)
Lemma reapply_dry_saves sys slices cur p0 r0 p1 :
  DryRun sys = true ->
  Daemon.reapply sys slices cur p0 = (r0, p1) ->
  exists evs s, trace p1 = trace p0 ++ evs ++ [StateSaved s] /\ PinApplied s = true.
Proof.
  intros Hd. unfold Daemon.reapply. unfold bind at 1. rewrite getMem_run.
  set (orig := Daemon.computeOrig _ _ cur). intros Hrun.
  apply bind_inv in Hrun as [([] & q1 & Halias & Hrun)|(e & Halias & _)]; cycle 1.
  { destruct (_ && _); [rewrite setMem_run in Halias|unfold ret in Halias]; discriminate. }
  assert (Ht1 : trace q1 = trace p0).
  { destruct (_ && _); [rewrite setMem_run in Halias|unfold ret in Halias];
      now injection Halias as <-. }
  rewrite (bind_Ok _ _ _ _ _ (forEach_Set_dry sys _ slices q1 Hd)) in Hrun.
  unfold bind at 1 in Hrun. rewrite timeNow_run in Hrun.
  unfold bind at 1 in Hrun. rewrite setMem_run in Hrun.
  destruct (saveState_frame _ _ _ Hrun) as (_ & Ht).
  cbn [mem trace Daemon.setSt Daemon.st] in Ht.
  eexists _, _. rewrite Ht, Ht1, <- app_assoc. split; [reflexivity|reflexivity].
Qed.

End DryRunSaves.

(** C4 as stated does not hold: a dry run that sees a game at its only tick
    writes the state file (twice: when it records the pin it only logged,
    and when it restores on exit). *)
Lemma dry_run_writes_state_file_counterexample :
  ~ addsOnly pureEvent Scenario.cleanStart Scenario.dryRunOnce.2.
Proof.
  intros (evs & Ht & Hall).
  change (trace Scenario.cleanStart) with (@nil event) in Ht.
  rewrite app_nil_l in Ht. subst evs.
  assert (Hex : existsb isStateSaved (trace Scenario.dryRunOnce.2) = true)
    by (vm_compute; reflexivity).
  apply existsb_exists in Hex as (ev & Hin & Hev).
  rewrite Forall_forall in Hall. apply list_elem_of_In in Hin.
  destruct (Hall ev Hin) as (_ & Hno). congruence.
Qed.

(** On the simulated host the file really appears on disk, with
    [pin_applied] recorded by the tick although no slice was changed. *)
Example dry_run_state_on_disk :
  Sim.stateFile (host Scenario.cleanStart) = None
  /\ is_Some (Sim.stateFile (host Scenario.dryRunOnce.2))
  /\ Sim.units (host Scenario.dryRunOnce.2) = Sim.units (host Scenario.cleanStart).
Proof.
  split; [reflexivity|]. split; [|vm_compute; reflexivity].
  vm_compute. eauto.
Qed.

(** C4 (amended): in a daemon run started with the dry-run flag, whatever
    the ticks observe, no request that changes supervisor state is sent to
    the supervisor.  The state file is not protected by the flag: a dry-run
    tick that finds games while [pin_applied] is false reaches [state.Save]
    and writes a state with [pin_applied] true. *)
Theorem dry_run_no_supervisor_mutation {W : Type} `{Supervisor W} `{Storage W}
    (UN : string -> string) flags cfgLoad canonicalize detect startupScan ticks
    (p : Proc W Daemon.Mem) res p' :
  Daemon.flagDryRun flags = true ->
  Daemon.runDaemon UN flags cfgLoad canonicalize detect startupScan ticks p = (res, p') ->
  (exists evs, trace p' = trace p ++ evs /\ Forall (fun ev => busMutation ev = false) evs)
  /\ (forall slices (games : Games) (q : Proc W Daemon.Mem) cur q0 r1 q',
        size games <> 0%nat ->
        PinApplied (Daemon.st (mem q)) = false ->
        Daemon.readAllowedCPUs (mkSystemctl true) slices q = (Ok cur, q0) ->
        Daemon.handleTick UN (mkSystemctl true) (mkUserManager true) slices games q
          = (r1, q') ->
        exists evs s evs',
          trace q' = trace q ++ evs ++ [StateSaved s] ++ evs' /\ PinApplied s = true).
Proof.
  intros Hd Hrun. split.
  { apply (quiet_runDaemon UN _ _ _ _ _ _ Hd _ _ _ Hrun). }
  intros slices games q cur q0 r1 q' Hsz Hpin Hread Htick.
  assert (Hneed : Daemon.reapplyNeeded (Daemon.st (mem q)) (Daemon.r (mem q)) cur slices = true).
  { unfold Daemon.reapplyNeeded. now rewrite Hpin. }
  destruct (quiet_readAllowedCPUsInto _ _ _ _ _ _ Hread) as (ev0 & Ht0 & _).
  unfold Daemon.handleTick in Htick. rewrite decide_False in Htick by done.
  rewrite (bind_Ok _ _ _ _ _ Hread) in Htick.
  destruct (readAllowedCPUs_Ok _ _ _ _ _ Hread) as (Hm0 & _).
  unfold bind at 1 in Htick. rewrite getMem_run, Hm0, Hneed in Htick.
  apply bind_inv in Htick as [([] & q1 & Hre & Htick)|(e & Hre & _)].
  - destruct (reapply_dry_saves (mkSystemctl true) _ _ _ _ _ eq_refl Hre) as (evs & s & Ht1 & Hs).
    assert (Hrest : addsOnly (fun ev => busMutation ev = false) q1 q').
    { apply bind_inv in Htick as [(seen & q2 & Hloop & Htick)|(e & Hloop & _)].
      - rewrite setMem_run in Htick. injection Htick as _ <-.
        apply (quiet_gameLoop UN (mkSystemctl true) (mkUserManager true) _ _ _ eq_refl eq_refl _ _ _ Hloop).
      - apply (quiet_gameLoop UN (mkSystemctl true) (mkUserManager true) _ _ _ eq_refl eq_refl _ _ _ Hloop). }
    destruct Hrest as (evs' & Ht2 & _).
    exists (ev0 ++ evs), s, evs'. split; [|done].
    rewrite Ht2, Ht1, Ht0. now rewrite <- !app_assoc.
  - destruct (reapply_dry_saves (mkSystemctl true) _ _ _ _ _ eq_refl Hre) as (evs & s & Ht1 & Hs).
    exists (ev0 ++ evs), s, []. split; [|done].
    rewrite Ht1, Ht0. now rewrite <- !app_assoc.
Qed.

Lemma dry_run_no_supervisor_mutation_witness :
  Daemon.flagDryRun (Daemon.mkFlags false true false) = true
  /\ exists evs,
       trace Scenario.dryRunOnce.2 = trace Scenario.cleanStart ++ evs
       /\ Forall (fun ev => busMutation ev = false) evs.
Proof.
  split; [reflexivity|].
  exact (proj1 (dry_run_no_supervisor_mutation Scenario.unitName
           (Daemon.mkFlags false true false) (Ok Scenario.defaultConfig)
           Topology.CanonicalizeCPUList Scenario.detected (Ok ∅)
           [Ok Scenario.gamesLater] Scenario.cleanStart _ _ eq_refl
           (surjective_pairing _))).
Defined.

(** ** C6: an invalid CPU-list override *)

(** The codec modelled from the spec on its examples. *)
Example canonicalize_spec_example :
  Topology.CanonicalizeCPUList "10-11,0-3,2,8"
  = Ok ("0-3,8,10-11", [0; 1; 2; 3; 8; 10; 11]%nat).
Proof. vm_compute. reflexivity. Qed.



Example lone_invalid_override_starts :
  Daemon.resolveCPUs Topology.CanonicalizeCPUList Scenario.detected Scenario.invertedAlone
  = Ok ("0-7", "8-15")
  /\ (Daemon.runDaemon Scenario.unitName (Daemon.mkFlags false false false)
        (Ok Scenario.invertedAlone) Topology.CanonicalizeCPUList Scenario.detected
        (Ok ∅) [Ok Scenario.gamesLater] Scenario.cleanStart).1 = Ok tt
  /\ Sim.units (host (Daemon.runDaemon Scenario.unitName (Daemon.mkFlags false false false)
        (Ok Scenario.invertedAlone) Topology.CanonicalizeCPUList Scenario.detected
        (Ok ∅) [Ok Scenario.gamesLater; Err (HostError "scan")] Scenario.cleanStart).2)
       !! Scenario.unitName "730" = Some "8-15".
Proof. vm_compute. split; [reflexivity|]. split; reflexivity. Qed.



(** ** C7: the allowed-CPU mask of a process *)

(** the two tests of the repository *)
Example TestAllowedCPUsFromStatus :
  Procscan.allowedCPUsFromStatus Scenario.statusFoo = ("0-3,8-11", true).
Proof. vm_compute. reflexivity. Qed.

Example TestAllowedCPUsFromStatusMissing :
  (Procscan.allowedCPUsFromStatus Scenario.statusMissing).2 = false.
Proof. vm_compute. reflexivity. Qed.

(** ** Facts on byte strings and on [strings.TrimSpace] *)

Lemma rev_app_rev_app s1 s2 s3 :
  String.rev_app (String.rev_app s1 s2) s3 = String.rev_app s2 (s1 +:+ s3).
Proof.
  revert s2. induction s1 as [|c s1 IH]; intros s2; simpl; [done|].
  now rewrite IH.
Qed.

Lemma string_app_nil_r s : s +:+ "" = s.
Proof. induction s; simpl; [done|]. unfold String.app in *. simpl. congruence. Qed.

Lemma string_rev_involutive s : String.rev (String.rev s) = s.
Proof. unfold String.rev. rewrite rev_app_rev_app. simpl. apply string_app_nil_r. Qed.

Lemma string_app_assoc (x y z : string) : (x +:+ y) +:+ z = x +:+ (y +:+ z).
Proof.
  induction x as [|c x IH]; [done|].
  change (String c ((x +:+ y) +:+ z) = String c (x +:+ (y +:+ z))). now rewrite IH.
Qed.

Lemma string_cons_app c (x y : string) : String c x +:+ y = String c (x +:+ y).
Proof. reflexivity. Qed.

Lemma string_app_nil_l (x : string) : "" +:+ x = x.
Proof. reflexivity. Qed.

Lemma rev_app_spec s acc : String.rev_app s acc = String.rev s +:+ acc.
Proof.
  unfold String.rev. revert acc. induction s as [|c s IH]; intros acc; [done|].
  cbn [String.rev_app]. rewrite (IH (String c acc)), (IH (String c EmptyString)).
  now rewrite string_app_assoc.
Qed.

Lemma string_rev_cons c s : String.rev (String c s) = String.rev s +:+ String c EmptyString.
Proof. unfold String.rev at 1. cbn [String.rev_app]. apply rev_app_spec. Qed.

Lemma string_rev_app (x y : string) : String.rev (x +:+ y) = String.rev y +:+ String.rev x.
Proof.
  induction x as [|c x IH]; [cbn; now rewrite string_app_nil_r|].
  rewrite string_cons_app, !string_rev_cons, IH. apply string_app_assoc.
Qed.

(** induction on a string with the hypothesis for the tails one, two and
    three bytes on *)
Lemma string3_ind (P : string -> Prop) :
  P EmptyString ->
  (forall c r,
     P r ->
     (forall d r', r = String d r' -> P r') ->
     (forall d e r'', r = String d (String e r'') -> P r'') ->
     P (String c r)) ->
  forall s, P s.
Proof.
  intros H0 Hstep s.
  assert (H : P s /\ (forall d r', s = String d r' -> P r')
              /\ (forall d e r'', s = String d (String e r'') -> P r'')).
  { induction s as [|c r (IH1 & IH2 & IH3)].
    - split; [exact H0|]. split; intros; discriminate.
    - split; [apply Hstep; assumption|]. split.
      + intros d r' [= <- <-]. exact IH1.
      + intros d e r'' [= <- ->]. exact (IH2 _ _ eq_refl). }
  apply H.
Qed.

(** ** White space at the ends of a string *)

Section Width.
Variable width : ascii -> string -> nat.
Hypothesis width_cases : forall c r,
  width c r = 0%nat \/ width c r = 1%nat
  \/ (width c r = 2%nat /\ exists d r', r = String d r')
  \/ (width c r = 3%nat /\ exists d e r'', r = String d (String e r'')).
Hypothesis width_app : forall c r y,
  width c r <> 0%nat -> width c (r +:+ y) = width c r.

Local Notation startsOK s :=
  (match s with
   | String c r => width c r = 0%nat
   | EmptyString => True
   end).

Lemma trimWith_0 c r : width c r = 0%nat -> GoStrings.trimWith width (String c r) = String c r.
Proof. intros Hw. cbn [GoStrings.trimWith]. now rewrite Hw. Qed.

Lemma trimWith_1 c r :
  width c r = 1%nat -> GoStrings.trimWith width (String c r) = GoStrings.trimWith width r.
Proof. intros Hw. cbn [GoStrings.trimWith]. now rewrite Hw. Qed.

Lemma trimWith_2 c d r :
  width c (String d r) = 2%nat ->
  GoStrings.trimWith width (String c (String d r)) = GoStrings.trimWith width r.
Proof. intros Hw. cbn [GoStrings.trimWith]. now rewrite Hw. Qed.

Lemma trimWith_3 c d e r :
  width c (String d (String e r)) = 3%nat ->
  GoStrings.trimWith width (String c (String d (String e r))) = GoStrings.trimWith width r.
Proof. intros Hw. cbn [GoStrings.trimWith]. now rewrite Hw. Qed.

Lemma trimWith_startsOK s : startsOK (GoStrings.trimWith width s).
Proof.
  induction s as [|c r IH1 IH2 IH3] using string3_ind; [exact I|].
  destruct (width_cases c r) as [Hw|[Hw|[(Hw & d & r' & ->)|(Hw & d & e & r'' & ->)]]].
  - rewrite trimWith_0 by exact Hw. exact Hw.
  - rewrite trimWith_1 by exact Hw. exact IH1.
  - rewrite trimWith_2 by exact Hw. exact (IH2 _ _ eq_refl).
  - rewrite trimWith_3 by exact Hw. exact (IH3 _ _ _ eq_refl).
Qed.

Lemma trimWith_id s : startsOK s -> GoStrings.trimWith width s = s.
Proof. destruct s as [|c r]; [done|]. apply trimWith_0. Qed.

(** what is trimmed is a prefix: the result is a suffix of the string *)
Lemma trimWith_suffix s : exists p, s = p +:+ GoStrings.trimWith width s.
Proof.
  induction s as [|c r IH1 IH2 IH3] using string3_ind; [now exists EmptyString|].
  destruct (width_cases c r) as [Hw|[Hw|[(Hw & d & r' & ->)|(Hw & d & e & r'' & ->)]]].
  - rewrite trimWith_0 by exact Hw. now exists EmptyString.
  - rewrite trimWith_1 by exact Hw. destruct IH1 as (p & Hp).
    exists (String c p). now rewrite string_cons_app, <- Hp.
  - rewrite trimWith_2 by exact Hw. destruct (IH2 _ _ eq_refl) as (p & Hp).
    exists (String c (String d p)). now rewrite !string_cons_app, <- Hp.
  - rewrite trimWith_3 by exact Hw. destruct (IH3 _ _ _ eq_refl) as (p & Hp).
    exists (String c (String d (String e p))). now rewrite !string_cons_app, <- Hp.
Qed.

Lemma startsOK_prefix (x y : string) : startsOK (x +:+ y) -> startsOK x.
Proof.
  destruct x as [|c r]; [done|]. rewrite string_cons_app. intros Hw.
  destruct (decide (width c r = 0%nat)) as [H0|Hn]; [exact H0|].
  rewrite (width_app c r y Hn) in Hw. done.
Qed.

End Width.

Lemma spaceWidth_cases c r :
  GoStrings.spaceWidth c r = 0%nat \/ GoStrings.spaceWidth c r = 1%nat
  \/ (GoStrings.spaceWidth c r = 2%nat /\ exists d r', r = String d r')
  \/ (GoStrings.spaceWidth c r = 3%nat /\ exists d e r'', r = String d (String e r'')).
Proof.
  unfold GoStrings.spaceWidth. destruct (GoStrings.asciiSpace c); [auto|].
  destruct r as [|d r']; [auto|]. destruct (GoStrings.space2 c d); [eauto 10|].
  destruct r' as [|e r'']; [auto|]. destruct (GoStrings.space3 c d e); eauto 10.
Qed.

Lemma spaceWidth_app c r y :
  GoStrings.spaceWidth c r <> 0%nat ->
  GoStrings.spaceWidth c (r +:+ y) = GoStrings.spaceWidth c r.
Proof.
  unfold GoStrings.spaceWidth. destruct (GoStrings.asciiSpace c); [done|].
  destruct r as [|d r']; [done|]. rewrite string_cons_app.
  destruct (GoStrings.space2 c d); [done|].
  destruct r' as [|e r'']; [done|]. rewrite string_cons_app. done.
Qed.

Lemma spaceWidthEnd_cases c r :
  GoStrings.spaceWidthEnd c r = 0%nat \/ GoStrings.spaceWidthEnd c r = 1%nat
  \/ (GoStrings.spaceWidthEnd c r = 2%nat /\ exists d r', r = String d r')
  \/ (GoStrings.spaceWidthEnd c r = 3%nat /\ exists d e r'', r = String d (String e r'')).
Proof.
  unfold GoStrings.spaceWidthEnd. destruct (GoStrings.asciiSpace c); [auto|].
  destruct r as [|d r']; [auto|]. destruct (GoStrings.space2 d c); [eauto 10|].
  destruct r' as [|e r'']; [auto|]. destruct (GoStrings.space3 e d c); eauto 10.
Qed.

Lemma spaceWidthEnd_app c r y :
  GoStrings.spaceWidthEnd c r <> 0%nat ->
  GoStrings.spaceWidthEnd c (r +:+ y) = GoStrings.spaceWidthEnd c r.
Proof.
  unfold GoStrings.spaceWidthEnd. destruct (GoStrings.asciiSpace c); [done|].
  destruct r as [|d r']; [done|]. rewrite string_cons_app.
  destruct (GoStrings.space2 d c); [done|].
  destruct r' as [|e r'']; [done|]. rewrite string_cons_app. done.
Qed.

Lemma trimLeft_headOK s : headOK (GoStrings.trimLeft s).
Proof. exact (trimWith_startsOK _ spaceWidth_cases s). Qed.

Lemma trimLeft_id s : headOK s -> GoStrings.trimLeft s = s.
Proof. exact (trimWith_id _ s). Qed.

Lemma trimLeft_suffix s : exists p, s = p +:+ GoStrings.trimLeft s.
Proof. exact (trimWith_suffix _ spaceWidth_cases s). Qed.

Lemma trimEnd_endOK s : endOK (GoStrings.trimEnd s).
Proof. exact (trimWith_startsOK _ spaceWidthEnd_cases s). Qed.

Lemma trimEnd_id s : endOK s -> GoStrings.trimEnd s = s.
Proof. exact (trimWith_id _ s). Qed.

Lemma trimEnd_suffix s : exists p, s = p +:+ GoStrings.trimEnd s.
Proof. exact (trimWith_suffix _ spaceWidthEnd_cases s). Qed.

Lemma headOK_prefix (x y : string) : headOK (x +:+ y) -> headOK x.
Proof. exact (startsOK_prefix _ spaceWidth_app x y). Qed.

Lemma endOK_prefix (x y : string) : endOK (x +:+ y) -> endOK x.
Proof. exact (startsOK_prefix _ spaceWidthEnd_app x y). Qed.

(** [TrimSpace] drops a prefix and a suffix *)
Lemma TrimSpace_inside s : exists p q, s = p +:+ GoStrings.TrimSpace s +:+ q.
Proof.
  unfold GoStrings.TrimSpace.
  destruct (trimLeft_suffix s) as (p & Hp).
  destruct (trimEnd_suffix (String.rev (GoStrings.trimLeft s))) as (q & Hq).
  exists p, (String.rev q). rewrite <- string_rev_app, <- Hq, string_rev_involutive.
  exact Hp.
Qed.

Lemma TrimSpace_headOK s : headOK (GoStrings.TrimSpace s).
Proof.
  unfold GoStrings.TrimSpace.
  destruct (trimEnd_suffix (String.rev (GoStrings.trimLeft s))) as (q & Hq).
  apply (headOK_prefix _ (String.rev q)).
  rewrite <- string_rev_app, <- Hq, string_rev_involutive. apply trimLeft_headOK.
Qed.

Lemma TrimSpace_lastOK s : lastOK (GoStrings.TrimSpace s).
Proof.
  unfold lastOK, GoStrings.TrimSpace. rewrite string_rev_involutive. apply trimEnd_endOK.
Qed.

Lemma TrimSpace_id s : headOK s -> lastOK s -> GoStrings.TrimSpace s = s.
Proof.
  intros Hh Hl. unfold GoStrings.TrimSpace. rewrite (trimLeft_id s Hh).
  rewrite (trimEnd_id _ Hl). apply string_rev_involutive.
Qed.

Lemma TrimSpace_idem s :
  GoStrings.TrimSpace (GoStrings.TrimSpace s) = GoStrings.TrimSpace s.
Proof. apply TrimSpace_id; [apply TrimSpace_headOK|apply TrimSpace_lastOK]. Qed.

(** white space is what [unicode.IsSpace] accepts, not only the ASCII
    bytes; a byte that is part of no white-space rune is kept *)
Example TrimSpace_unicode :
  GoStrings.TrimSpace (Scenario.nbsp +:+ " 0-7" +:+ Scenario.tab +:+ Scenario.emsp) = "0-7"
  /\ GoStrings.TrimSpace (String "160"%char "x") = String "160"%char "x"
  /\ GoStrings.Fields ("a" +:+ Scenario.nbsp +:+ "b " +:+ Scenario.emsp +:+ "c") = ["a"; "b"; "c"].
Proof. vm_compute. repeat split. Qed.

Lemma allowedCPUsFromLines_found pre line post f0 v rest :
  Forall (fun l => GoStrings.HasPrefix l "Cpus_allowed_list:" = false) pre ->
  GoStrings.HasPrefix line "Cpus_allowed_list:" = true ->
  GoStrings.Fields line = f0 :: v :: rest ->
  Procscan.allowedCPUsFromLines (pre ++ line :: post) = (GoStrings.TrimSpace v, true).
Proof.
  intros Hpre Hline Hfields. induction Hpre as [|l pre Hl _ IH]; cbn [app Procscan.allowedCPUsFromLines].
  - now rewrite Hline, Hfields.
  - now rewrite Hl.
Qed.

Lemma allowedCPUsFromLines_absent lines :
  Forall (fun l => GoStrings.HasPrefix l "Cpus_allowed_list:" = false) lines ->
  Procscan.allowedCPUsFromLines lines = (EmptyString, false).
Proof.
  induction 1 as [|l lines Hl _ IH]; cbn [Procscan.allowedCPUsFromLines]; [done|].
  now rewrite Hl.
Qed.

(** C7 as stated does not hold for every status file: the lines are read
    with a [bufio.Scanner], which stops at the first line of 65536 bytes or
    more, and [allowedCPUsFromStatus] does not look at the scanner's error.
    A status file whose [Groups:] line is that long has a
    [Cpus_allowed_list] line that is never reached, and the read reports
    that the line was not found. *)
Lemma overlong_line_hides_mask_counterexample :
  ~ (existsb (fun line => GoStrings.HasPrefix line "Cpus_allowed_list:")
       (GoStrings.Split Scenario.statusLong "010"%char) = true ->
     exists v,
       Procscan.allowedCPUsAt Topology.CanonicalizeCPUList (Ok Scenario.statusLong) = Ok v).
Proof.
  intros Hclaim. destruct Hclaim as (v & Hv); [vm_compute; reflexivity|].
  vm_compute in Hv. discriminate Hv.
Qed.

Example overlong_line_ends_scan :
  N.of_nat (String.length Scenario.longLine) = 65536%N
  /\ GoStrings.Lines Scenario.statusLong = []
  /\ GoStrings.ScanTooLong Scenario.statusLong = true
  /\ Procscan.allowedCPUsAt Topology.CanonicalizeCPUList (Ok Scenario.statusLong)
     = Err (ErrorMsg "Cpus_allowed_list not found").
Proof. vm_compute. repeat split. Qed.

Example line_of_65535_bytes_is_read :
  Procscan.allowedCPUsAt Topology.CanonicalizeCPUList (Ok Scenario.statusNearlyLong)
  = Ok "0-3".
Proof. vm_compute. reflexivity. Qed.

(** C7 (amended): when the lines the scanner yields for the status file of
    a pid include a [Cpus_allowed_list] line (the first such line, carrying
    the value [v] as its second field), the read returns the canonical form
    of the value when the codec accepts it and the trimmed raw value when the
    codec rejects it; when none of the lines the scanner yields is a
    [Cpus_allowed_list] line, or the file cannot be read, the read returns
    an error, never an empty value. *)
Theorem allowedCPUsAt_best_effort
    (canonicalize : string -> result (string * list nat)) data :
  (forall pre line post f0 v rest,
     GoStrings.Lines data = pre ++ line :: post ->
     Forall (fun l => GoStrings.HasPrefix l "Cpus_allowed_list:" = false) pre ->
     GoStrings.HasPrefix line "Cpus_allowed_list:" = true ->
     GoStrings.Fields line = f0 :: v :: rest ->
     Procscan.allowedCPUsAt canonicalize (Ok data) =
     match canonicalize (GoStrings.TrimSpace v) with
     | Ok (canonical, _) => Ok canonical
     | Err _ => Ok (GoStrings.TrimSpace v)
     end)
  /\ (Forall (fun l => GoStrings.HasPrefix l "Cpus_allowed_list:" = false)
        (GoStrings.Lines data) ->
      Procscan.allowedCPUsAt canonicalize (Ok data)
      = Err (ErrorMsg "Cpus_allowed_list not found"))
  /\ (forall e, Procscan.allowedCPUsAt canonicalize (Err e) = Err e).
Proof.
  split; [|split].
  - intros pre line post f0 v rest Hlines Hpre Hline Hfields.
    unfold Procscan.allowedCPUsAt, Procscan.allowedCPUsFromStatus.
    rewrite Hlines, (allowedCPUsFromLines_found _ _ _ _ _ _ Hpre Hline Hfields).
    cbn [negb]. rewrite TrimSpace_idem. destruct (canonicalize _) as [[c l]|e]; reflexivity.
  - intros Habs. unfold Procscan.allowedCPUsAt, Procscan.allowedCPUsFromStatus.
    now rewrite (allowedCPUsFromLines_absent _ Habs).
  - reflexivity.
Qed.

Example allowedCPUsAt_canonical :
  Procscan.allowedCPUsAt Topology.CanonicalizeCPUList (Ok Scenario.statusFoo)
  = Ok "0-3,8-11".
Proof. vm_compute. reflexivity. Qed.

Example allowedCPUsAt_raw_kept :
  Procscan.allowedCPUsAt Topology.CanonicalizeCPUList (Ok Scenario.statusOdd)
  = Ok "0-3,x".
Proof. vm_compute. reflexivity. Qed.

Example allowedCPUsAt_missing_line :
  Procscan.allowedCPUsAt Topology.CanonicalizeCPUList (Ok Scenario.statusMissing)
  = Err (ErrorMsg "Cpus_allowed_list not found").
Proof. vm_compute. reflexivity. Qed.

Lemma allowedCPUsAt_best_effort_witness :
  GoStrings.Lines Scenario.statusOdd
  = ["Uid:" +:+ Scenario.tab +:+ "1000"]
    ++ ("Cpus_allowed_list:" +:+ Scenario.tab +:+ "0-3,x") :: []
  /\ Forall (fun l => GoStrings.HasPrefix l "Cpus_allowed_list:" = false)
       ["Uid:" +:+ Scenario.tab +:+ "1000"]
  /\ GoStrings.HasPrefix ("Cpus_allowed_list:" +:+ Scenario.tab +:+ "0-3,x")
       "Cpus_allowed_list:" = true
  /\ GoStrings.Fields ("Cpus_allowed_list:" +:+ Scenario.tab +:+ "0-3,x")
     = "Cpus_allowed_list:" :: "0-3,x" :: []
  /\ Procscan.allowedCPUsAt Topology.CanonicalizeCPUList (Ok Scenario.statusOdd)
     = match Topology.CanonicalizeCPUList (GoStrings.TrimSpace "0-3,x") with
       | Ok (canonical, _) => Ok canonical
       | Err _ => Ok (GoStrings.TrimSpace "0-3,x")
       end
  /\ Forall (fun l => GoStrings.HasPrefix l "Cpus_allowed_list:" = false)
       (GoStrings.Lines Scenario.statusMissing)
  /\ Procscan.allowedCPUsAt Topology.CanonicalizeCPUList (Ok Scenario.statusMissing)
     = Err (ErrorMsg "Cpus_allowed_list not found").
Proof.
  assert (Hlines : GoStrings.Lines Scenario.statusOdd
    = ["Uid:" +:+ Scenario.tab +:+ "1000"]
      ++ ("Cpus_allowed_list:" +:+ Scenario.tab +:+ "0-3,x") :: [])
    by (vm_compute; reflexivity).
  assert (Hpre : Forall (fun l => GoStrings.HasPrefix l "Cpus_allowed_list:" = false)
                   ["Uid:" +:+ Scenario.tab +:+ "1000"])
    by (repeat constructor).
  assert (Hline : GoStrings.HasPrefix ("Cpus_allowed_list:" +:+ Scenario.tab +:+ "0-3,x")
                    "Cpus_allowed_list:" = true) by (vm_compute; reflexivity).
  assert (Hfields : GoStrings.Fields ("Cpus_allowed_list:" +:+ Scenario.tab +:+ "0-3,x")
                    = "Cpus_allowed_list:" :: "0-3,x" :: []) by (vm_compute; reflexivity).
  assert (Habs : Forall (fun l => GoStrings.HasPrefix l "Cpus_allowed_list:" = false)
                   (GoStrings.Lines Scenario.statusMissing))
    by (vm_compute; repeat constructor).
  split; [exact Hlines|]. split; [exact Hpre|]. split; [exact Hline|].
  split; [exact Hfields|]. split.
  - exact (proj1 (allowedCPUsAt_best_effort Topology.CanonicalizeCPUList Scenario.statusOdd)
             _ _ _ _ _ _ Hlines Hpre Hline Hfields).
  - split; [exact Habs|].
    exact (proj1 (proj2 (allowedCPUsAt_best_effort Topology.CanonicalizeCPUList
                           Scenario.statusMissing)) Habs).
Defined.

(** ** C8: the summary of all constrained processes *)

Lemma take_snoc_below {A} (n : nat) (l : list A) (x : A) :
  (if (length (take n l) <? n)%nat then take n l ++ [x] else take n l)
  = take n (l ++ [x]).
Proof.
  rewrite length_take. destruct (Nat.ltb_spec (n `min` length l) n) as [Hlt|Hge].
  - assert (Hl : (length l < n)%nat) by lia.
    rewrite (take_ge l n) by lia.
    rewrite (take_ge (l ++ [x]) n); [reflexivity|]. rewrite length_app. simpl. lia.
  - rewrite take_app_le by lia. reflexivity.
Qed.

Lemma bump_expected exe class ms p :
  ms <> [] ->
  Status.bump (Procscan.PID p) (expectedSummary exe class ms)
  = expectedSummary exe class (ms ++ [p]).
Proof.
  intros Hne. unfold Status.bump, expectedSummary.
  cbn [Status.Exe Status.Class Status.AllowedCPUs Status.Count Status.SamplePIDs].
  f_equal.
  - destruct ms; [done|reflexivity].
  - rewrite length_app. simpl. lia.
  - rewrite map_app. simpl. apply take_snoc_below.
Qed.

Lemma groupAll_lookup os game all exe class :
  Status.groupAll os game all !! (exe, class) =
  match groupMembers os game exe class all with
  | [] => None
  | ms => Some (expectedSummary exe class ms)
  end.
Proof.
  unfold Status.groupAll, groupMembers.
  induction all as [|p all IH] using rev_ind.
  - reflexivity.
  - rewrite foldl_app, filter_app. cbn [foldl].
    unfold Status.addProcess at 1.
    destruct (Status.classOf os game p) as [cl|] eqn:Hcl.
    + destruct (decide ((Procscan.Exe p, cl) = (exe, class))) as [Heq|Hne].
      * injection Heq as <- <-. rewrite lookup_insert_eq, IH.
        rewrite filter_cons, decide_True by done. rewrite filter_nil.
        destruct (filter _ all) as [|m ms] eqn:Hms.
        -- reflexivity.
        -- rewrite bump_expected by done. reflexivity.
      * rewrite lookup_insert_ne by done. rewrite IH.
        rewrite filter_cons, decide_False, filter_nil, app_nil_r; [done|].
        intros [<- Hc]. rewrite Hcl in Hc. injection Hc as <-. done.
    + rewrite IH, filter_cons, decide_False, filter_nil, app_nil_r; [done|].
      intros [_ Hc]. congruence.
Qed.

(** every summary carries the key it is stored under *)
Lemma groupAll_key os game all k s :
  Status.groupAll os game all !! k = Some s -> summaryKey s = k.
Proof.
  destruct k as [exe class]. rewrite groupAll_lookup.
  destruct (groupMembers _ _ _ _ _); [done|]. now intros [= <-].
Qed.

(** *** The order given to [sort.Slice] *)

Lemma str_ltb_strict a b : String.ltb a b = true <-> strict String.le a b.
Proof.
  unfold strict, String.le, String.ltb, String.leb.
  rewrite (String.compare_antisym a b).
  destruct (String.compare b a); simpl; intuition (try discriminate; auto).
Qed.

Lemma str_lt_irrefl a : String.ltb a a = false.
Proof.
  destruct (String.ltb a a) eqn:E; [|done].
  apply str_ltb_strict in E as [_ Hn]. exfalso. apply Hn. reflexivity.
Qed.

Lemma str_lt_trans a b c :
  String.ltb a b = true -> String.ltb b c = true -> String.ltb a c = true.
Proof.
  rewrite !str_ltb_strict. intros Hab Hbc. etrans; eauto.
Qed.

Lemma str_lt_asym a b : String.ltb a b = true -> String.ltb b a = true -> False.
Proof.
  intros Hab Hba. pose proof (str_lt_trans _ _ _ Hab Hba) as Haa.
  rewrite str_lt_irrefl in Haa. discriminate.
Qed.

Lemma str_trichotomy a b :
  String.ltb a b = true \/ a = b \/ String.ltb b a = true.
Proof.
  destruct (decide (a = b)) as [->|Hne]; [auto|].
  destruct (total String.le a b) as [Hle|Hle].
  - left. apply str_ltb_strict. split; [done|]. intros Hba. apply Hne.
    now apply (anti_symm String.le).
  - right; right. apply str_ltb_strict. split; [done|]. intros Hab. apply Hne.
    now apply (anti_symm String.le).
Qed.

Lemma less_before a b : Status.less a b = true <-> summaryBefore a b.
Proof.
  unfold Status.less, summaryBefore.
  destruct (decide (Status.Class a <> Status.Class b)) as [Hc|Hc].
  { split; [auto|]. intros [Hlt|[Heq _]]; [done|]. done. }
  apply dec_stable in Hc. rewrite Hc, str_lt_irrefl.
  destruct (decide (Status.Count a <> Status.Count b)) as [Hn|Hn].
  { rewrite Z.ltb_lt. split; [auto|]. intros [[=]|[_ [Hlt|[Heq _]]]]; [done|]. done. }
  apply dec_stable in Hn. rewrite Hn.
  split; [auto|]. intros [[=]|[_ [Hlt|[_ Hlt]]]]; [lia|done].
Qed.

Lemma before_trans a b c : summaryBefore a b -> summaryBefore b c -> summaryBefore a c.
Proof.
  unfold summaryBefore.
  intros [Hab|[Hab [Hn|[Hn He]]]] [Hbc|[Hbc [Hm|[Hm Hf]]]];
    try (left; first [ exact (str_lt_trans _ _ _ Hab Hbc) | congruence ]);
    right; (split; [congruence|]);
    first [ left; lia | right; split; [lia|exact (str_lt_trans _ _ _ He Hf)] ].
Qed.

Lemma before_asym a b : summaryBefore a b -> summaryBefore b a -> False.
Proof.
  unfold summaryBefore.
  intros [Hab|[Hab [Hn|[Hn He]]]] [Hba|[Hba [Hm|[Hm Hf]]]];
    try (rewrite ?Hab, ?Hba in *;
         first [ exact (str_lt_asym _ _ Hab Hba)
               | rewrite str_lt_irrefl in *; discriminate
               | lia
               | exact (str_lt_asym _ _ He Hf) ]).
Qed.

Lemma before_trichotomy a b :
  summaryBefore a b
  \/ (Status.Class a = Status.Class b /\ Status.Count a = Status.Count b
      /\ Status.Exe a = Status.Exe b)
  \/ summaryBefore b a.
Proof.
  unfold summaryBefore.
  destruct (str_trichotomy (Status.Class a) (Status.Class b)) as [Hc|[Hc|Hc]]; [auto| |auto].
  destruct (Z.lt_total (Status.Count a) (Status.Count b)) as [Hn|[Hn|Hn]].
  - right; right; right. auto.
  - destruct (str_trichotomy (Status.Exe a) (Status.Exe b)) as [He|[He|He]].
    + left; right. auto.
    + auto.
    + right; right; right. split; [done|]. right. auto.
  - left; right. auto.
Qed.

Lemma notAfter_iff a b :
  Status.notAfter a b <->
  summaryBefore a b
  \/ (Status.Class a = Status.Class b /\ Status.Count a = Status.Count b
      /\ Status.Exe a = Status.Exe b).
Proof.
  unfold Status.notAfter. rewrite <- not_true_iff_false, less_before. split.
  - intros Hn. destruct (before_trichotomy a b) as [?|[?|?]]; auto. done.
  - intros [Hab|(Hc & Hn & He)] Hba.
    + exact (before_asym _ _ Hab Hba).
    + unfold summaryBefore in Hba. rewrite Hc, Hn, He, !str_lt_irrefl in Hba.
      destruct Hba as [[=]|[_ [?|[_ [=]]]]]. lia.
Qed.

#[global] Instance notAfter_total : Total Status.notAfter.
Proof.
  intros a b. rewrite !notAfter_iff.
  destruct (before_trichotomy a b) as [?|[?|?]]; auto.
Qed.

#[global] Instance notAfter_trans : Transitive Status.notAfter.
Proof.
  intros a b c. rewrite !notAfter_iff.
  intros [Hab|(Hc1 & Hn1 & He1)] [Hbc|(Hc2 & Hn2 & He2)].
  - left. exact (before_trans _ _ _ Hab Hbc).
  - left. unfold summaryBefore in *. rewrite <- Hc2, <- Hn2, <- He2. exact Hab.
  - left. unfold summaryBefore in *. rewrite Hc1, Hn1, He1. exact Hbc.
  - right. repeat split; congruence.
Qed.


(** *** The scan behind the summary *)

Lemma ownedFromLines_true_iff uid tooLong lines :
  Procscan.ownedFromLines uid tooLong lines = Ok true <->
  exists pre line post f0 f1 rest,
    lines = pre ++ line :: post
    /\ Forall (fun l => GoStrings.HasPrefix l "Uid:" = false) pre
    /\ GoStrings.HasPrefix line "Uid:" = true
    /\ GoStrings.Fields line = f0 :: f1 :: rest
    /\ GoStrings.Atoi f1 = Some uid.
Proof.
  induction lines as [|l lines IH]; cbn [Procscan.ownedFromLines].
  - split; [now destruct tooLong|]. intros (pre & ? & ? & ? & ? & ? & Heq & _).
    now destruct pre.
  - destruct (GoStrings.HasPrefix l "Uid:") eqn:Hl; cbn [negb].
    + split.
      * destruct (GoStrings.Fields l) as [|f0 [|f1 rest]] eqn:Hf; [done..|].
        destruct (GoStrings.Atoi f1) as [parsed|] eqn:Hp; [|done].
        intros [= Huid%bool_decide_eq_true]. subst parsed.
        exists [], l, lines, f0, f1, rest. repeat split; auto.
      * intros (pre & line & post & f0 & f1 & rest & Heq & Hpre & Hline & Hf & Hp).
        destruct pre as [|l' pre]; cbn [app] in Heq; injection Heq as Hhd Htl.
        -- subst line. rewrite Hf, Hp. f_equal. now apply bool_decide_eq_true.
        -- subst l'. apply Forall_cons in Hpre as [Hl' _]. congruence.
    + rewrite IH. split.
      * intros (pre & line & post & f0 & f1 & rest & Heq & Hpre & Hrest).
        exists (l :: pre), line, post, f0, f1, rest. split; [now rewrite Heq|].
        split; [now constructor|exact Hrest].
      * intros (pre & line & post & f0 & f1 & rest & Heq & Hpre & Hline & Hrest).
        destruct pre as [|l' pre]; cbn [app] in Heq; injection Heq as Hhd Htl;
          [congruence|].
        apply Forall_cons in Hpre as [_ Hpre]. eauto 10.
Qed.

(** [isOwnedByUIDAt] answers yes exactly for the processes of the user *)
Lemma isOwnedByUIDAt_true_iff status uid :
  Procscan.isOwnedByUIDAt status uid = Ok true <-> ownedBy uid status.
Proof.
  unfold Procscan.isOwnedByUIDAt, ownedBy. destruct status as [data|e].
  - rewrite ownedFromLines_true_iff. split.
    + intros (pre & line & post & f0 & f1 & rest & H). exists data. eauto 10.
    + intros (data' & pre & line & post & f0 & f1 & rest & [= <-] & H). eauto 10.
  - split; [done|]. intros (data & ? & ? & ? & ? & ? & ? & [=] & _).
Qed.





(** The process of another user is left out although its mask is the OS
    mask, and the files of an entry are those of the directory its pid
    names: three entries whose names read as 12 give three records of the
    process 12. *)
Example scan_of_other_users_and_odd_names :
  ~ ownedBy 1000 (Procscan.statusFile Scenario.procTable "14")
  /\ Procscan.allowedCPUsAt Topology.CanonicalizeCPUList
       (Procscan.statusFile Scenario.procTable "14") = Ok "0-7"
  /\ Procscan.scanUserCPUConstraintsAt Topology.CanonicalizeCPUList Scenario.oddTable 1000
     = Ok [ Procscan.mkCPUConstraint 12 0 "bash" "0-7";
            Procscan.mkCPUConstraint 12 0 "bash" "0-7";
            Procscan.mkCPUConstraint 12 0 "bash" "0-7" ].
Proof.
  split; [|split; vm_compute; reflexivity].
  rewrite <- isOwnedByUIDAt_true_iff. vm_compute. discriminate.
Qed.

(** The model of [sort.Slice] is not a choice: whatever order the map
    iteration hands the groups in, and whatever algorithm sorts them, a
    permutation of the groups that is sorted by [less] is the list
    [sortSlice] returns. *)
Lemma NoDup_fmap_inj_on {A B} (f : A -> B) (l : list A) x y :
  NoDup (map f l) -> x ∈ l -> y ∈ l -> f x = f y -> x = y.
Proof.
  induction l as [|a l IH]; cbn [map]; intros Hnd Hx Hy Hf; [set_solver|].
  apply NoDup_cons in Hnd as [Ha Hnd].
  apply elem_of_cons in Hx as [->|Hx]; apply elem_of_cons in Hy as [->|Hy]; auto.
  - exfalso. apply Ha. rewrite Hf. apply list_elem_of_fmap. eauto.
  - exfalso. apply Ha. rewrite <- Hf. apply list_elem_of_fmap. eauto.
Qed.

Lemma sortSlice_unique os game all l :
  l ≡ₚ map snd (map_to_list (Status.groupAll os game all)) ->
  StronglySorted Status.notAfter l ->
  l = Status.sortSlice (map snd (map_to_list (Status.groupAll os game all))).
Proof.
  intros Hperm Hsorted.
  set (vals := map snd (map_to_list (Status.groupAll os game all))) in *.
  assert (Hnd : NoDup (map summaryKey vals)).
  { assert (Heq : map summaryKey vals = map fst (map_to_list (Status.groupAll os game all))).
    { unfold vals. rewrite map_map. apply map_ext_in. intros [k s] Hin. cbn.
      apply list_elem_of_In, elem_of_map_to_list in Hin.
      exact (groupAll_key _ _ _ _ _ Hin). }
    rewrite Heq. apply NoDup_fst_map_to_list. }
  apply (StronglySorted_unique_strong Status.notAfter).
  - intros x1 x2 Hx1 Hx2 H12 H21.
    rewrite Hperm in Hx1. unfold Status.sortSlice in Hx2.
    rewrite merge_sort_Permutation in Hx2.
    apply (NoDup_fmap_inj_on summaryKey vals); [done..|].
    apply notAfter_iff in H12 as [Hb|(Hc & _ & He)].
    + apply notAfter_iff in H21 as [Hb'|(Hc & _ & He)].
      * exfalso. exact (before_asym _ _ Hb Hb').
      * unfold summaryKey. congruence.
    + unfold summaryKey. congruence.
  - exact Hsorted.
  - apply StronglySorted_merge_sort; apply _.
  - unfold Status.sortSlice. now rewrite merge_sort_Permutation.
Qed.

(** ** The wrapper's coordinator *)

Section CoordinatorSteps.
Context {W : Type} `{Supervisor W} `{Storage W}.
Implicit Types p : Proc W pinState.

Lemma unlock_run p :
  Ccdpin.unlock p = (Ok tt, mkProc (mem p) (fs_unlock (host p)) (trace p ++ [LockReleased])).
Proof. reflexivity. Qed.

Lemma saveLocked_frame p res p' :
  Ccdpin.saveLocked p = (res, p') ->
  mem p' = mem p
  /\ trace p' = trace p ++ [PinStateSaved (Ccdpin.fixVersion (mem p))].
Proof.
  unfold Ccdpin.saveLocked, bind. rewrite getMem_run, emit_run. unfold onHostE.
  cbn [host mem trace].
  destruct (fs_write_pin _ _) as [[e|] w']; intros [= <- <-]; auto.
Qed.

Lemma prune_run p :
  Ccdpin.prune p
  = (Ok tt, mkProc (Ccdpin.pruneDeadInstances (host p) (mem p)) (host p) (trace p)).
Proof. reflexivity. Qed.

Lemma acquireLocked_run m p1 :
  Ccdpin.acquireLocked m p1 =
  let q1 := mkProc (atAcquire m p1) (host p1) (trace p1) in
  if decide (mapLen (Instances (atAcquire m p1)) = 1%nat) then
    match Ccdpin.pinSlicesLocked m q1 with
    | (Err e, p2) => (Err e, afterFailedPin m p2)
    | (Ok _, p2) => finishAcquire p2
    end
  else finishAcquire q1.
Proof.
  unfold Ccdpin.acquireLocked, atAcquire. cbn zeta.
  unfold bind at 1. rewrite prune_run.
  unfold bind at 1. rewrite setMem_run. cbn [mem host trace].
  unfold bind at 1. rewrite getMem_run. cbn [mem].
  destruct (decide (mapLen _ = 1%nat)) as [Hone|Hmany].
  - unfold bind at 1. unfold bind at 1. rewrite try_run.
    destruct (Ccdpin.pinSlicesLocked m _) as [[[]|e] p2]; cbn [fst snd].
    + reflexivity.
    + unfold bind at 1. rewrite setMem_run.
      unfold bind at 1. rewrite try_run.
      unfold bind at 1. rewrite unlock_run. reflexivity.
  - reflexivity.
Qed.

End CoordinatorSteps.

#[global] Instance keepsInstances_preorder {W} : PreOrder (@keepsInstances W).
Proof.
  split.
  - intros p. reflexivity.
  - intros p1 p2 p3 H1 H2. unfold keepsInstances in *. congruence.
Qed.

Section PinKeepsInstances.
Context {W : Type} `{Supervisor W} `{Storage W}.
Implicit Types p : Proc W pinState.

Local Abbreviation steady := (respects (@keepsInstances W)).

Lemma steady_same_mem {A} (c : M (Proc W pinState) A) :
  (forall p res p', c p = (res, p') -> mem p' = mem p) -> steady c.
Proof. intros Hc p res p' Hrun. unfold keepsInstances. now rewrite (Hc _ _ _ Hrun). Qed.

Lemma steady_Get sys u : steady (Systemctl_GetAllowedCPUs sys u).
Proof. apply steady_same_mem. intros p res p' Hrun. eapply Get_frame, Hrun. Qed.

Lemma steady_Set sys u v : steady (Systemctl_SetAllowedCPUs sys u v).
Proof. apply steady_same_mem. intros p res p' Hrun. eapply Set_frame, Hrun. Qed.

Lemma steady_probeSlices m l pinned cur : steady (Ccdpin.probeSlices m l pinned cur).
Proof.
  revert pinned cur. induction l as [|u l IH]; intros pinned cur; cbn [Ccdpin.probeSlices].
  - apply respects_ret; apply _.
  - apply respects_bind; [apply _|apply respects_try, steady_Get|].
    intros [val|e]; apply IH.
Qed.

Lemma steady_rollback m l : steady (Ccdpin.rollback m l).
Proof.
  induction l as [|u l IH]; cbn [Ccdpin.rollback].
  - apply respects_ret; apply _.
  - apply respects_bind; [apply _|apply respects_gets; apply _|]. intros s.
    destruct (_ !! u); [|exact IH].
    apply respects_bind; [apply _|apply respects_try, steady_Set|]. intros _. exact IH.
Qed.

Lemma steady_pinEach m pinned l : steady (Ccdpin.pinEach m pinned l).
Proof.
  induction l as [|u l IH]; cbn [Ccdpin.pinEach].
  - apply respects_ret; apply _.
  - apply respects_bind; [apply _|apply respects_try, steady_Set|].
    intros [[]|e]; [exact IH|].
    apply respects_bind; [apply _|apply steady_rollback|].
    intros _. apply respects_fail; apply _.
Qed.

Lemma pinSlicesLocked_instances m : steady (Ccdpin.pinSlicesLocked m).
Proof.
  unfold Ccdpin.pinSlicesLocked.
  apply respects_bind; [apply _|apply steady_probeSlices|].
  intros [pinned cur]. destruct pinned as [|u pinned].
  - apply respects_fail; apply _.
  - apply respects_bind; [apply _| |intros _; apply steady_pinEach].
    intros p res p' [= _ <-]. reflexivity.
Qed.

End PinKeepsInstances.

#[global] Instance sameFile_preorder {W} `{Storage W} : PreOrder (@sameFile W _).
Proof.
  split.
  - intros p. reflexivity.
  - intros p1 p2 p3 H1 H2. unfold sameFile in *. congruence.
Qed.

#[global] Instance sim_pin_file : PinFile Sim.World.
Proof.
  split.
  - intros s w w'. cbn. destruct (Sim.diskFull w); [done|]. now intros [= <-].
  - intros s w e w'. cbn. destruct (Sim.diskFull w); [|done]. now intros [= _ <-].
  - intros w r w'. cbn. now intros [= _ <-].
  - reflexivity.
  - intros u w r w'. cbn. destruct (decide _); now intros [= _ <-].
  - intros u v w r w'. cbn. destruct (decide _); now intros [= _ <-].
Qed.

Section PinKeepsFile.
Context {W : Type} `{Supervisor W} `{Storage W} `{!PinFile W}.
Implicit Types p : Proc W pinState.

Local Abbreviation untouched := (respects (@sameFile W _)).

Lemma untouched_same_host {A} (c : M (Proc W pinState) A) :
  (forall p res p', c p = (res, p') -> host p' = host p) -> untouched c.
Proof. intros Hc p res p' Hrun. unfold sameFile. now rewrite (Hc _ _ _ Hrun). Qed.

Lemma untouched_Get sys u : untouched (Systemctl_GetAllowedCPUs sys u).
Proof.
  intros p res p'. unfold Systemctl_GetAllowedCPUs, bind. rewrite emit_run.
  unfold onHost. cbn [host mem trace].
  destruct (sd_get_allowed u (host p)) as [r w'] eqn:Hget. intros [= _ <-].
  unfold sameFile. cbn [host]. exact (get_keeps_file _ _ _ _ Hget).
Qed.

Lemma untouched_Set sys u v : untouched (Systemctl_SetAllowedCPUs sys u v).
Proof.
  intros p res p'. unfold Systemctl_SetAllowedCPUs. destruct (DryRun sys).
  - rewrite emit_run. intros [= _ <-]. reflexivity.
  - unfold bind. rewrite emit_run. unfold onHostE. cbn [host mem trace].
    destruct (sd_set_allowed u v (host p)) as [[e|] w'] eqn:Hset; intros [= _ <-];
      unfold sameFile; cbn [host]; exact (set_keeps_file _ _ _ _ _ Hset).
Qed.

Lemma untouched_probeSlices m l pinned cur : untouched (Ccdpin.probeSlices m l pinned cur).
Proof.
  revert pinned cur. induction l as [|u l IH]; intros pinned cur; cbn [Ccdpin.probeSlices].
  - apply respects_ret; apply _.
  - apply respects_bind; [apply _|apply respects_try, untouched_Get|].
    intros [val|e]; apply IH.
Qed.

Lemma untouched_rollback m l : untouched (Ccdpin.rollback m l).
Proof.
  induction l as [|u l IH]; cbn [Ccdpin.rollback].
  - apply respects_ret; apply _.
  - apply respects_bind; [apply _|apply respects_gets; apply _|]. intros s.
    destruct (_ !! u); [|exact IH].
    apply respects_bind; [apply _|apply respects_try, untouched_Set|]. intros _. exact IH.
Qed.

Lemma untouched_pinEach m pinned l : untouched (Ccdpin.pinEach m pinned l).
Proof.
  induction l as [|u l IH]; cbn [Ccdpin.pinEach].
  - apply respects_ret; apply _.
  - apply respects_bind; [apply _|apply respects_try, untouched_Set|].
    intros [[]|e]; [exact IH|].
    apply respects_bind; [apply _|apply untouched_rollback|].
    intros _. apply respects_fail; apply _.
Qed.

(** the pin step does not write the coordinator state file *)
Lemma pinSlicesLocked_file m : untouched (Ccdpin.pinSlicesLocked m).
Proof.
  unfold Ccdpin.pinSlicesLocked.
  apply respects_bind; [apply _|apply untouched_probeSlices|].
  intros [pinned cur]. destruct pinned as [|u pinned].
  - apply respects_fail; apply _.
  - apply respects_bind; [apply _| |intros _; apply untouched_pinEach].
    intros p res p' [= _ <-]. reflexivity.
Qed.

(** what [lockAndLoad] loads is the content of the file *)
Lemma lockAndLoad_loaded p0 p1 :
  Ccdpin.lockAndLoad p0 = (Ok tt, p1) ->
  sameFile p0 p1
  /\ exists loaded,
       fs_read_pin (host p0) = Ok loaded
       /\ mem p1 = match loaded with
                   | Some s => Ccdpin.fixVersion s
                   | None => Ccdpin.freshState
                   end.
Proof.
  unfold Ccdpin.lockAndLoad, bind at 1, onHostE.
  destruct (fs_lock (host p0)) as [[e|] w1] eqn:Hlock; [done|].
  pose proof (lock_keeps_file _ _ _ Hlock) as Hfile.
  unfold bind at 1. rewrite emit_run. unfold bind at 1. rewrite try_run.
  unfold onHost. cbn [host mem trace fst snd]. rewrite Hfile.
  destruct (fs_read_pin (host p0)) as [[s|]|e] eqn:Hread.
  - rewrite setMem_run. intros [= <-]. unfold sameFile. cbn [host mem].
    split; [congruence|]. now exists (Some s).
  - rewrite setMem_run. intros [= <-]. unfold sameFile. cbn [host mem].
    split; [congruence|]. now exists None.
  - unfold bind. rewrite unlock_run. done.
Qed.

End PinKeepsFile.

Lemma sole_entry_removed (k : string) (v : N) (i : gmap string N) :
  size (<[k := v]> i) = 1%nat -> delete k (<[k := v]> i) = ∅.
Proof.
  intros Hsz. rewrite delete_insert_eq.
  rewrite <- insert_delete_eq in Hsz.
  rewrite map_size_insert_None in Hsz by apply lookup_delete_eq.
  apply map_size_empty_inv. lia.
Qed.

(** ** C10: an acquirer whose pin fails *)

Section FailedPin.
Context {W : Type} `{Supervisor W} `{Storage W}.
Implicit Types p : Proc W pinState.

Lemma fixVersion_instances s : Instances (Ccdpin.fixVersion s) = Instances s.
Proof. unfold Ccdpin.fixVersion. now destruct (decide _). Qed.

Lemma dropSelf_sole m p1 p2 res :
  mapLen (Instances (atAcquire m p1)) = 1%nat ->
  Ccdpin.pinSlicesLocked m (mkProc (atAcquire m p1) (host p1) (trace p1)) = (res, p2) ->
  Instances (Ccdpin.dropSelf m (mem p2)) = Some ∅.
Proof.
  intros Hone Hpin.
  pose proof (pinSlicesLocked_instances m _ _ _ Hpin) as Hkeep.
  unfold keepsInstances in Hkeep. cbn [mem] in Hkeep.
  unfold Ccdpin.dropSelf. rewrite Hkeep.
  unfold atAcquire, Ccdpin.addSelf in *. cbn [Instances Ccdpin.withInstances] in *.
  cbn [mapLen] in Hone. now rewrite sole_entry_removed.
Qed.

Lemma AcquireAndPin_failed_pin m p0 p1 e p2 :
  Ccdpin.lockAndLoad p0 = (Ok tt, p1) ->
  mapLen (Instances (atAcquire m p1)) = 1%nat ->
  Ccdpin.pinSlicesLocked m (mkProc (atAcquire m p1) (host p1) (trace p1)) = (Err e, p2) ->
  exists p3,
    Ccdpin.AcquireAndPin m p0 = (Err e, p3)
    /\ Instances (mem p3) = Some ∅
    /\ trace p3 = trace p2 ++
         [ PinStateSaved (Ccdpin.fixVersion (Ccdpin.dropSelf m (mem p2)));
           LockReleased; LockReleased ].
Proof.
  intros Hlock Hone Hpin.
  unfold Ccdpin.AcquireAndPin. rewrite (bind_Ok _ _ _ _ _ Hlock).
  unfold bind at 1. rewrite try_run, acquireLocked_run. cbn zeta.
  rewrite decide_True by done. rewrite Hpin. cbn [fst snd].
  unfold bind at 1. rewrite unlock_run. unfold fail.
  eexists. split; [reflexivity|].
  unfold afterFailedPin. cbn [mem host trace].
  destruct (Ccdpin.saveLocked _) as [r q] eqn:Hsave. cbn [snd].
  destruct (saveLocked_frame _ _ _ Hsave) as (Hm & Ht). cbn [mem trace] in Hm, Ht.
  rewrite Hm, Ht, <- !app_assoc. split; [|reflexivity].
  exact (dropSelf_sole _ _ _ _ Hone Hpin).
Qed.

End FailedPin.

Section FailedPinFile.
Context {W : Type} `{Supervisor W} `{Storage W} `{!PinFile W}.
Implicit Types p : Proc W pinState.

(** the coordinator state file after an acquire whose pin failed *)
Lemma failed_pin_file m p0 p1 e p2 p3 :
  Ccdpin.lockAndLoad p0 = (Ok tt, p1) ->
  mapLen (Instances (atAcquire m p1)) = 1%nat ->
  Ccdpin.pinSlicesLocked m (mkProc (atAcquire m p1) (host p1) (trace p1)) = (Err e, p2) ->
  Ccdpin.AcquireAndPin m p0 = (Err e, p3) ->
  fs_read_pin (host p2) = fs_read_pin (host p0)
  /\ fs_read_pin (host p3)
     = fs_read_pin (fs_write_pin (Ccdpin.fixVersion (Ccdpin.dropSelf m (mem p2))) (host p2)).2.
Proof.
  intros Hlock Hone Hpin Hacq.
  split.
  - pose proof (pinSlicesLocked_file m _ _ _ Hpin) as Hq. unfold sameFile in Hq.
    cbn [host] in Hq. rewrite Hq.
    destruct (lockAndLoad_loaded _ _ Hlock) as (Hfile & _). exact Hfile.
  - unfold Ccdpin.AcquireAndPin in Hacq. rewrite (bind_Ok _ _ _ _ _ Hlock) in Hacq.
    unfold bind at 1 in Hacq. rewrite try_run, acquireLocked_run in Hacq. cbn zeta in Hacq.
    rewrite decide_True in Hacq by done. rewrite Hpin in Hacq. cbn [fst snd] in Hacq.
    unfold bind at 1 in Hacq. rewrite unlock_run in Hacq. unfold fail in Hacq.
    injection Hacq as <-. unfold afterFailedPin. cbn [host].
    rewrite !unlock_keeps_file.
    unfold Ccdpin.saveLocked, bind. rewrite getMem_run, emit_run. unfold onHostE.
    cbn [host mem trace].
    now destruct (fs_write_pin _ (host p2)) as [[e'|] w'].
Qed.

(** an acquirer that loads a file listing no instance is the sole instance *)
Lemma acquire_on_empty_file (later : Ccdpin.slicePinManager) st q q1 :
  fs_read_pin (host q) = Ok (Some st) ->
  Instances st = Some ∅ ->
  Ccdpin.lockAndLoad q = (Ok tt, q1) ->
  Instances (atAcquire later q1)
  = Some {[ Ccdpin.instKey later := Ccdpin.startTS later ]}.
Proof.
  intros Hfile Hinst Hlock.
  destruct (lockAndLoad_loaded _ _ Hlock) as (_ & loaded & Hread & Hmem).
  rewrite Hfile in Hread. injection Hread as <-.
  unfold atAcquire, Ccdpin.addSelf, Ccdpin.pruneDeadInstances. rewrite Hmem.
  rewrite fixVersion_instances, Hinst. cbn [mapLen].
  rewrite decide_True by apply map_size_empty.
  cbn [Instances Ccdpin.withInstances]. rewrite fixVersion_instances, Hinst.
  reflexivity.
Qed.

End FailedPinFile.

(** C10 as stated does not hold on every host: [AcquireAndPin] ignores the
    result of the save that follows a failed pin.  On a full disk the state
    file keeps what it held, here the entry a dead wrapper once recorded
    under the pid 100 with an unknown start time; wrapper 100, the sole
    instance, fails to pin and returns, and the wrapper that acquires next
    still finds an entry under the pid 100, which it takes for a live
    instance. *)
Lemma failed_save_keeps_entry_counterexample :
  ~ (mapLen (Instances (atAcquire Scenario.pinA
                          (Ccdpin.lockAndLoad Scenario.staleFullStart).2)) = 1%nat ->
     (Ccdpin.AcquireAndPin Scenario.pinA Scenario.staleFullStart).1
       = Err (HostError "property write failed") ->
     default ∅ (Instances (atAcquire Scenario.pinB
       (Ccdpin.lockAndLoad
          (Ccdpin.AcquireAndPin Scenario.pinA Scenario.staleFullStart).2).2))
       !! Ccdpin.instKey Scenario.pinA = None).
Proof.
  intros Hclaim.
  assert (Hfound :
    default ∅ (Instances (atAcquire Scenario.pinB
      (Ccdpin.lockAndLoad
         (Ccdpin.AcquireAndPin Scenario.pinA Scenario.staleFullStart).2).2))
      !! Ccdpin.instKey Scenario.pinA = Some 0%N) by (vm_compute; reflexivity).
  rewrite Hclaim in Hfound; [discriminate Hfound|vm_compute; reflexivity..].
Qed.

Example failed_save_on_full_disk :
  Sim.pinFile (host (Ccdpin.AcquireAndPin Scenario.pinA Scenario.staleFullStart).2)
    = Some Scenario.staleState
  /\ Sim.units (host (Ccdpin.AcquireAndPin Scenario.pinA Scenario.staleFullStart).2)
     = {[ "app.slice" := "0-15"; "background.slice" := "0-15" ]}
  /\ mapLen (Instances (atAcquire Scenario.pinB
       (Ccdpin.lockAndLoad
          (Ccdpin.AcquireAndPin Scenario.pinA Scenario.staleFullStart).2).2)) = 2%nat.
Proof. vm_compute. split; [reflexivity|]. split; reflexivity. Qed.

(** C10 (amended): when the pin step of the sole acquirer fails,
    [AcquireAndPin] removes the wrapper's own entry from the instances map
    (which is then empty), hands that state to [saveLocked] before the lock
    is released, and returns the error of the pin, whatever the save
    returns.  On a host whose state file behaves as a file: the pin step
    leaves the file as it was loaded; when the save succeeds the file holds
    the state without instances, and every wrapper that acquires on that
    file finds itself the sole instance, so the failed wrapper is not
    counted; when the save fails the file is left as it was before the
    acquire.  [main] only warns, runs the wrapped command and exits with its
    status, without any later coordinator activity (the OS slices are not
    pinned by this wrapper). *)
Theorem failed_pin_leaves_no_instance {W : Type} `{Supervisor W} `{Storage W}
    `{!PinFile W} rs cmd (p : Proc W pinState) pin p0 p1 e p2 :
  cmd <> [] ->
  Ccdpin.noOSPin rs = false ->
  Ccdpin.newSlicePinManager (mkSystemctl false) (Ccdpin.osSlices rs)
    (Ccdpin.rOSCPUs rs) (Ccdpin.rDebug rs) p = (Ok pin, p0) ->
  Ccdpin.lockAndLoad p0 = (Ok tt, p1) ->
  mapLen (Instances (atAcquire pin p1)) = 1%nat ->
  Ccdpin.pinSlicesLocked pin (mkProc (atAcquire pin p1) (host p1) (trace p1)) = (Err e, p2) ->
  exists p3,
    Ccdpin.AcquireAndPin pin p0 = (Err e, p3)
    /\ Instances (mem p3) = Some ∅
    /\ Instances (Ccdpin.fixVersion (Ccdpin.dropSelf pin (mem p2))) = Some ∅
    /\ trace p3 = trace p2 ++
         [ PinStateSaved (Ccdpin.fixVersion (Ccdpin.dropSelf pin (mem p2)));
           LockReleased; LockReleased ]
    /\ fs_read_pin (host p2) = fs_read_pin (host p0)
    /\ (forall w',
          fs_write_pin (Ccdpin.fixVersion (Ccdpin.dropSelf pin (mem p2))) (host p2)
            = (None, w') ->
          fs_read_pin (host p3)
            = Ok (Some (Ccdpin.fixVersion (Ccdpin.dropSelf pin (mem p2))))
          /\ forall (later : Ccdpin.slicePinManager) q q1,
               fs_read_pin (host q) = fs_read_pin (host p3) ->
               Ccdpin.lockAndLoad q = (Ok tt, q1) ->
               Instances (atAcquire later q1)
               = Some {[ Ccdpin.instKey later := Ccdpin.startTS later ]})
    /\ (forall e' w',
          fs_write_pin (Ccdpin.fixVersion (Ccdpin.dropSelf pin (mem p2))) (host p2)
            = (Some e', w') ->
          fs_read_pin (host p3) = fs_read_pin (host p0))
    /\ exists code p4,
         Ccdpin.main rs cmd p = (Ok code, p4)
         /\ trace p4 = trace p3 ++
              [ Warned "failed to pin OS slices"; GameRun (Ccdpin.rGameCPUs rs) cmd ]
         /\ host_run_game (Ccdpin.rGameCPUs rs) cmd (host p3) = (code, host p4).
Proof.
  intros Hcmd Hno Hnew Hlock Hone Hpin.
  destruct (AcquireAndPin_failed_pin pin p0 p1 e p2 Hlock Hone Hpin) as (p3 & Hacq & Hinst & Ht).
  destruct (failed_pin_file pin p0 p1 e p2 p3 Hlock Hone Hpin Hacq) as (Hkept & Hfile).
  assert (Hempty : Instances (Ccdpin.fixVersion (Ccdpin.dropSelf pin (mem p2))) = Some ∅).
  { rewrite fixVersion_instances. exact (dropSelf_sole _ _ _ _ Hone Hpin). }
  exists p3. split; [exact Hacq|]. split; [exact Hinst|]. split; [exact Hempty|].
  split; [exact Ht|]. split; [exact Hkept|]. split; [|split].
  { intros w' Hwrite. rewrite Hwrite in Hfile. cbn [snd] in Hfile.
    rewrite (write_then_read _ _ _ Hwrite) in Hfile. split; [exact Hfile|].
    intros later q q1 Hq Hload. rewrite Hfile in Hq.
    exact (acquire_on_empty_file later _ q q1 Hq Hempty Hload). }
  { intros e' w' Hwrite. rewrite Hwrite in Hfile. cbn [snd] in Hfile.
    rewrite (failed_write _ _ _ _ Hwrite) in Hfile. congruence. }
  unfold Ccdpin.main. destruct cmd as [|c0 cmd']; [done|]. rewrite Hno.
  unfold bind at 1. unfold bind at 1. rewrite try_run, Hnew. cbn [fst snd].
  unfold bind at 1. rewrite try_run, Hacq. cbn [fst snd].
  unfold bind at 1. rewrite emit_run. unfold ret at 1.
  unfold bind at 1. unfold Ccdpin.runGame. unfold bind at 1. rewrite emit_run.
  unfold onHost. cbn [mem host trace].
  destruct (host_run_game _ _ _) as [code w'] eqn:Hgame.
  unfold bind, ret. cbn [mem host trace].
  exists code. eexists. split; [reflexivity|]. cbn [trace host].
  rewrite <- app_assoc. split; reflexivity.
Qed.

Lemma failed_pin_leaves_no_instance_witness :
  ["game"; "--fullscreen"] <> []
  /\ Ccdpin.noOSPin Scenario.wrapperOptions = false
  /\ Ccdpin.newSlicePinManager (mkSystemctl false) (Ccdpin.osSlices Scenario.wrapperOptions)
       (Ccdpin.rOSCPUs Scenario.wrapperOptions) (Ccdpin.rDebug Scenario.wrapperOptions)
       Scenario.refusingStart = (Ok Scenario.pinA, Scenario.refusingStart)
  /\ Ccdpin.lockAndLoad Scenario.refusingStart
     = (Ok tt, mkProc Ccdpin.freshState (Sim.withLocked true Scenario.refusingWorld) [LockTaken])
  /\ exists p3,
       Ccdpin.AcquireAndPin Scenario.pinA Scenario.refusingStart
         = (Err (HostError "property write failed"), p3)
       /\ Instances (mem p3) = Some ∅
       /\ (Instances <$> Sim.pinFile (host p3)) = Some (Some ∅)
       /\ exists code p4,
            Ccdpin.main Scenario.wrapperOptions ["game"; "--fullscreen"] Scenario.refusingStart
              = (Ok code, p4).
Proof.
  assert (Hcmd : ["game"; "--fullscreen"] <> []) by discriminate.
  assert (Hnew :
    Ccdpin.newSlicePinManager (mkSystemctl false) (Ccdpin.osSlices Scenario.wrapperOptions)
      (Ccdpin.rOSCPUs Scenario.wrapperOptions) (Ccdpin.rDebug Scenario.wrapperOptions)
      Scenario.refusingStart = (Ok Scenario.pinA, Scenario.refusingStart))
    by (vm_compute; reflexivity).
  assert (Hlock :
    Ccdpin.lockAndLoad Scenario.refusingStart
    = (Ok tt, mkProc Ccdpin.freshState (Sim.withLocked true Scenario.refusingWorld) [LockTaken]))
    by (vm_compute; reflexivity).
  assert (Hone :
    mapLen (Instances (atAcquire Scenario.pinA
      (mkProc Ccdpin.freshState (Sim.withLocked true Scenario.refusingWorld) [LockTaken])))
    = 1%nat) by (vm_compute; reflexivity).
  assert (Hpin :
    Ccdpin.pinSlicesLocked Scenario.pinA
      (mkProc (atAcquire Scenario.pinA
                 (mkProc Ccdpin.freshState (Sim.withLocked true Scenario.refusingWorld)
                    [LockTaken]))
         (Sim.withLocked true Scenario.refusingWorld) [LockTaken])
    = (Err (HostError "property write failed"),
       (Ccdpin.pinSlicesLocked Scenario.pinA
          (mkProc (atAcquire Scenario.pinA
                     (mkProc Ccdpin.freshState (Sim.withLocked true Scenario.refusingWorld)
                        [LockTaken]))
             (Sim.withLocked true Scenario.refusingWorld) [LockTaken])).2))
    by (vm_compute; reflexivity).
  split; [exact Hcmd|]. split; [reflexivity|]. split; [exact Hnew|]. split; [exact Hlock|].
  assert (Hwrite :
    fs_write_pin
      (Ccdpin.fixVersion (Ccdpin.dropSelf Scenario.pinA
         (mem (Ccdpin.pinSlicesLocked Scenario.pinA
            (mkProc (atAcquire Scenario.pinA
                       (mkProc Ccdpin.freshState
                          (Sim.withLocked true Scenario.refusingWorld) [LockTaken]))
               (Sim.withLocked true Scenario.refusingWorld) [LockTaken])).2)))
      (host (Ccdpin.pinSlicesLocked Scenario.pinA
            (mkProc (atAcquire Scenario.pinA
                       (mkProc Ccdpin.freshState
                          (Sim.withLocked true Scenario.refusingWorld) [LockTaken]))
               (Sim.withLocked true Scenario.refusingWorld) [LockTaken])).2)
    = (None,
       (fs_write_pin
          (Ccdpin.fixVersion (Ccdpin.dropSelf Scenario.pinA
         (mem (Ccdpin.pinSlicesLocked Scenario.pinA
            (mkProc (atAcquire Scenario.pinA
                       (mkProc Ccdpin.freshState
                          (Sim.withLocked true Scenario.refusingWorld) [LockTaken]))
               (Sim.withLocked true Scenario.refusingWorld) [LockTaken])).2)))
          (host (Ccdpin.pinSlicesLocked Scenario.pinA
            (mkProc (atAcquire Scenario.pinA
                       (mkProc Ccdpin.freshState
                          (Sim.withLocked true Scenario.refusingWorld) [LockTaken]))
               (Sim.withLocked true Scenario.refusingWorld) [LockTaken])).2)).2))
    by (vm_compute; reflexivity).
  destruct (failed_pin_leaves_no_instance Scenario.wrapperOptions ["game"; "--fullscreen"]
              Scenario.refusingStart Scenario.pinA Scenario.refusingStart _ _ _
              Hcmd eq_refl Hnew Hlock Hone Hpin)
    as (p3 & Hacq & Hinst & Hempty & _ & _ & Hsaved & _ & code & p4 & Hmain & _).
  exists p3. split; [exact Hacq|]. split; [exact Hinst|]. split.
  - destruct (Hsaved _ Hwrite) as (Hfile & _).
    assert (Hpf : Sim.pinFile (host p3)
                  = Some (Ccdpin.fixVersion (Ccdpin.dropSelf Scenario.pinA
         (mem (Ccdpin.pinSlicesLocked Scenario.pinA
            (mkProc (atAcquire Scenario.pinA
                       (mkProc Ccdpin.freshState
                          (Sim.withLocked true Scenario.refusingWorld) [LockTaken]))
               (Sim.withLocked true Scenario.refusingWorld) [LockTaken])).2))))
      by (injection Hfile as Hfile; exact Hfile).
    rewrite Hpf. cbn [fmap option_fmap option_map]. exact (f_equal Some Hempty).
  - exists code, p4. exact Hmain.
Defined.

(** On the simulated host: the failed acquirer rolled the first slice back,
    the state file it left lists no instance, and the wrapper that comes
    next is the sole instance again. *)
Example failed_pin_on_disk :
  Sim.units (host (Ccdpin.AcquireAndPin Scenario.pinA Scenario.refusingStart).2)
    = {[ "app.slice" := "0-15"; "background.slice" := "0-15" ]}
  /\ (Instances <$> Sim.pinFile (host (Ccdpin.AcquireAndPin Scenario.pinA Scenario.refusingStart).2))
     = Some (Some ∅)
  /\ mapLen (Instances (atAcquire Scenario.pinB
       (Ccdpin.lockAndLoad (Ccdpin.AcquireAndPin Scenario.pinA Scenario.refusingStart).2).2))
     = 1%nat.
Proof. vm_compute. split; [reflexivity|]. split; reflexivity. Qed.

(** ** C2: the reference count of the wrappers *)

Section Refcount.
Context {W : Type} `{Supervisor W} `{Storage W}.
Implicit Types p : Proc W pinState.

Lemma finishAcquire_run p :
  exists res w',
    finishAcquire p =
    (res, mkProc (Ccdpin.withUpdatedAt (host_now (host p)) (mem p)) w'
            (trace p ++
               [ PinStateSaved (Ccdpin.fixVersion
                                  (Ccdpin.withUpdatedAt (host_now (host p)) (mem p)));
                 LockReleased ])).
Proof.
  unfold finishAcquire. unfold bind at 1. rewrite timeNow_run.
  unfold bind at 1. rewrite setMem_run.
  unfold bind at 1. rewrite try_run.
  destruct (Ccdpin.saveLocked _) as [r q] eqn:Hsave. cbn [fst snd].
  destruct (saveLocked_frame _ _ _ Hsave) as (Hm & Ht). cbn [mem trace] in Hm, Ht.
  destruct r as [[]|e].
  - rewrite unlock_run, Hm, Ht, <- app_assoc. eauto.
  - unfold bind at 1. rewrite unlock_run. unfold fail.
    rewrite Hm, Ht, <- app_assoc. eauto.
Qed.

(** every run only appends to the trace *)
Local Abbreviation grows := (respects (@addsOnly W pinState (fun _ => True))).













End Refcount.

Section RefcountSteps.
Context {W : Type} `{Supervisor W} `{Storage W}.
Implicit Types p : Proc W pinState.

Lemma added_app p p' evs : trace p' = trace p ++ evs -> added p p' = evs.
Proof. unfold added. intros ->. apply drop_app_length. Qed.





End RefcountSteps.




Section RefcountTheorem.
Context {W : Type} `{Supervisor W} `{Storage W}.
Implicit Types p : Proc W pinState.



End RefcountTheorem.



(** ** What a successful pin records *)

Section PinRecordsOriginals.
Context {W : Type} `{Supervisor W} `{Storage W}.
Implicit Types p : Proc W pinState.

Lemma probeSlices_keys m l pinned cur p pinned' cur' p' :
  Ccdpin.probeSlices m l pinned cur p = (Ok (pinned', cur'), p') ->
  (forall u, u ∈ pinned -> is_Some (cur !! u)) ->
  mem p' = mem p /\ (forall u, u ∈ pinned' -> is_Some (cur' !! u)).
Proof.
  revert pinned cur p. induction l as [|u l IH]; intros pinned cur p;
    cbn [Ccdpin.probeSlices].
  - unfold ret. intros [= <- <- <-] Hkeys. auto.
  - unfold bind at 1. rewrite try_run.
    destruct (Systemctl_GetAllowedCPUs _ u p) as [r q] eqn:Hget. cbn [fst snd].
    destruct (Get_frame _ _ _ _ _ Hget) as (Hm & _).
    destruct r as [val|e]; intros Hrun Hkeys.
    + destruct (IH _ _ _ Hrun) as (Hm' & Hout).
      * intros u' [Hu'|Hu']%elem_of_app.
        -- destruct (decide (u = u')) as [->|Hne].
           ++ rewrite lookup_insert_eq. eauto.
           ++ rewrite lookup_insert_ne by done. auto.
        -- apply list_elem_of_singleton in Hu' as ->. rewrite lookup_insert_eq. eauto.
      * split; [congruence|exact Hout].
    + destruct (IH _ _ _ Hrun Hkeys) as (Hm' & Hout). split; [congruence|exact Hout].
Qed.

Lemma pinEach_Ok m pinned l p p' :
  Ccdpin.pinEach m pinned l p = (Ok tt, p') -> mem p' = mem p.
Proof.
  revert p. induction l as [|u l IH]; intros p; cbn [Ccdpin.pinEach].
  - unfold ret. now intros [= <-].
  - unfold bind at 1. rewrite try_run.
    destruct (Systemctl_SetAllowedCPUs _ u _ p) as [r q] eqn:Hset. cbn [fst snd].
    destruct (Set_frame _ _ _ _ _ _ Hset) as (Hm & _).
    destruct r as [[]|e].
    + intros Hrun. rewrite (IH _ Hrun). exact Hm.
    + unfold bind at 1. destruct (Ccdpin.rollback _ _ _) as [[[]|e'] q']; discriminate.
Qed.

(** a pin that succeeds has recorded an original for each slice it lists,
    and lists at least one *)
Lemma pin_records_originals m p p' :
  Ccdpin.pinSlicesLocked m p = (Ok tt, p') ->
  Slices (mem p') <> []
  /\ pOSCPUs (mem p') = Ccdpin.osCPUs m
  /\ (forall u, u ∈ Slices (mem p') ->
        is_Some (default ∅ (pOriginalAllowedCPUs (mem p')) !! u))
  /\ (0 < mapLen (pOriginalAllowedCPUs (mem p')))%nat.
Proof.
  unfold Ccdpin.pinSlicesLocked. unfold bind at 1.
  destruct (Ccdpin.probeSlices m _ [] ∅ p) as [[[pinned cur]|e] q] eqn:Hprobe;
    cbn [fst snd]; [|discriminate].
  destruct (probeSlices_keys _ _ _ _ _ _ _ _ Hprobe) as (_ & Hkeys).
  { intros u Hu. now apply elem_of_nil in Hu. }
  destruct pinned as [|u0 pinned]; [discriminate|].
  unfold bind at 1. rewrite setMem_run. intros Hrun.
  rewrite (pinEach_Ok _ _ _ _ _ Hrun). cbn [mem].
  unfold Ccdpin.withSnapshot.
  cbn [Slices pOSCPUs pOriginalAllowedCPUs mapLen from_option id].
  rewrite copyMap_id. split; [done|]. split; [done|]. split; [exact Hkeys|].
  destruct (Hkeys u0) as [v Hv]; [apply list_elem_of_here|].
  assert (size cur <> 0%nat); [|lia].
  apply map_size_non_empty_iff. intros ->. now rewrite lookup_empty in Hv.
Qed.

End PinRecordsOriginals.

(** ** Two wrappers, A then B, both alive throughout *)

Section TwoWrappers.
Context {W : Type} `{Supervisor W}.
Variables (a b : Ccdpin.slicePinManager) (w : W).
Hypothesis distinct : Ccdpin.instKey a <> Ccdpin.instKey b.
Hypothesis liveA : Ccdpin.instanceLive w (Ccdpin.instKey a) (Ccdpin.startTS a) = true.
Hypothesis liveB : Ccdpin.instanceLive w (Ccdpin.instKey b) (Ccdpin.startTS b) = true.




End TwoWrappers.



(** S4 on the simulated host: A pins both slices, B joins without a request,
    the release of A makes no request and leaves the slices pinned, and the
    release of B writes the values from before A back and clears the
    coordinator state. *)
Example two_wrappers_on_host :
  filter (fun e => isBus e = true) (added Scenario.wrapperStart Scenario.afterA)
    = [ Bus (GetAllowedCPUs "app.slice"); Bus (GetAllowedCPUs "background.slice");
        Bus (SetAllowedCPUs "app.slice" "0-7");
        Bus (SetAllowedCPUs "background.slice" "0-7") ]
  /\ filter (fun e => isBus e = true) (added Scenario.afterA Scenario.afterAB) = []
  /\ filter (fun e => isBus e = true) (added Scenario.afterAB Scenario.afterARelease) = []
  /\ Sim.units (host Scenario.afterARelease)
     = {[ "app.slice" := "0-7"; "background.slice" := "0-7" ]}
  /\ filter (fun e => isBus e = true) (added Scenario.afterARelease Scenario.afterBRelease)
     = [ Bus (SetAllowedCPUs "app.slice" "0-15");
         Bus (SetAllowedCPUs "background.slice" "0-15") ]
  /\ Sim.units (host Scenario.afterBRelease) = Sim.units Scenario.wrapperWorld
  /\ Sim.pinFile (host Scenario.afterBRelease)
     = Some (mkPinState 1 (Some ∅) None "" [] 0).
Proof. vm_compute. repeat split; reflexivity. Qed.


(** * Further properties of the code *)

(** ** [dedupeNonEmpty], [dedupe] and [slicesToPin] *)

Section Dedupe.
Variable transform : option (string -> string).

Lemma dedupeFrom_spec seen l :
  NoDup (ConfigFile.dedupeFrom transform seen l)
  /\ (forall x, x ∈ ConfigFile.dedupeFrom transform seen l <->
        x ∉ seen /\ x <> EmptyString
        /\ exists s, s ∈ l /\ GoStrings.TrimSpace s <> EmptyString
                     /\ x = normalised transform s)
  /\ sublist (ConfigFile.dedupeFrom transform seen l) (normalised transform <$> l).
Proof.
  revert seen. induction l as [|s l IH]; intros seen; cbn [ConfigFile.dedupeFrom fmap list_fmap].
  - split; [constructor|]. split; [|constructor].
    intros x. split; [intros Hx; now apply elem_of_nil in Hx|].
    intros (_ & _ & s & Hs & _). now apply elem_of_nil in Hs.
  - fold (normalised transform s).
    destruct (IH seen) as (Hnd & Hmem & Hsub).
    assert (Hskip : forall x,
      (normalised transform s ∈ seen \/ normalised transform s = EmptyString
       \/ GoStrings.TrimSpace s = EmptyString) ->
      (x ∉ seen /\ x <> EmptyString
       /\ exists s0, s0 ∈ s :: l /\ GoStrings.TrimSpace s0 <> EmptyString
                     /\ x = normalised transform s0)
      <-> (x ∉ seen /\ x <> EmptyString
           /\ exists s0, s0 ∈ l /\ GoStrings.TrimSpace s0 <> EmptyString
                         /\ x = normalised transform s0)).
    { intros x Hwhy. split.
      - intros (Hx & Hne & s0 & [->|Hin]%elem_of_cons & Ht & ->); [|eauto 10].
        exfalso. destruct Hwhy as [?|[?|?]]; done.
      - intros (Hx & Hne & s0 & Hin & Ht & ->). split; [done|]. split; [done|].
        exists s0. split; [now apply elem_of_cons; right|done]. }
    destruct (decide (GoStrings.TrimSpace s = EmptyString)) as [Hblank|Hblank].
    { split; [exact Hnd|]. split; [|now apply sublist_cons].
      intros x. rewrite Hmem. symmetry. apply Hskip. auto. }
    cbn zeta.
    destruct (decide (normalised transform s = EmptyString)) as [Hempty|Hempty].
    { split; [exact Hnd|]. split; [|now apply sublist_cons].
      intros x. rewrite Hmem. symmetry. apply Hskip. auto. }
    destruct (decide (normalised transform s ∈ seen)) as [Hseen|Hseen].
    { split; [exact Hnd|]. split; [|now apply sublist_cons].
      intros x. rewrite Hmem. symmetry. apply Hskip. auto. }
    destruct (IH ({[normalised transform s]} ∪ seen)) as (Hnd' & Hmem' & Hsub').
    split; [|split].
    + constructor; [|exact Hnd']. rewrite Hmem'. intros (Hx & _). set_solver.
    + intros x. rewrite elem_of_cons, Hmem'. split.
      * intros [->|(Hx & Hne & s0 & Hin & Ht & ->)].
        -- split; [done|]. split; [done|]. exists s. split; [apply list_elem_of_here|done].
        -- split; [set_solver|]. split; [done|]. exists s0.
           split; [now apply elem_of_cons; right|done].
      * intros (Hx & Hne & s0 & [->|Hin]%elem_of_cons & Ht & ->); [now left|].
        destruct (decide (normalised transform s0 = normalised transform s)) as [Heq|Hneq];
          [now left|].
        right. split; [set_solver|]. split; [done|]. eauto.
    + now apply sublist_skip.
Qed.

End Dedupe.

(** X1: [dedupeNonEmpty] returns each non-empty normalised entry exactly
    once: the result has no duplicates, it holds exactly the non-empty
    strings obtained from an entry that is not blank by trimming and then
    applying the transform, and it keeps the order of the input. *)
Theorem dedupeNonEmpty_entries (l : list string) (transform : option (string -> string)) :
  NoDup (ConfigFile.dedupeNonEmpty l transform)
  /\ (forall x, x ∈ ConfigFile.dedupeNonEmpty l transform <->
        x <> EmptyString
        /\ exists s, s ∈ l /\ GoStrings.TrimSpace s <> EmptyString
                     /\ x = normalised transform s)
  /\ sublist (ConfigFile.dedupeNonEmpty l transform) (normalised transform <$> l).
Proof.
  unfold ConfigFile.dedupeNonEmpty.
  destruct (dedupeFrom_spec transform ∅ l) as (Hnd & Hmem & Hsub).
  split; [exact Hnd|]. split; [|exact Hsub].
  intros x. rewrite Hmem. split; [tauto|]. intros Hx. split; [set_solver|tauto].
Qed.

(** *** Lower-casing and trimming commute *)

Lemma lowerChar_space c :
  GoStrings.asciiSpace (Procscan.lowerChar c) = GoStrings.asciiSpace c.
Proof. destruct c as [[] [] [] [] [] [] [] []]; reflexivity. Qed.

(** lower-casing keeps the bytes that are not ASCII and maps ASCII bytes to
    ASCII bytes *)
Lemma lowerChar_high c :
  (128 <=? GoStrings.byte c)%N = true -> Procscan.lowerChar c = c.
Proof.
  destruct c as [[] [] [] [] [] [] [] []]; intros Hc; try reflexivity;
    vm_compute in Hc; discriminate Hc.
Qed.

Lemma lowerChar_low c :
  (128 <=? GoStrings.byte c)%N = false ->
  (128 <=? GoStrings.byte (Procscan.lowerChar c))%N = false.
Proof.
  destruct c as [[] [] [] [] [] [] [] []]; intros Hc; try reflexivity;
    vm_compute in Hc; discriminate Hc.
Qed.

Lemma lowerChar_eqb k c :
  (128 <=? k)%N = true ->
  (GoStrings.byte (Procscan.lowerChar c) =? k)%N = (GoStrings.byte c =? k)%N.
Proof.
  intros Hk. destruct (128 <=? GoStrings.byte c)%N eqn:Hc.
  - now rewrite lowerChar_high.
  - pose proof (lowerChar_low c Hc) as Hl.
    apply N.leb_le in Hk. apply N.leb_gt in Hc, Hl.
    destruct (N.eqb_spec (GoStrings.byte (Procscan.lowerChar c)) k) as [He|He]; [lia|].
    destruct (N.eqb_spec (GoStrings.byte c) k) as [He'|He']; [lia|reflexivity].
Qed.

Lemma space2_lower c d :
  GoStrings.space2 (Procscan.lowerChar c) (Procscan.lowerChar d) = GoStrings.space2 c d.
Proof. unfold GoStrings.space2. now rewrite !lowerChar_eqb by reflexivity. Qed.

Lemma space3_lower c d e :
  GoStrings.space3 (Procscan.lowerChar c) (Procscan.lowerChar d) (Procscan.lowerChar e)
  = GoStrings.space3 c d e.
Proof.
  unfold GoStrings.space3. rewrite !lowerChar_eqb by reflexivity.
  destruct (128 <=? GoStrings.byte e)%N eqn:He.
  - now rewrite (lowerChar_high e He), He.
  - now rewrite (lowerChar_low e He).
Qed.

Lemma spaceWidth_lower c r :
  GoStrings.spaceWidth (Procscan.lowerChar c) (Procscan.ToLower r) = GoStrings.spaceWidth c r.
Proof.
  unfold GoStrings.spaceWidth. rewrite lowerChar_space.
  destruct (GoStrings.asciiSpace c); [reflexivity|].
  destruct r as [|d r']; [reflexivity|]. cbn [Procscan.ToLower]. rewrite space2_lower.
  destruct (GoStrings.space2 c d); [reflexivity|].
  destruct r' as [|e r'']; [reflexivity|]. cbn [Procscan.ToLower]. now rewrite space3_lower.
Qed.

Lemma spaceWidthEnd_lower c r :
  GoStrings.spaceWidthEnd (Procscan.lowerChar c) (Procscan.ToLower r)
  = GoStrings.spaceWidthEnd c r.
Proof.
  unfold GoStrings.spaceWidthEnd. rewrite lowerChar_space.
  destruct (GoStrings.asciiSpace c); [reflexivity|].
  destruct r as [|d r']; [reflexivity|]. cbn [Procscan.ToLower]. rewrite space2_lower.
  destruct (GoStrings.space2 d c); [reflexivity|].
  destruct r' as [|e r'']; [reflexivity|]. cbn [Procscan.ToLower]. now rewrite space3_lower.
Qed.

Lemma lowerChar_idem c : Procscan.lowerChar (Procscan.lowerChar c) = Procscan.lowerChar c.
Proof. destruct c as [[] [] [] [] [] [] [] []]; reflexivity. Qed.

Lemma ToLower_idem s : Procscan.ToLower (Procscan.ToLower s) = Procscan.ToLower s.
Proof. induction s as [|c s IH]; cbn [Procscan.ToLower]; [done|]. now rewrite lowerChar_idem, IH. Qed.

Lemma ToLower_trimWith (width : ascii -> string -> nat) s :
  (forall c r,
     width c r = 0%nat \/ width c r = 1%nat
     \/ (width c r = 2%nat /\ exists d r', r = String d r')
     \/ (width c r = 3%nat /\ exists d e r'', r = String d (String e r''))) ->
  (forall c r, width (Procscan.lowerChar c) (Procscan.ToLower r) = width c r) ->
  GoStrings.trimWith width (Procscan.ToLower s)
  = Procscan.ToLower (GoStrings.trimWith width s).
Proof.
  intros Hcases Hlower.
  induction s as [|c r IH1 IH2 IH3] using string3_ind; [reflexivity|].
  destruct (Hcases c r) as [Hw|[Hw|[(Hw & d & r' & ->)|(Hw & d & e & r'' & ->)]]].
  - rewrite (trimWith_0 width c r Hw). cbn [Procscan.ToLower].
    apply trimWith_0. now rewrite Hlower.
  - rewrite (trimWith_1 width c r Hw). cbn [Procscan.ToLower].
    rewrite trimWith_1 by now rewrite Hlower. exact IH1.
  - rewrite (trimWith_2 width c d r' Hw). cbn [Procscan.ToLower].
    rewrite trimWith_2 by (rewrite <- Hw; exact (Hlower c (String d r'))).
    exact (IH2 _ _ eq_refl).
  - rewrite (trimWith_3 width c d e r'' Hw). cbn [Procscan.ToLower].
    rewrite trimWith_3 by (rewrite <- Hw; exact (Hlower c (String d (String e r'')))).
    exact (IH3 _ _ _ eq_refl).
Qed.

Lemma ToLower_trimLeft s :
  GoStrings.trimLeft (Procscan.ToLower s) = Procscan.ToLower (GoStrings.trimLeft s).
Proof. apply ToLower_trimWith; [apply spaceWidth_cases|apply spaceWidth_lower]. Qed.

Lemma ToLower_trimEnd s :
  GoStrings.trimEnd (Procscan.ToLower s) = Procscan.ToLower (GoStrings.trimEnd s).
Proof. apply ToLower_trimWith; [apply spaceWidthEnd_cases|apply spaceWidthEnd_lower]. Qed.

Lemma ToLower_rev_app s acc :
  String.rev_app (Procscan.ToLower s) (Procscan.ToLower acc)
  = Procscan.ToLower (String.rev_app s acc).
Proof.
  revert acc. induction s as [|c s IH]; intros acc; cbn [Procscan.ToLower String.rev_app]; [done|].
  exact (IH (String c acc)).
Qed.

Lemma ToLower_rev s : String.rev (Procscan.ToLower s) = Procscan.ToLower (String.rev s).
Proof. exact (ToLower_rev_app s EmptyString). Qed.

Lemma ToLower_TrimSpace s :
  GoStrings.TrimSpace (Procscan.ToLower s) = Procscan.ToLower (GoStrings.TrimSpace s).
Proof.
  unfold GoStrings.TrimSpace.
  now rewrite ToLower_trimLeft, ToLower_rev, ToLower_trimEnd, ToLower_rev.
Qed.

Lemma ToLower_empty s : Procscan.ToLower s = EmptyString <-> s = EmptyString.
Proof. destruct s; cbn [Procscan.ToLower]; split; done. Qed.

(** *** Strings of ASCII bytes *)

Lemma isASCII_app (x y : string) : isASCII (x +:+ y) = isASCII x && isASCII y.
Proof.
  induction x as [|c x IH]; [reflexivity|]. rewrite string_cons_app. cbn [isASCII].
  now rewrite IH, andb_assoc.
Qed.

Lemma isASCII_rev s : isASCII (String.rev s) = isASCII s.
Proof.
  induction s as [|c s IH]; [reflexivity|].
  rewrite string_rev_cons, isASCII_app, IH. cbn [isASCII].
  rewrite andb_true_r. apply andb_comm.
Qed.

Lemma isASCII_TrimSpace s : isASCII s = true -> isASCII (GoStrings.TrimSpace s) = true.
Proof.
  destruct (TrimSpace_inside s) as (p & q & Heq). rewrite Heq at 1.
  rewrite !isASCII_app, !andb_true_iff. tauto.
Qed.

Lemma lowerChar_ascii c :
  (GoStrings.byte (Procscan.lowerChar c) <? 128)%N = (GoStrings.byte c <? 128)%N.
Proof. destruct c as [[] [] [] [] [] [] [] []]; reflexivity. Qed.

Lemma isASCII_ToLower s : isASCII (Procscan.ToLower s) = isASCII s.
Proof.
  induction s as [|c s IH]; [reflexivity|]. cbn [Procscan.ToLower isASCII].
  now rewrite lowerChar_ascii, IH.
Qed.

Lemma isASCII_splitOn sep cur s :
  isASCII cur = true -> isASCII s = true ->
  Forall (fun x => isASCII x = true) (GoStrings.splitOn sep cur s).
Proof.
  revert cur. induction s as [|c s IH]; intros cur Hcur Hs; cbn [GoStrings.splitOn].
  - constructor; [now rewrite isASCII_rev|constructor].
  - cbn [isASCII] in Hs. apply andb_true_iff in Hs as [Hc Hs].
    destruct (Ascii.eqb c sep).
    + constructor; [now rewrite isASCII_rev|]. now apply IH.
    + apply IH; [|exact Hs]. cbn [isASCII]. now rewrite Hc, Hcur.
Qed.

(** a list of distinct fixed points of the normalisation passes unchanged *)
Lemma dedupeFrom_fixed transform seen l :
  NoDup l ->
  (forall x, x ∈ l ->
     x ∉ seen /\ x <> EmptyString /\ GoStrings.TrimSpace x = x
     /\ normalised transform x = x) ->
  ConfigFile.dedupeFrom transform seen l = l.
Proof.
  revert seen. induction l as [|x l IH]; intros seen Hnd Hall; [done|].
  cbn [ConfigFile.dedupeFrom]. cbn zeta.
  destruct (Hall x) as (Hx & Hne & Htrim & Hnorm); [apply list_elem_of_here|].
  fold (normalised transform x). rewrite Htrim, Hnorm.
  rewrite !decide_False by done.
  f_equal. apply NoDup_cons in Hnd as (Hnotin & Hnd). apply IH; [exact Hnd|].
  intros y Hy. destruct (Hall y) as (Hy1 & Hy2 & Hy3 & Hy4); [now apply elem_of_cons; right|].
  split; [|done]. intros [->%elem_of_singleton|?]%elem_of_union; done.
Qed.

(** X2: [dedupeNonEmpty] is idempotent for the two transforms the source
    passes: without a transform for every list, and with [strings.ToLower]
    for every list of ASCII strings; cleaning a cleaned list changes
    nothing. *)
Theorem dedupeNonEmpty_idempotent (l : list string) (transform : option (string -> string)) :
  transform = None
  \/ (transform = Some Procscan.ToLower /\ Forall (fun s => isASCII s = true) l) ->
  ConfigFile.dedupeNonEmpty (ConfigFile.dedupeNonEmpty l transform) transform
  = ConfigFile.dedupeNonEmpty l transform.
Proof.
  intros Hwhich. unfold ConfigFile.dedupeNonEmpty at 1.
  destruct (dedupeFrom_spec transform ∅ l) as (Hnd & Hmem & _).
  fold (ConfigFile.dedupeNonEmpty l transform) in Hnd, Hmem.
  apply dedupeFrom_fixed; [exact Hnd|].
  intros x (_ & Hne & s & _ & _ & ->)%Hmem. split; [set_solver|]. split; [exact Hne|].
  destruct Hwhich as [->|[-> _]]; unfold normalised in *.
  - now rewrite !TrimSpace_idem.
  - rewrite !ToLower_TrimSpace, !TrimSpace_idem, ToLower_idem. done.
Qed.

Lemma dedupeNonEmpty_idempotent_witness :
  (Some Procscan.ToLower = None
   \/ (Some Procscan.ToLower = Some Procscan.ToLower
       /\ Forall (fun s => isASCII s = true) [" Steam"; "steam "; ""; "WINE"]))
  /\ ConfigFile.dedupeNonEmpty
       (ConfigFile.dedupeNonEmpty [" Steam"; "steam "; ""; "WINE"] (Some Procscan.ToLower))
       (Some Procscan.ToLower)
     = ["steam"; "wine"].
Proof.
  assert (Hascii : Forall (fun s => isASCII s = true) [" Steam"; "steam "; ""; "WINE"])
    by (repeat constructor).
  split; [right; split; [reflexivity|exact Hascii]|].
  rewrite (dedupeNonEmpty_idempotent [" Steam"; "steam "; ""; "WINE"]
             (Some Procscan.ToLower) (or_intror (conj eq_refl Hascii))).
  vm_compute. reflexivity.
Defined.

(** the daemon's [dedupe] is [dedupeNonEmpty] without a transform *)
Lemma dedupeFrom_agree seen l :
  Daemon.dedupeFrom seen l = ConfigFile.dedupeFrom None seen l.
Proof.
  revert seen. induction l as [|s l IH]; intros seen; [done|].
  cbn [Daemon.dedupeFrom ConfigFile.dedupeFrom]. cbn zeta.
  destruct (decide (GoStrings.TrimSpace s = EmptyString)); [apply IH|].
  destruct (decide (GoStrings.TrimSpace s ∈ seen)); [apply IH|]. now rewrite IH.
Qed.

(** X3: [slicesToPin] never returns an empty list: its result has no
    duplicates and no blank or untrimmed name, it contains the trimmed name
    of every configured slice that is not blank, and [session.slice] when
    [pin_session_slice] is set; when nothing usable is configured it is the
    default pair. *)
Theorem slicesToPin_usable (cfg : Config) :
  Daemon.slicesToPin cfg <> []
  /\ NoDup (Daemon.slicesToPin cfg)
  /\ Forall (fun u => u <> EmptyString /\ GoStrings.TrimSpace u = u) (Daemon.slicesToPin cfg)
  /\ (forall u, u ∈ PinSlices cfg -> GoStrings.TrimSpace u <> EmptyString ->
        GoStrings.TrimSpace u ∈ Daemon.slicesToPin cfg)
  /\ (PinSessionSlice cfg = true -> "session.slice" ∈ Daemon.slicesToPin cfg)
  /\ (forall u, u ∈ Daemon.slicesToPin cfg ->
        (exists s, s ∈ PinSlices cfg /\ u = GoStrings.TrimSpace s)
        \/ (PinSessionSlice cfg = true /\ u = "session.slice")
        \/ (Daemon.slicesToPin cfg = ["app.slice"; "background.slice"]
            /\ Forall (fun s => GoStrings.TrimSpace s = EmptyString) (PinSlices cfg)
            /\ PinSessionSlice cfg = false)).
Proof.
  unfold Daemon.slicesToPin. cbn zeta. unfold Daemon.dedupe. rewrite dedupeFrom_agree.
  set (inp := (PinSlices cfg ++ (if PinSessionSlice cfg then ["session.slice"] else []))%list).
  destruct (dedupeFrom_spec None ∅ inp) as (Hnd & Hmem & _).
  unfold normalised in Hmem.
  destruct (ConfigFile.dedupeFrom None ∅ inp) as [|u0 out] eqn:Hout.
  - assert (Hnone : forall s, s ∈ inp -> GoStrings.TrimSpace s = EmptyString).
    { intros s Hs. destruct (decide (GoStrings.TrimSpace s = EmptyString)) as [|Hne]; [done|].
      exfalso. apply (elem_of_nil (GoStrings.TrimSpace s)). apply Hmem.
      split; [set_solver|]. split; [done|]. eauto. }
    assert (Hflag : PinSessionSlice cfg = false).
    { destruct (PinSessionSlice cfg) eqn:E; [|done].
      specialize (Hnone "session.slice"). unfold inp in Hnone.
      rewrite elem_of_app in Hnone. discriminate Hnone. right. apply list_elem_of_here. }
    assert (Hblank : Forall (fun s => GoStrings.TrimSpace s = EmptyString) (PinSlices cfg)).
    { apply Forall_forall. intros s Hs. apply Hnone. unfold inp. apply elem_of_app; now left. }
    split; [done|]. split; [repeat constructor; set_solver|].
    split; [repeat constructor; done|]. split.
    { intros u Hu Hne. rewrite Forall_forall in Hblank. now rewrite (Hblank u Hu) in Hne. }
    split; [congruence|]. intros u _. right. right. done.
  - split; [done|]. split; [exact Hnd|]. split.
    { apply Forall_forall. intros u (_ & Hne & s & _ & _ & ->)%Hmem.
      split; [exact Hne|apply TrimSpace_idem]. }
    split.
    { intros u Hu Hne. apply Hmem. split; [set_solver|]. split; [exact Hne|].
      exists u. split; [|done]. unfold inp. apply elem_of_app; now left. }
    split.
    { intros Hflag. apply Hmem. split; [set_solver|]. split; [done|].
      exists "session.slice". split; [|split; [done|reflexivity]].
      unfold inp. rewrite Hflag. apply elem_of_app; right. apply list_elem_of_here. }
    intros u (_ & _ & s & Hs & _ & ->)%Hmem. unfold inp in Hs.
    apply elem_of_app in Hs as [Hs|Hs]; [left; eauto|].
    right; left. destruct (PinSessionSlice cfg); [|now apply elem_of_nil in Hs].
    apply list_elem_of_singleton in Hs as ->. split; [done|reflexivity].
Qed.

(** ** [loadIgnoreFile] and [Load] *)

Lemma ignoreLines_spec lines :
  (forall x, x ∈ ConfigFile.ignoreLines lines <->
     exists line, line ∈ lines /\ x = GoStrings.TrimSpace line
                  /\ x <> EmptyString /\ GoStrings.HasPrefix x "#" = false)
  /\ sublist (ConfigFile.ignoreLines lines) (GoStrings.TrimSpace <$> lines).
Proof.
  induction lines as [|line lines (IHm & IHs)]; cbn [ConfigFile.ignoreLines fmap list_fmap].
  - split; [|constructor]. intros x. split; [intros Hx; now apply elem_of_nil in Hx|].
    intros (line & Hl & _). now apply elem_of_nil in Hl.
  - cbn zeta.
    assert (Hskip : forall x,
      (GoStrings.TrimSpace line = EmptyString
       \/ GoStrings.HasPrefix (GoStrings.TrimSpace line) "#" = true) ->
      x ∈ ConfigFile.ignoreLines lines <->
      exists l0, l0 ∈ line :: lines /\ x = GoStrings.TrimSpace l0
                 /\ x <> EmptyString /\ GoStrings.HasPrefix x "#" = false).
    { intros x Hwhy. rewrite IHm. split.
      - intros (l0 & Hin & Hrest). exists l0. split; [now apply elem_of_cons; right|done].
      - intros (l0 & [->|Hin]%elem_of_cons & -> & Hne & Hp); [|eauto].
        exfalso. destruct Hwhy as [?|Hc]; [done|]. rewrite Hc in Hp. discriminate. }
    destruct (decide (GoStrings.TrimSpace line = EmptyString)) as [Hb|Hb].
    { split; [|now apply sublist_cons]. intros x. apply Hskip. now left. }
    destruct (GoStrings.HasPrefix (GoStrings.TrimSpace line) "#") eqn:Hc.
    { split; [|now apply sublist_cons]. intros x. apply Hskip. now right. }
    split; [|now apply sublist_skip].
    intros x. rewrite elem_of_cons, IHm. split.
    + intros [->|(l0 & Hin & Hrest)].
      * exists line. split; [apply list_elem_of_here|done].
      * exists l0. split; [now apply elem_of_cons; right|done].
    + intros (l0 & [->|Hin]%elem_of_cons & -> & Hne & Hp); [now left|right; eauto].
Qed.

(** X4: [loadIgnoreFile] keeps, in file order, exactly the lines that are
    neither blank nor comments once trimmed (a line is a comment when its
    first non-blank byte is [#]); a read error, [os.ErrNotExist] included,
    is returned as it is. *)
Theorem loadIgnoreFile_entries (read : ConfigFile.fileRead) :
  match ConfigFile.loadIgnoreFile read with
  | ConfigFile.Got out =>
      exists data,
        read = ConfigFile.Got data
        /\ (forall x, x ∈ out <->
              exists line, line ∈ GoStrings.Split data "010"%char
                           /\ x = GoStrings.TrimSpace line
                           /\ x <> EmptyString /\ GoStrings.HasPrefix x "#" = false)
        /\ sublist out (GoStrings.TrimSpace <$> GoStrings.Split data "010"%char)
  | ConfigFile.Missing => read = ConfigFile.Missing
  | ConfigFile.Failed e => read = ConfigFile.Failed e
  end.
Proof.
  destruct read as [data| |e]; cbn [ConfigFile.loadIgnoreFile]; [|done|done].
  exists data. split; [done|]. apply ignoreLines_spec.
Qed.

Lemma dedupe_clean l x :
  x ∈ ConfigFile.dedupeNonEmpty l None -> clean x.
Proof.
  intros (_ & Hne & s & _ & _ & ->)%(dedupeFrom_spec None ∅ l).
  split; [exact Hne|apply TrimSpace_idem].
Qed.

Lemma dedupe_cleanLower l x :
  x ∈ ConfigFile.dedupeNonEmpty l (Some Procscan.ToLower) -> cleanLower x.
Proof.
  intros (_ & Hne & s & _ & _ & ->)%(dedupeFrom_spec (Some Procscan.ToLower) ∅ l).
  unfold normalised. split; [split; [exact Hne|]|apply ToLower_idem].
  now rewrite ToLower_TrimSpace, TrimSpace_idem.
Qed.

Lemma dedupe_NoDup l t : NoDup (ConfigFile.dedupeNonEmpty l t).
Proof. apply (dedupeFrom_spec t ∅ l). Qed.

Lemma Default_lists :
  NoDup (ConfigFile.EnvKeys ConfigFile.Default)
  /\ Forall clean (ConfigFile.EnvKeys ConfigFile.Default)
  /\ NoDup (ConfigFile.IgnoreExe ConfigFile.Default)
  /\ Forall cleanLower (ConfigFile.IgnoreExe ConfigFile.Default)
  /\ NoDup (ConfigFile.PinSlices ConfigFile.Default)
  /\ Forall clean (ConfigFile.PinSlices ConfigFile.Default).
Proof.
  cbn [ConfigFile.Default ConfigFile.EnvKeys ConfigFile.IgnoreExe ConfigFile.PinSlices].
  repeat split;
    try (apply (bool_decide_unpack _); vm_compute; exact I);
    repeat (apply Forall_cons; split;
            [unfold cleanLower, clean; repeat split; try discriminate; vm_compute; reflexivity|]);
    apply Forall_nil.
Qed.

Lemma Default_tidy : tidy ConfigFile.Default.
Proof.
  destruct Default_lists as (H1 & H2 & H3 & H4 & H5 & H6).
  unfold tidy. repeat split; try assumption; try constructor.
Qed.

Lemma overlay_tidy parseDuration tc cfg cfg' :
  tidy cfg -> ConfigFile.overlay parseDuration tc cfg = Ok cfg' -> tidy cfg'.
Proof.
  intros (H1 & H2 & H3 & H4 & H5 & H6 & H7 & H8 & H9 & H10). unfold ConfigFile.overlay.
  destruct (if decide (ConfigFile.tInterval tc <> EmptyString) then _ else _) as [d|e];
    [|discriminate].
  intros [= <-]. unfold tidy.
  cbn [ConfigFile.EnvKeys ConfigFile.ExeAllowlist ConfigFile.IgnoreExe ConfigFile.PinSlices
       ConfigFile.OSCPUsOverride ConfigFile.GameCPUsOverride].
  repeat split.
  - destruct (ConfigFile.tEnvKeys tc); [done|apply dedupe_NoDup].
  - destruct (ConfigFile.tEnvKeys tc); [done|]. apply Forall_forall. intros x. apply dedupe_clean.
  - destruct (ConfigFile.tExeAllowlist tc); [done|apply dedupe_NoDup].
  - destruct (ConfigFile.tExeAllowlist tc); [done|]. apply Forall_forall. intros x.
    apply dedupe_cleanLower.
  - destruct (ConfigFile.tIgnoreExe tc); [done|apply dedupe_NoDup].
  - destruct (ConfigFile.tIgnoreExe tc); [done|]. apply Forall_forall. intros x.
    apply dedupe_cleanLower.
  - destruct (ConfigFile.tPinSlices tc); [done|apply dedupe_NoDup].
  - destruct (ConfigFile.tPinSlices tc); [done|]. apply Forall_forall. intros x. apply dedupe_clean.
  - destruct (decide _); [apply TrimSpace_idem|done].
  - destruct (decide _); [apply TrimSpace_idem|done].
Qed.

Lemma withIgnoreList_tidy dip home join readFile cfg cfg' :
  tidy cfg -> ConfigFile.withIgnoreList dip home join readFile cfg = Ok cfg' -> tidy cfg'.
Proof.
  intros Ht. unfold ConfigFile.withIgnoreList.
  destruct (if decide (GoStrings.TrimSpace (ConfigFile.IgnoreFile cfg) = EmptyString)
            then _ else _) as [cfg1|e] eqn:Hpath; [|discriminate].
  assert (Ht1 : tidy cfg1).
  { destruct (decide _); [|now injection Hpath as <-].
    destruct dip as [ip|e1]; [|discriminate]. now injection Hpath as <-. }
  cbn zeta. cbn [ConfigFile.IgnoreFile ConfigFile.withIgnoreFile].
  destruct (ConfigFile.loadIgnoreFile _) as [extra| |e1]; [| |discriminate];
    intros [= <-]; [|exact Ht1].
  destruct Ht1 as (H1 & H2 & H3 & H4 & H5 & H6 & H7 & H8 & H9 & H10).
  unfold tidy. cbn. repeat split; try assumption.
  - apply dedupe_NoDup.
  - apply Forall_forall. intros x. apply dedupe_cleanLower.
Qed.

Lemma Load_inv decode parseDuration dip home join readFile path cfg :
  ConfigFile.Load decode parseDuration dip home join readFile path = Ok cfg ->
  exists cfg0, tidy cfg0 /\ ConfigFile.withIgnoreList dip home join readFile cfg0 = Ok cfg.
Proof.
  unfold ConfigFile.Load.
  destruct (if decide (path <> EmptyString) then _ else _) as [cfg0|e] eqn:Hfile;
    [|discriminate].
  intros Hrest. exists cfg0. split; [|exact Hrest].
  destruct (decide _); [|injection Hfile as <-; apply Default_tidy].
  destruct (readFile path) as [data| |e]; [| |discriminate].
  - destruct (decode data) as [tc|e]; [|discriminate].
    exact (overlay_tidy _ _ _ _ Default_tidy Hfile).
  - injection Hfile as <-. apply Default_tidy.
Qed.

(** *** Executable names of ASCII bytes stay so *)

Lemma dedupe_ascii l x :
  Forall (fun s => isASCII s = true) l ->
  x ∈ ConfigFile.dedupeNonEmpty l (Some Procscan.ToLower) -> isASCII x = true.
Proof.
  intros Hl (_ & _ & s & Hs & _ & ->)%(dedupeFrom_spec (Some Procscan.ToLower) ∅ l).
  unfold normalised. rewrite isASCII_ToLower. apply isASCII_TrimSpace.
  exact (proj1 (Forall_forall _ _) Hl s Hs).
Qed.

Lemma ignoreLines_ascii lines :
  Forall (fun s => isASCII s = true) lines ->
  Forall (fun s => isASCII s = true) (ConfigFile.ignoreLines lines).
Proof.
  intros Hl. apply Forall_forall. intros x Hx.
  apply (proj1 (ignoreLines_spec lines)) in Hx as (line & Hin & -> & _).
  apply isASCII_TrimSpace. exact (proj1 (Forall_forall _ _) Hl line Hin).
Qed.

Lemma Default_ascii :
  Forall (fun s => isASCII s = true) (ConfigFile.ExeAllowlist ConfigFile.Default)
  /\ Forall (fun s => isASCII s = true) (ConfigFile.IgnoreExe ConfigFile.Default).
Proof.
  cbn [ConfigFile.Default ConfigFile.ExeAllowlist ConfigFile.IgnoreExe].
  split; repeat (constructor; [reflexivity|]); constructor.
Qed.

Lemma overlay_ascii parseDuration tc cfg cfg' :
  Forall (fun s => isASCII s = true) (ConfigFile.tExeAllowlist tc) ->
  Forall (fun s => isASCII s = true) (ConfigFile.tIgnoreExe tc) ->
  Forall (fun s => isASCII s = true) (ConfigFile.ExeAllowlist cfg)
  /\ Forall (fun s => isASCII s = true) (ConfigFile.IgnoreExe cfg) ->
  ConfigFile.overlay parseDuration tc cfg = Ok cfg' ->
  Forall (fun s => isASCII s = true) (ConfigFile.ExeAllowlist cfg')
  /\ Forall (fun s => isASCII s = true) (ConfigFile.IgnoreExe cfg').
Proof.
  intros Hexe Hign [H1 H2]. unfold ConfigFile.overlay.
  destruct (if decide (ConfigFile.tInterval tc <> EmptyString) then _ else _) as [d|e];
    [|discriminate].
  intros [= <-]. cbn [ConfigFile.ExeAllowlist ConfigFile.IgnoreExe]. split.
  - destruct (ConfigFile.tExeAllowlist tc) as [|x l] eqn:Hl; [exact H1|].
    apply Forall_forall. intros y. now apply dedupe_ascii.
  - destruct (ConfigFile.tIgnoreExe tc) as [|x l] eqn:Hl; [exact H2|].
    apply Forall_forall. intros y. now apply dedupe_ascii.
Qed.

Lemma withIgnoreList_ascii dip home join readFile cfg cfg' :
  (forall p data, readFile p = ConfigFile.Got data -> isASCII data = true) ->
  Forall (fun s => isASCII s = true) (ConfigFile.ExeAllowlist cfg)
  /\ Forall (fun s => isASCII s = true) (ConfigFile.IgnoreExe cfg) ->
  ConfigFile.withIgnoreList dip home join readFile cfg = Ok cfg' ->
  Forall (fun s => isASCII s = true) (ConfigFile.ExeAllowlist cfg')
  /\ Forall (fun s => isASCII s = true) (ConfigFile.IgnoreExe cfg').
Proof.
  intros Hfiles Hcfg. unfold ConfigFile.withIgnoreList.
  destruct (if decide (GoStrings.TrimSpace (ConfigFile.IgnoreFile cfg) = EmptyString)
            then _ else _) as [cfg1|e] eqn:Hpath; [|discriminate].
  assert (H1 : Forall (fun s => isASCII s = true) (ConfigFile.ExeAllowlist cfg1)
               /\ Forall (fun s => isASCII s = true) (ConfigFile.IgnoreExe cfg1)).
  { destruct (decide _); [|now injection Hpath as <-].
    destruct dip as [ip|e1]; [|discriminate]. now injection Hpath as <-. }
  cbn zeta. cbn [ConfigFile.IgnoreFile ConfigFile.withIgnoreFile].
  destruct (readFile _) as [data| |e1] eqn:Hread; cbn [ConfigFile.loadIgnoreFile];
    [| |discriminate]; intros [= <-]; [|exact H1].
  destruct H1 as [Hexe Hign]. cbn. split; [exact Hexe|].
  apply Forall_forall. intros y. apply dedupe_ascii. apply Forall_app. split; [exact Hign|].
  apply ignoreLines_ascii, isASCII_splitOn; [reflexivity|]. exact (Hfiles _ _ Hread).
Qed.

Lemma Load_ascii decode parseDuration dip home join readFile path cfg :
  asciiNames decode readFile ->
  ConfigFile.Load decode parseDuration dip home join readFile path = Ok cfg ->
  Forall (fun s => isASCII s = true) (ConfigFile.ExeAllowlist cfg)
  /\ Forall (fun s => isASCII s = true) (ConfigFile.IgnoreExe cfg).
Proof.
  intros [Hdec Hfiles]. unfold ConfigFile.Load.
  destruct (if decide (path <> EmptyString) then _ else _) as [cfg0|e] eqn:Hfile;
    [|discriminate].
  apply withIgnoreList_ascii; [exact Hfiles|].
  destruct (decide _); [|injection Hfile as <-; apply Default_ascii].
  destruct (readFile path) as [data| |e]; [| |discriminate].
  - destruct (decode data) as [tc|e] eqn:Htc; [|discriminate].
    destruct (Hdec _ _ Htc) as [Hexe Hign].
    exact (overlay_ascii _ _ _ _ Hexe Hign Default_ascii Hfile).
  - injection Hfile as <-. apply Default_ascii.
Qed.

(** X5: whatever the configuration file and the ignore list contain, a
    configuration returned by [Load] has clean [env_keys] and [pin_slices]
    (no duplicates, every entry non-empty and trimmed) and trimmed CPU-list
    overrides.  When the executable names of the configuration file and the
    files read are made of ASCII bytes, [exe_allowlist] and [ignore_exe]
    have no duplicates either and hold clean ASCII names in lower case. *)
Theorem Load_tidy decode parseDuration dip home join readFile path cfg :
  ConfigFile.Load decode parseDuration dip home join readFile path = Ok cfg ->
  (NoDup (ConfigFile.EnvKeys cfg) /\ Forall clean (ConfigFile.EnvKeys cfg)
   /\ NoDup (ConfigFile.PinSlices cfg) /\ Forall clean (ConfigFile.PinSlices cfg)
   /\ GoStrings.TrimSpace (ConfigFile.OSCPUsOverride cfg) = ConfigFile.OSCPUsOverride cfg
   /\ GoStrings.TrimSpace (ConfigFile.GameCPUsOverride cfg) = ConfigFile.GameCPUsOverride cfg)
  /\ (asciiNames decode readFile ->
      NoDup (ConfigFile.ExeAllowlist cfg) /\ Forall lowerName (ConfigFile.ExeAllowlist cfg)
      /\ NoDup (ConfigFile.IgnoreExe cfg) /\ Forall lowerName (ConfigFile.IgnoreExe cfg)).
Proof.
  intros Hload.
  destruct (Load_inv _ _ _ _ _ _ _ _ Hload) as (cfg0 & Ht0 & Hrest).
  destruct (withIgnoreList_tidy _ _ _ _ _ _ Ht0 Hrest)
    as (H1 & H2 & H3 & H4 & H5 & H6 & H7 & H8 & H9 & H10).
  split; [tauto|]. intros Hascii.
  destruct (Load_ascii _ _ _ _ _ _ _ _ Hascii Hload) as [Hexe Hign].
  split; [exact H3|]. split; [|split; [exact H5|]].
  - apply Forall_forall. intros x Hx. split.
    + exact (proj1 (Forall_forall _ _) H4 x Hx).
    + exact (proj1 (Forall_forall _ _) Hexe x Hx).
  - apply Forall_forall. intros x Hx. split.
    + exact (proj1 (Forall_forall _ _) H6 x Hx).
    + exact (proj1 (Forall_forall _ _) Hign x Hx).
Qed.

Lemma Load_tidy_witness :
  asciiNames Cases.decode Cases.readFile
  /\ exists cfg,
       ConfigFile.Load Cases.decode Cases.parseDuration (Ok "~/.config/ccdbind/ignore.txt")
         (Ok "/home/u") Cases.join Cases.readFile "config.toml" = Ok cfg
       /\ ConfigFile.ExeAllowlist cfg = ["game.exe"]
       /\ ConfigFile.IgnoreExe cfg = ["steam"; "wine"]
       /\ ConfigFile.PinSlices cfg = ["app.slice"]
       /\ Forall clean (ConfigFile.PinSlices cfg)
       /\ Forall lowerName (ConfigFile.IgnoreExe cfg).
Proof.
  assert (Hascii : asciiNames Cases.decode Cases.readFile).
  { split.
    - intros data tc [= <-]. split; repeat constructor.
    - intros p data. unfold Cases.readFile.
      destruct (decide (p = "config.toml")); [now intros [= <-]|].
      destruct (decide (p = "/home/u/ignore.txt")); [now intros [= <-]|discriminate]. }
  split; [exact Hascii|].
  destruct (ConfigFile.Load Cases.decode Cases.parseDuration
              (Ok "~/.config/ccdbind/ignore.txt") (Ok "/home/u") Cases.join
              Cases.readFile "config.toml") as [cfg|e] eqn:Hload;
    [|vm_compute in Hload; discriminate Hload].
  exists cfg. split; [reflexivity|].
  destruct (Load_tidy _ _ _ _ _ _ _ _ Hload) as ((_ & _ & _ & Hpin & _) & Hexe).
  destruct (Hexe Hascii) as (_ & _ & _ & Hign).
  vm_compute in Hload. injection Hload as <-.
  split; [reflexivity|]. split; [reflexivity|]. split; [reflexivity|].
  split; [exact Hpin|exact Hign].
Defined.

(** X6: [Load] fails only when a file cannot be read for a reason other
    than not existing, when the file does not decode, when its interval does
    not parse, or when the default ignore path cannot be built; a missing
    configuration file or ignore list is never an error. *)
Theorem Load_failures decode parseDuration dip home join readFile path e :
  ConfigFile.Load decode parseDuration dip home join readFile path = Err e ->
  (path <> EmptyString /\ readFile path = ConfigFile.Failed e)
  \/ (exists data, path <> EmptyString /\ readFile path = ConfigFile.Got data
                   /\ decode data = Err e)
  \/ (exists data tc e',
        readFile path = ConfigFile.Got data /\ decode data = Ok tc
        /\ ConfigFile.tInterval tc <> EmptyString
        /\ parseDuration (ConfigFile.tInterval tc) = Err e'
        /\ e = Wrapped "invalid interval" e')
  \/ dip = Err e
  \/ (exists p, readFile p = ConfigFile.Failed e).
Proof.
  unfold ConfigFile.Load.
  destruct (if decide (path <> EmptyString) then _ else _) as [cfg0|e0] eqn:Hfile.
  - intros Hlist. right; right; right. unfold ConfigFile.withIgnoreList in Hlist.
    destruct (decide (GoStrings.TrimSpace (ConfigFile.IgnoreFile cfg0) = EmptyString)).
    + destruct dip as [ip|e1]; [|left; congruence]. right. cbn zeta in Hlist.
      destruct (readFile _) as [data| |e2] eqn:Hread in Hlist; cbn in Hlist;
        try discriminate. injection Hlist as <-. eauto.
    + right. cbn zeta in Hlist.
      destruct (readFile _) as [data| |e2] eqn:Hread in Hlist; cbn in Hlist;
        try discriminate. injection Hlist as <-. eauto.
  - intros [= <-]. destruct (decide (path <> EmptyString)) as [Hp|]; [|discriminate].
    destruct (readFile path) as [data| |e1] eqn:Hread; [| discriminate |left; split; congruence].
    destruct (decode data) as [tc|e1] eqn:Hdec; [|right; left; exists data; split; [done|]; split; congruence].
    right; right; left. unfold ConfigFile.overlay in Hfile.
    destruct (decide (ConfigFile.tInterval tc <> EmptyString)) as [Hi|]; [|discriminate].
    destruct (parseDuration _) as [d|e'] eqn:Hdur; [discriminate|].
    injection Hfile as <-. exists data, tc, e'. done.
Qed.

Lemma Load_failures_witness :
  ConfigFile.Load Cases.decode Cases.parseDuration (Ok "~/.config/ccdbind/ignore.txt")
    (Ok "/home/u") Cases.join Cases.readFileDenied "config.toml"
  = Err (HostError "permission denied")
  /\ exists p, Cases.readFileDenied p = ConfigFile.Failed (HostError "permission denied").
Proof.
  assert (Hrun :
    ConfigFile.Load Cases.decode Cases.parseDuration (Ok "~/.config/ccdbind/ignore.txt")
      (Ok "/home/u") Cases.join Cases.readFileDenied "config.toml"
    = Err (HostError "permission denied")) by (vm_compute; reflexivity).
  split; [exact Hrun|].
  destruct (Load_failures _ _ _ _ _ _ _ _ Hrun)
    as [(_ & Hbad)|[(data & _ & _ & Hbad)|[(data & tc & e' & _ & _ & _ & _ & Hbad)|[Hbad|Hp]]]].
  - vm_compute in Hbad. discriminate Hbad.
  - vm_compute in Hbad. discriminate Hbad.
  - discriminate Hbad.
  - discriminate Hbad.
  - exact Hp.
Defined.

(** ** Runs that add only events of one kind *)

Section OnlyBasics.
Context {W : Type} `{Supervisor W} `{Storage W} {Mem : Type}.
Variable P : event -> Prop.

Lemma only_emit e : P e -> respects (@addsOnly W Mem P) (emit e).
Proof.
  intros He p res p' Hrun. rewrite emit_run in Hrun. injection Hrun as _ <-.
  exists [e]. split; [done|]. now constructor.
Qed.

Lemma only_same_trace {A} (c : M (Proc W Mem) A) :
  (forall p res p', c p = (res, p') -> trace p' = trace p) ->
  respects (@addsOnly W Mem P) c.
Proof.
  intros Hc p res p' Hrun. exists []. rewrite app_nil_r. split; [eauto|constructor].
Qed.

Lemma only_setMem f : respects (@addsOnly W Mem P) (setMem f).
Proof. apply only_same_trace. now intros p res p' [= _ <-]. Qed.

Lemma only_onHost {A} (f : W -> result A * W) : respects (@addsOnly W Mem P) (onHost f).
Proof.
  apply only_same_trace. intros p res p'. unfold onHost.
  destruct (f (host p)). now intros [= _ <-].
Qed.

Lemma only_onHostE (f : W -> option error * W) : respects (@addsOnly W Mem P) (onHostE f).
Proof.
  apply only_same_trace. intros p res p'. unfold onHostE.
  destruct (f (host p)) as [[e|] w]; now intros [= _ <-].
Qed.

End OnlyBasics.

(** [only_steps tac] walks through a monadic program; [tac] shows that an
    emitted event is of the kind allowed *)
Ltac only_steps tac :=
  repeat first
    [ assumption
    | apply only_setMem
    | apply only_onHost
    | apply only_onHostE
    | apply only_emit; solve [tac]
    | apply respects_ret; apply _
    | apply respects_fail; apply _
    | apply respects_gets; apply _
    | apply respects_try
    | apply respects_wrapErr
    | apply respects_bind; [apply _| |intro]
    | apply respects_forEach; [apply _|intro]
    | match goal with
      | |- respects _ (if ?b then _ else _) => destruct b
      | |- respects _ (match ?x with _ => _ end) => destruct x
      end ].

Section OnlyRequests.
Context {W : Type} `{Supervisor W} `{Storage W} {Mem : Type}.
Variable P : event -> Prop.
Hypothesis requests : forall e, isRequest e -> P e.

Local Abbreviation only := (respects (@addsOnly W Mem P)).

Lemma only_Get sys u : only (Systemctl_GetAllowedCPUs sys u).
Proof. unfold Systemctl_GetAllowedCPUs. only_steps ltac:(now apply requests). Qed.

Lemma only_Set sys u v : only (Systemctl_SetAllowedCPUs sys u v).
Proof. unfold Systemctl_SetAllowedCPUs. only_steps ltac:(now apply requests). Qed.

Lemma only_StartUnit sys u : only (Systemctl_StartUnit sys u).
Proof. unfold Systemctl_StartUnit. only_steps ltac:(now apply requests). Qed.

Lemma only_Ensure mgr u l sl d : only (EnsureTransientScope mgr u l sl d).
Proof. unfold EnsureTransientScope. only_steps ltac:(now apply requests). Qed.

Lemma only_Attach mgr u sub l : only (AttachProcesses mgr u sub l).
Proof. unfold AttachProcesses. only_steps ltac:(now apply requests). Qed.

End OnlyRequests.

(** ** The game loop of [handleTick] *)

Section GameLoopFacts.
Context {W : Type} `{Supervisor W} `{Storage W}.
Variable UN : string -> string.
Implicit Types p : Proc W Daemon.Mem.

Lemma gameStep_requests sys mgr games alive0 gameID :
  respects (@addsOnly W Daemon.Mem isRequest) (Daemon.gameStep UN sys mgr games alive0 gameID).
Proof.
  unfold Daemon.gameStep, getMem.
  pose proof (only_Set (Mem := Daemon.Mem) isRequest (fun e He => He)) as HS.
  pose proof (only_Ensure (Mem := Daemon.Mem) isRequest (fun e He => He)) as HE.
  pose proof (only_Attach (Mem := Daemon.Mem) isRequest (fun e He => He)) as HA.
  only_steps idtac; first [apply HS|apply HE|apply HA].
Qed.

Lemma gameLoop_requests sys mgr games gameIDs alive0 :
  respects (@addsOnly W Daemon.Mem isRequest) (Daemon.gameLoop UN sys mgr games alive0 gameIDs).
Proof.
  revert alive0. induction gameIDs as [|g rest IH]; intros alive0; cbn [Daemon.gameLoop].
  - apply respects_ret; apply _.
  - apply respects_bind; [apply _|apply gameStep_requests|intros a; apply IH].
Qed.

Lemma readAllowedCPUsInto_requests sys l out :
  respects (@addsOnly W Daemon.Mem isRequest) (Daemon.readAllowedCPUsInto sys l out).
Proof.
  revert out. induction l as [|u l IH]; intros out; cbn [Daemon.readAllowedCPUsInto].
  - apply respects_ret; apply _.
  - apply respects_bind; [apply _| |intros val; apply IH].
    apply (only_Get isRequest). auto.
Qed.

Lemma gameStep_alive sys mgr games alive0 gameID p alive' p' :
  Daemon.gameStep UN sys mgr games alive0 gameID p = (Ok alive', p') ->
  alive' = list_to_set (map PID (default [] (games !! gameID))) ∪ alive0.
Proof.
  intros Hrun. destruct (games !! gameID) as [procs|] eqn:Hg; cycle 1.
  { unfold Daemon.gameStep in Hrun. rewrite Hg in Hrun. cbn in Hrun.
    injection Hrun as <- _. set_solver. }
  destruct (decide (procs = [])) as [->|Hne].
  { unfold Daemon.gameStep in Hrun. rewrite Hg in Hrun. cbn in Hrun.
    injection Hrun as <- _. set_solver. }
  destruct (gameStep_Ok UN _ _ _ _ _ _ _ _ _ Hg Hne Hrun) as (c & p1 & p2 & _ & _ & -> & _).
  unfold Daemon.visitAll. rewrite visitAll_app. cbn [Daemon.alive from_option id]. done.
Qed.

Lemma gameLoop_alive sys mgr games gameIDs alive0 p alive' p' :
  Daemon.gameLoop UN sys mgr games alive0 gameIDs p = (Ok alive', p') ->
  forall pid, pid ∈ alive' -> pid ∈ alive0 \/ observed games pid.
Proof.
  revert alive0 p. induction gameIDs as [|g rest IH]; intros alive0 p Hrun pid Hpid;
    cbn [Daemon.gameLoop] in Hrun.
  - injection Hrun as <- _. now left.
  - apply bind_inv in Hrun as [(alive1 & p1 & Hstep & Hrest)|(e & _ & [=])].
    apply gameStep_alive in Hstep as ->.
    destruct (IH _ _ Hrest pid Hpid) as [Hin|Hobs]; [|now right].
    apply elem_of_union in Hin as [Hin|Hin]; [|now left]. right.
    apply elem_of_list_to_set, list_elem_of_fmap in Hin as (gp & -> & Hgp).
    destruct (games !! g) as [procs|] eqn:Hg; [|now apply elem_of_nil in Hgp].
    exists g, procs, gp. done.
Qed.

End GameLoopFacts.

(** X7: after a tick with games that completes, [pidToUnit] binds only
    pids of processes the tick was given: the bindings of every other pid
    have been deleted. *)
Theorem tick_drops_stale_bindings {W : Type} `{Supervisor W} `{Storage W}
    (UN : string -> string) sys mgr slices (games : Games)
    (p p' : Proc W Daemon.Mem) :
  size games <> 0%nat ->
  Daemon.handleTick UN sys mgr slices games p = (Ok tt, p') ->
  forall pid rec, pidToUnit (Daemon.r (mem p')) !! pid = Some rec -> observed games pid.
Proof.
  intros Hsz Hrun pid rec Hbound.
  unfold Daemon.handleTick in Hrun. rewrite decide_False in Hrun by done.
  apply bind_inv in Hrun as [(cur & p0 & _ & Hrun)|(e & _ & [=])].
  apply bind_inv in Hrun as [(m & q & _ & Hrun)|(e & _ & [=])].
  apply bind_inv in Hrun as [([] & p1 & _ & Hrun)|(e & _ & [=])].
  apply bind_inv in Hrun as [(seen & p2 & Hloop & Hrun)|(e & _ & [=])].
  rewrite setMem_run in Hrun. injection Hrun as <-.
  cbn [mem Daemon.setR Daemon.r Daemon.withPidToUnit pidToUnit] in Hbound.
  unfold Daemon.purge in Hbound. apply map_lookup_filter_Some in Hbound as (_ & Hseen).
  destruct (gameLoop_alive UN _ _ _ _ _ _ _ _ Hloop pid Hseen) as [Hin|Hobs];
    [set_solver|exact Hobs].
Qed.

Lemma tick_drops_stale_bindings_witness :
  size Scenario.gamesLater <> 0%nat
  /\ (Daemon.handleTick Scenario.unitName Scenario.sys Scenario.mgr Scenario.slices
        Scenario.gamesLater Cases.staleStart).1 = Ok tt
  /\ pidToUnit (Daemon.r (mem
       (Daemon.handleTick Scenario.unitName Scenario.sys Scenario.mgr Scenario.slices
          Scenario.gamesLater Cases.staleStart).2)) !! 7 = None
  /\ observed Scenario.gamesLater 42.
Proof.
  assert (Hsz : size Scenario.gamesLater <> 0%nat) by (vm_compute; discriminate).
  assert (Hrun :
    Daemon.handleTick Scenario.unitName Scenario.sys Scenario.mgr Scenario.slices
      Scenario.gamesLater Cases.staleStart
    = (Ok tt,
       (Daemon.handleTick Scenario.unitName Scenario.sys Scenario.mgr Scenario.slices
          Scenario.gamesLater Cases.staleStart).2)) by (vm_compute; reflexivity).
  split; [exact Hsz|]. split; [vm_compute; reflexivity|]. split; [vm_compute; reflexivity|].
  apply (tick_drops_stale_bindings Scenario.unitName Scenario.sys Scenario.mgr
           Scenario.slices Scenario.gamesLater Cases.staleStart _ Hsz Hrun 42
           (mkPidRecord (Scenario.unitName "730") 900%N)).
  vm_compute. reflexivity.
Defined.

(** ** The reapply test *)

Lemma reapplyScan_false os originals cur slices :
  Daemon.reapplyScan os originals cur slices = false <->
  forall u, u ∈ slices -> strAt cur u = os.
Proof.
  induction slices as [|u l IH]; cbn [Daemon.reapplyScan].
  - split; [|done]. intros _ u Hu. now apply elem_of_nil in Hu.
  - destruct (decide (strAt cur u <> os)) as [Hne|Heq].
    + split; [done|]. intros Hall. exfalso. apply Hne, Hall, list_elem_of_here.
    + assert (Hu : strAt cur u = os) by (destruct (decide (strAt cur u = os)); tauto).
      assert (Hrest : Daemon.reapplyScan os originals cur l = false <->
                      forall u0, u0 ∈ u :: l -> strAt cur u0 = os).
      { rewrite IH. split.
        - intros Hall u0 [->|Hin]%elem_of_cons; auto.
        - intros Hall u0 Hin. apply Hall. now apply elem_of_cons; right. }
      destruct originals as [o|]; [|exact Hrest].
      destruct (o !! u); exact Hrest.
Qed.

(** X8: while games run, the pin is (re)applied exactly when it is not
    recorded as applied or some managed slice does not currently read
    [os_cpus]; whether [original_allowed_cpus] has an entry for a slice
    plays no part in the test. *)
Theorem reapply_iff_drift (s : File) (x : runtime) (cur : gmap string string)
    (slices : list string) :
  Daemon.reapplyNeeded s x cur slices = true <->
  PinApplied s = false \/ exists u, u ∈ slices /\ strAt cur u <> osCPUs x.
Proof.
  unfold Daemon.reapplyNeeded. destruct (PinApplied s); [|split; auto].
  split.
  - intros Hneed. right.
    destruct (decide (Exists (fun u => strAt cur u <> osCPUs x) slices)) as [Hex|Hno].
    + apply Exists_exists in Hex. exact Hex.
    + exfalso. assert (Hfalse : Daemon.reapplyScan (osCPUs x) (OriginalAllowedCPUs s) cur slices = false).
      { apply reapplyScan_false. intros u Hu.
        destruct (decide (strAt cur u = osCPUs x)) as [|Hne]; [done|].
        exfalso. apply Hno, Exists_exists. eauto. }
      congruence.
  - intros [[=]|(u & Hu & Hne)].
    destruct (Daemon.reapplyScan _ _ _ _) eqn:Hscan; [done|].
    exfalso. apply Hne. exact (proj1 (reapplyScan_false _ _ _ _) Hscan u Hu).
Qed.

(** X9: a tick with games in which the pin is recorded as applied and every
    managed slice reads [os_cpus] is the read of the slices followed by the
    game loop: the state structure is left as it is and nothing but
    requests is added to the trace, so the state file is not written. *)
Theorem steady_tick {W : Type} `{Supervisor W} `{Storage W}
    (UN : string -> string) sys mgr slices (games : Games)
    (p p0 : Proc W Daemon.Mem) cur :
  size games <> 0%nat ->
  PinApplied (Daemon.st (mem p)) = true ->
  Daemon.readAllowedCPUs sys slices p = (Ok cur, p0) ->
  (forall u, u ∈ slices -> strAt cur u = osCPUs (Daemon.r (mem p))) ->
  Daemon.handleTick UN sys mgr slices games p
  = (seen <- Daemon.gameLoop UN sys mgr games ∅ (Daemon.sortedGameIDs games) ;;
     setMem (Daemon.setR (Daemon.withPidToUnit (Daemon.purge seen)))) p0
  /\ Daemon.st (mem (Daemon.handleTick UN sys mgr slices games p).2) = Daemon.st (mem p)
  /\ addsOnly isRequest p (Daemon.handleTick UN sys mgr slices games p).2.
Proof.
  intros Hsz Hpin Hread Hall.
  destruct (readAllowedCPUs_Ok _ _ _ _ _ Hread) as (Hm0 & _).
  assert (Hneed : Daemon.reapplyNeeded (Daemon.st (mem p)) (Daemon.r (mem p)) cur slices = false).
  { unfold Daemon.reapplyNeeded. rewrite Hpin. now apply reapplyScan_false. }
  assert (Heq : Daemon.handleTick UN sys mgr slices games p
    = (seen <- Daemon.gameLoop UN sys mgr games ∅ (Daemon.sortedGameIDs games) ;;
       setMem (Daemon.setR (Daemon.withPidToUnit (Daemon.purge seen)))) p0).
  { unfold Daemon.handleTick. rewrite decide_False by done.
    rewrite (bind_Ok _ _ _ _ _ Hread).
    unfold bind at 1. rewrite getMem_run, Hm0, Hneed.
    unfold bind at 1. unfold ret at 1. reflexivity. }
  split; [exact Heq|]. rewrite Heq.
  destruct ((seen <- Daemon.gameLoop UN sys mgr games ∅ (Daemon.sortedGameIDs games) ;;
             setMem (Daemon.setR (Daemon.withPidToUnit (Daemon.purge seen)))) p0)
    as [res p'] eqn:Hrun. cbn [snd].
  split.
  - rewrite <- Hm0. revert Hrun.
    apply (respects_bind (@sameSt W)); [apply gameLoop_sameSt|intros a; apply sameSt_setR].
  - etrans.
    + exact (readAllowedCPUsInto_requests _ _ _ _ _ _ Hread).
    + revert Hrun.
      apply (respects_bind (@addsOnly W Daemon.Mem isRequest));
        [apply gameLoop_requests|intros a; apply only_setMem].
Qed.

Lemma steady_tick_witness :
  size Scenario.gamesLater <> 0%nat
  /\ PinApplied (Daemon.st (mem Cases.staleStart)) = true
  /\ Daemon.st (mem
       (Daemon.handleTick Scenario.unitName Scenario.sys Scenario.mgr Scenario.slices
          Scenario.gamesLater Cases.staleStart).2) = Daemon.st (mem Cases.staleStart)
  /\ addsOnly isRequest Cases.staleStart
       (Daemon.handleTick Scenario.unitName Scenario.sys Scenario.mgr Scenario.slices
          Scenario.gamesLater Cases.staleStart).2.
Proof.
  assert (Hsz : size Scenario.gamesLater <> 0%nat) by (vm_compute; discriminate).
  assert (Hread :
    Daemon.readAllowedCPUs Scenario.sys Scenario.slices Cases.staleStart
    = (Ok {[ "app.slice" := "0-7"; "background.slice" := "0-7" ]},
       (Daemon.readAllowedCPUs Scenario.sys Scenario.slices Cases.staleStart).2))
    by (vm_compute; reflexivity).
  assert (Hall : forall u, u ∈ Scenario.slices ->
    strAt {[ "app.slice" := "0-7"; "background.slice" := "0-7" ]} u
    = osCPUs (Daemon.r (mem Cases.staleStart))).
  { intros u Hu. unfold Scenario.slices in Hu.
    apply elem_of_cons in Hu as [->|Hu]; [vm_compute; reflexivity|].
    apply list_elem_of_singleton in Hu as ->. vm_compute; reflexivity. }
  split; [exact Hsz|]. split; [reflexivity|].
  exact (proj2 (steady_tick Scenario.unitName Scenario.sys Scenario.mgr Scenario.slices
                  Scenario.gamesLater Cases.staleStart _ _ Hsz eq_refl Hread Hall)).
Defined.

(** ** The loop of [runDaemon] and its exit *)

Section DaemonLoop.
Context {W : Type} `{Supervisor W} `{Storage W}.
Variable UN : string -> string.
Implicit Types p : Proc W Daemon.Mem.

Lemma exit_run sys mgr slices p :
  Daemon.tickLoop UN sys mgr slices [] p =
  if PinApplied (Daemon.st (mem p)) then
    match Daemon.restoreSlices sys slices (OriginalAllowedCPUs (Daemon.st (mem p))) p with
    | (Err _, q) => (Ok tt, q)
    | (Ok _, q) =>
        let q1 := mkProc (Daemon.setSt (Daemon.markRestored (host_now (host q))) (mem q))
                    (host q) (trace q) in
        (Ok tt, (Daemon.saveState q1).2)
    end
  else (Ok tt, p).
Proof.
  cbn [Daemon.tickLoop]. unfold bind at 1. rewrite getMem_run.
  destruct (PinApplied (Daemon.st (mem p))); [|reflexivity].
  unfold bind at 1. rewrite try_run.
  destruct (Daemon.restoreSlices _ _ _ p) as [[[]|e] q]; cbn [fst snd]; [|reflexivity].
  unfold bind at 1. rewrite timeNow_run.
  unfold bind at 1. rewrite setMem_run.
  unfold bind at 1. rewrite try_run. reflexivity.
Qed.

End DaemonLoop.


(** X11: when the daemon stops with the pin applied it sets the managed
    slices back to their originals; if every call succeeds the state is
    marked as restored (originals kept) and handed to [state.Save] as the
    last action, and if one fails the state structure is left as it was, pin
    still recorded as applied, and nothing is saved.  With no pin applied the
    exit does nothing. *)
Theorem exit_restore {W : Type} `{Supervisor W} `{Storage W}
    (UN : string -> string) sys mgr slices (p : Proc W Daemon.Mem) :
  let p' := (Daemon.tickLoop UN sys mgr slices [] p).2 in
  let originals := OriginalAllowedCPUs (Daemon.st (mem p)) in
  if PinApplied (Daemon.st (mem p)) then
    match (Daemon.restoreSlices sys slices originals p).1 with
    | Ok _ =>
        PinApplied (Daemon.st (mem p')) = false
        /\ OriginalAllowedCPUs (Daemon.st (mem p')) = originals
        /\ trace p'
           = trace p ++ map (fun u => setEvent sys u (strAtNil originals u)) slices
               ++ [StateSaved (Daemon.st (mem p'))]
    | Err _ =>
        Daemon.st (mem p') = Daemon.st (mem p)
        /\ exists n, (0 < n <= length slices)%nat
             /\ trace p'
                = trace p ++ map (fun u => setEvent sys u (strAtNil originals u)) (take n slices)
    end
  else p' = p.
Proof.
  cbn zeta. rewrite exit_run. destruct (PinApplied (Daemon.st (mem p))) eqn:Hpin; [|done].
  destruct (Daemon.restoreSlices _ _ _ p) as [[[]|e] q] eqn:Hrest; cbn [fst snd].
  - destruct (forEach_Set _ _ _ _ _ _ Hrest) as (Hm & n & Hn & Ht & Hok & _).
    rewrite (Hok eq_refl), firstn_all in Ht.
    destruct (Daemon.saveState _) as [r q2] eqn:Hsave. cbn [snd].
    destruct (saveState_frame _ _ _ Hsave) as (Hm2 & Ht2). cbn [mem trace] in Hm2, Ht2.
    rewrite Hm2, Ht2, Ht, Hm, <- app_assoc. done.
  - destruct (forEach_Set _ _ _ _ _ _ Hrest) as (Hm & n & Hn & Ht & _ & Herr).
    rewrite Hm. split; [done|]. exists n. split; [|exact Ht].
    split; [exact (Herr e eq_refl)|exact Hn].
Qed.

(** ** [readAllowedCPUs] *)

Section ReadAllowed.
Context {W : Type} `{Supervisor W} `{Storage W}.
Implicit Types p : Proc W Daemon.Mem.


End ReadAllowed.


(** ** The executable name and the start time of a process *)

Lemma IndexByte_None_cons a s c :
  GoMore.IndexByte (String a s) c = None <-> a <> c /\ GoMore.IndexByte s c = None.
Proof.
  cbn [GoMore.IndexByte]. destruct (Ascii.eqb_spec a c) as [->|Hne].
  - split; [done|]. now intros [? _].
  - destruct (GoMore.IndexByte s c); cbn [option_map]; split; try done. now intros [_ ?].
Qed.

Lemma IndexByte_None_app s1 s2 c :
  GoMore.IndexByte (s1 +:+ s2) c = None <->
  GoMore.IndexByte s1 c = None /\ GoMore.IndexByte s2 c = None.
Proof.
  induction s1 as [|a s1 IH].
  - change (EmptyString +:+ s2) with s2. cbn [GoMore.IndexByte]. tauto.
  - change (String a s1 +:+ s2) with (String a (s1 +:+ s2)).
    rewrite !IndexByte_None_cons, IH. tauto.
Qed.

Lemma IndexByte_None_rev_app s acc c :
  GoMore.IndexByte (String.rev_app s acc) c = None <->
  GoMore.IndexByte s c = None /\ GoMore.IndexByte acc c = None.
Proof.
  revert acc. induction s as [|a s IH]; intros acc; cbn [String.rev_app].
  - cbn [GoMore.IndexByte]. tauto.
  - rewrite IH, !IndexByte_None_cons. tauto.
Qed.

Lemma IndexByte_None_rev s c :
  GoMore.IndexByte (String.rev s) c = None <-> GoMore.IndexByte s c = None.
Proof. unfold String.rev. rewrite IndexByte_None_rev_app. cbn [GoMore.IndexByte]. tauto. Qed.

Lemma IndexByte_None_TrimSpace s c :
  GoMore.IndexByte s c = None -> GoMore.IndexByte (GoStrings.TrimSpace s) c = None.
Proof.
  destruct (TrimSpace_inside s) as (p & q & Heq). rewrite Heq at 1.
  rewrite !IndexByte_None_app. tauto.
Qed.

Lemma IndexByte_None_takeToSlash s :
  GoMore.IndexByte (Procscan.takeToSlash s) "/"%char = None.
Proof.
  induction s as [|a s IH]; cbn [Procscan.takeToSlash]; [done|].
  destruct (Ascii.eqb_spec a "/"%char) as [->|Hne]; [done|].
  apply IndexByte_None_cons. done.
Qed.

Lemma lowerChar_slash a : a <> "/"%char -> Procscan.lowerChar a <> "/"%char.
Proof. destruct a as [[] [] [] [] [] [] [] []]; vm_compute; congruence. Qed.

Lemma IndexByte_None_ToLower s :
  GoMore.IndexByte s "/"%char = None -> GoMore.IndexByte (Procscan.ToLower s) "/"%char = None.
Proof.
  induction s as [|a s IH]; [done|]. cbn [Procscan.ToLower].
  rewrite !IndexByte_None_cons. intros (Ha & Hs). split; [now apply lowerChar_slash|auto].
Qed.

Lemma isASCII_dropSlashes s : isASCII s = true -> isASCII (Procscan.dropSlashes s) = true.
Proof.
  induction s as [|c s IH]; [done|]. intros Hs. cbn [Procscan.dropSlashes].
  destruct (Ascii.eqb_spec c "/"%char) as [->|Hne].
  - apply IH. cbn [isASCII] in Hs. now apply andb_true_iff in Hs as [_ Hs].
  - destruct c as [[] [] [] [] [] [] [] []]; try exact Hs. now destruct Hne.
Qed.

Lemma isASCII_takeToSlash s : isASCII s = true -> isASCII (Procscan.takeToSlash s) = true.
Proof.
  induction s as [|c s IH]; [done|]. cbn [Procscan.takeToSlash isASCII].
  intros [Hc Hs]%andb_true_iff. destruct (Ascii.eqb c "/"%char); [reflexivity|].
  cbn [isASCII]. now rewrite Hc, IH.
Qed.

Lemma isASCII_Base path : isASCII path = true -> isASCII (Procscan.Base path) = true.
Proof.
  intros Hp. unfold Procscan.Base. destruct path as [|a t]; [reflexivity|].
  destruct (String.rev (Procscan.takeToSlash _)) as [|b r] eqn:Hrev; [reflexivity|].
  rewrite <- Hrev, isASCII_rev. apply isASCII_takeToSlash, isASCII_dropSlashes.
  now rewrite isASCII_rev.
Qed.

(** X13: for a link whose target is made of ASCII bytes, the executable
    name [exeBasenameLowerAt] reports is empty or a bare lower-case name: it
    is made of ASCII bytes, contains no [/], has no white space around it,
    is left unchanged by [strings.ToLower], and is never [.]; it is empty
    exactly when the link cannot be read or its base name is blank, [.] or
    [/]. *)
Theorem exeBasenameLowerAt_bare (link : result string) :
  match link with Ok target => isASCII target = true | Err _ => True end ->
  let exe := Procscan.exeBasenameLowerAt link in
  isASCII exe = true
  /\ GoMore.IndexByte exe "/"%char = None
  /\ GoStrings.TrimSpace exe = exe
  /\ Procscan.ToLower exe = exe
  /\ exe <> "."
  /\ (exe = EmptyString <->
      match link with
      | Err _ => True
      | Ok target =>
          let base := GoStrings.TrimSpace (Procscan.Base target) in
          base = EmptyString \/ base = "." \/ base = "/"
      end).
Proof.
  intros Hascii. cbn zeta. unfold Procscan.exeBasenameLowerAt.
  destruct link as [target|e]; [|done].
  set (base := GoStrings.TrimSpace (Procscan.Base target)).
  destruct (decide (base = EmptyString \/ base = "." \/ base = "/")) as [Hskip|Hkeep]; [done|].
  assert (Hne : base <> EmptyString) by tauto.
  assert (Hdot : base <> ".") by tauto.
  assert (Hsl : base <> "/") by tauto.
  split; [|split; [|split; [|split; [|split]]]].
  - rewrite isASCII_ToLower. unfold base. now apply isASCII_TrimSpace, isASCII_Base.
  - apply IndexByte_None_ToLower. unfold base in *. apply IndexByte_None_TrimSpace.
    unfold Procscan.Base in *. destruct target as [|a t]; [done|].
    destruct (String.rev (Procscan.takeToSlash _)) as [|b r] eqn:Hrev.
    + exfalso. apply Hsl. reflexivity.
    + rewrite <- Hrev. apply IndexByte_None_rev, IndexByte_None_takeToSlash.
  - unfold base. now rewrite ToLower_TrimSpace, TrimSpace_idem.
  - apply ToLower_idem.
  - intros Hd. apply Hdot. destruct base as [|a [|b r]]; cbn [Procscan.ToLower] in Hd;
      try discriminate. injection Hd as Ha.
    destruct a as [[] [] [] [] [] [] [] []]; vm_compute in Ha; try discriminate; reflexivity.
  - rewrite ToLower_empty. tauto.
Qed.

Lemma exeBasenameLowerAt_bare_witness :
  isASCII "/usr/bin/Steam " = true
  /\ Procscan.exeBasenameLowerAt (Ok "/usr/bin/Steam ") = "steam"
  /\ GoMore.IndexByte (Procscan.exeBasenameLowerAt (Ok "/usr/bin/Steam ")) "/"%char = None.
Proof.
  assert (Hascii : isASCII "/usr/bin/Steam " = true) by reflexivity.
  split; [exact Hascii|]. split; [vm_compute; reflexivity|].
  exact (proj1 (proj2 (exeBasenameLowerAt_bare (Ok "/usr/bin/Steam ") Hascii))).
Defined.

(** X14: the wrapper's [procStartTime] and the scanner's [procStartTimeAt]
    read the same start time from every [stat] content, and either both fail
    or both succeed. *)
Theorem start_time_parsers_agree (stat : result string) :
  match Procscan.procStartTimeAt stat, Wrapper.procStartTime stat with
  | Ok a, Ok b => a = b
  | Err _, Err _ => True
  | _, _ => False
  end.
Proof.
  unfold Procscan.procStartTimeAt, Wrapper.procStartTime.
  destruct stat as [data|e]; [|done]. cbn zeta.
  destruct (decide (GoStrings.TrimSpace data = EmptyString)) as [->|Hne]; [done|].
  destruct (Procscan.afterLastParen _) as [[|c0 [|c tail]]|]; try done.
  destruct (GoStrings.Fields _ !! 19%nat) as [f|]; [|done].
  destruct (Procscan.ParseUint f); done.
Qed.

Lemma afterLastParen_None s :
  Procscan.afterLastParen s = None <-> GoMore.IndexByte s ")"%char = None.
Proof.
  induction s as [|a s IH]; cbn [Procscan.afterLastParen]; [done|].
  rewrite IndexByte_None_cons.
  destruct (Procscan.afterLastParen s) as [t|].
  - split; [done|]. intros (_ & Hs). apply IH in Hs. discriminate.
  - destruct (Ascii.eqb_spec a ")"%char) as [->|Hne]; [split; [done|now intros [? _]]|].
    split; [|done]. intros _. split; [done|]. now apply IH.
Qed.

Lemma afterLastParen_app pre rest :
  GoMore.IndexByte rest ")"%char = None ->
  Procscan.afterLastParen (pre +:+ String ")"%char rest) = Some rest.
Proof.
  intros Hrest. induction pre as [|a pre IH].
  - change (EmptyString +:+ String ")"%char rest) with (String ")"%char rest).
    cbn [Procscan.afterLastParen].
    apply afterLastParen_None in Hrest. now rewrite Hrest.
  - change (String a pre +:+ String ")"%char rest)
      with (String a (pre +:+ String ")"%char rest)).
    cbn [Procscan.afterLastParen]. now rewrite IH.
Qed.

(** X15: [procStartTimeAt] looks only at what follows the last [)] of the
    trimmed [stat] content: whatever the pid and the command name before it
    are (the name may hold spaces and parentheses), the byte after that [)]
    is skipped and the start time is the 20th white-space separated field of
    the rest, parsed as an unsigned 64-bit decimal. *)
Theorem start_time_after_last_paren (data pre : string) (sep c : ascii) (tail f : string) :
  GoStrings.TrimSpace data = pre +:+ String ")"%char (String sep (String c tail)) ->
  GoMore.IndexByte (String sep (String c tail)) ")"%char = None ->
  GoStrings.Fields (String c tail) !! 19%nat = Some f ->
  Procscan.procStartTimeAt (Ok data) = Procscan.ParseUint f.
Proof.
  intros Hline Hno Hfield. unfold Procscan.procStartTimeAt. cbn zeta.
  rewrite Hline. rewrite decide_False by (now destruct pre).
  rewrite (afterLastParen_app _ _ Hno). now rewrite Hfield.
Qed.

Lemma start_time_after_last_paren_witness :
  GoStrings.TrimSpace Cases.statLine
  = "4242 (my game) x" +:+ String ")"%char (String " "%char (String "S"%char
      " 1 4242 4242 0 -1 4194304 100 0 0 0 5 3 0 0 20 0 1 0 903211 1000000 200"))
  /\ GoMore.IndexByte (String " "%char (String "S"%char
        " 1 4242 4242 0 -1 4194304 100 0 0 0 5 3 0 0 20 0 1 0 903211 1000000 200"))
        ")"%char = None
  /\ GoStrings.Fields (String "S"%char
        " 1 4242 4242 0 -1 4194304 100 0 0 0 5 3 0 0 20 0 1 0 903211 1000000 200")
      !! 19%nat = Some "903211"
  /\ Procscan.procStartTimeAt (Ok Cases.statLine) = Ok 903211%N.
Proof.
  assert (H1 : GoStrings.TrimSpace Cases.statLine
    = "4242 (my game) x" +:+ String ")"%char (String " "%char (String "S"%char
        " 1 4242 4242 0 -1 4194304 100 0 0 0 5 3 0 0 20 0 1 0 903211 1000000 200")))
    by (vm_compute; reflexivity).
  assert (H2 : GoMore.IndexByte (String " "%char (String "S"%char
        " 1 4242 4242 0 -1 4194304 100 0 0 0 5 3 0 0 20 0 1 0 903211 1000000 200"))
        ")"%char = None) by (vm_compute; reflexivity).
  assert (H3 : GoStrings.Fields (String "S"%char
        " 1 4242 4242 0 -1 4194304 100 0 0 0 5 3 0 0 20 0 1 0 903211 1000000 200")
      !! 19%nat = Some "903211") by (vm_compute; reflexivity).
  split; [exact H1|]. split; [exact H2|]. split; [exact H3|].
  rewrite (start_time_after_last_paren _ _ _ _ _ _ H1 H2 H3). vm_compute. reflexivity.
Defined.

(** ** [strconv.Itoa] and [strconv.Atoi] *)

Lemma string_of_uint_head d :
  d <> Decimal.Nil ->
  exists a r, NilEmpty.string_of_uint d = String a r
              /\ a <> "-"%char /\ a <> "+"%char.
Proof.
  destruct d; [done|..]; intros _; cbn [NilEmpty.string_of_uint]; eexists _, _;
    (split; [reflexivity|split; discriminate]).
Qed.

Lemma Atoi_digits d :
  d <> Decimal.Nil ->
  GoStrings.fitsInt (Z.of_uint d) = true ->
  GoStrings.Atoi (NilZero.string_of_uint d) = Some (Z.of_uint d).
Proof.
  intros Hd Hfits. unfold GoStrings.Atoi.
  pose proof (NilZero.usu d Hd) as Husu.
  assert (Hs : NilZero.string_of_uint d = NilEmpty.string_of_uint d) by now destruct d.
  destruct (string_of_uint_head d Hd) as (a & r & Hshape & Hm & Hp).
  rewrite Hs, Hshape in *.
  assert (Hsplit :
    match String a r with
    | String "-"%char r0 => (true, r0)
    | String "+"%char r0 => (false, r0)
    | _ => (false, String a r)
    end = (false, String a r)).
  { destruct a as [[] [] [] [] [] [] [] []]; try reflexivity; congruence. }
  rewrite Hsplit, Husu, Hfits. reflexivity.
Qed.

Lemma Atoi_Itoa z :
  GoStrings.fitsInt z = true -> GoStrings.Atoi (GoStrings.Itoa z) = Some z.
Proof.
  intros Hfits. unfold GoStrings.Itoa. destruct z as [|p|p]; cbn [Z.to_int NilZero.string_of_int].
  - reflexivity.
  - assert (Hz : Z.of_uint (Pos.to_uint p) = Z.pos p).
    { unfold Z.of_uint. now rewrite DecimalPos.Unsigned.of_to. }
    rewrite Atoi_digits; rewrite ?Hz; [done|apply DecimalPos.Unsigned.to_uint_nonnil|done].
  - assert (Hz : Z.of_uint (Pos.to_uint p) = Z.pos p).
    { unfold Z.of_uint. now rewrite DecimalPos.Unsigned.of_to. }
    unfold GoStrings.Atoi.
    rewrite (NilZero.usu _ (DecimalPos.Unsigned.to_uint_nonnil p)), Hz.
    change (- Z.pos p) with (Z.neg p). now rewrite Hfits.
Qed.

(** ** [pruneDeadInstances] *)

Section Prune.
Context {W : Type} `{Supervisor W}.

Lemma instanceLive_iff (w : W) k t :
  Ccdpin.instanceLive w k t = true <->
  exists pid live,
    GoStrings.Atoi k = Some pid /\ 0 < pid /\ host_proc_start pid w = Ok live
    /\ (t = 0 \/ live = 0 \/ live = t)%N.
Proof.
  unfold Ccdpin.instanceLive. destruct (GoStrings.Atoi k) as [pid|] eqn:Hk; cycle 1.
  { split; [done|]. now intros (? & ? & [=] & _). }
  destruct (decide (pid <= 0)) as [Hle|Hgt].
  { split; [done|]. intros (pid' & live' & Hk' & Hpos & _).
    injection Hk' as <-. lia. }
  destruct (host_proc_start pid w) as [live|e] eqn:Hlive; cycle 1.
  { split; [done|]. intros (pid' & live' & Hk' & _ & Hl & _).
    injection Hk' as <-. congruence. }
  destruct (N.eqb_spec t 0) as [Ht|Ht]; cbn [negb andb].
  { split; [|done]. intros _. exists pid, live. repeat split; auto; lia. }
  destruct (N.eqb_spec live 0) as [Hl|Hl]; cbn [negb andb].
  { split; [|done]. intros _. exists pid, live. repeat split; auto; lia. }
  destruct (N.eqb_spec live t) as [Heq|Hneq]; cbn [negb].
  { split; [|done]. intros _. exists pid, live. repeat split; auto; lia. }
  split; [done|]. intros (pid' & live' & Hk' & _ & Hl' & Hor).
  injection Hk' as <-. rewrite Hlive in Hl'. injection Hl' as <-.
  destruct Hor as [?|[?|?]]; done.
Qed.

Lemma prune_lookup (w : W) s k t :
  default ∅ (Instances (Ccdpin.pruneDeadInstances w s)) !! k = Some t <->
  default ∅ (Instances s) !! k = Some t /\ Ccdpin.instanceLive w k t = true.
Proof.
  unfold Ccdpin.pruneDeadInstances.
  destruct (decide (mapLen (Instances s) = 0%nat)) as [Hz|Hnz].
  - destruct (Instances s) as [i|] eqn:Hi; cbn [from_option id mapLen] in *.
    + apply map_size_empty_inv in Hz as ->. rewrite lookup_empty. split; [done|now intros [? _]].
    + rewrite lookup_empty. split; [done|now intros [? _]].
  - cbn [Instances Ccdpin.withInstances from_option id].
    rewrite map_lookup_filter_Some. done.
Qed.

Lemma prune_idem (w : W) s :
  Ccdpin.pruneDeadInstances w (Ccdpin.pruneDeadInstances w s) = Ccdpin.pruneDeadInstances w s.
Proof.
  destruct (decide (mapLen (Instances s) = 0%nat)) as [Hz|Hnz].
  - assert (Hs : Ccdpin.pruneDeadInstances w s = s).
    { unfold Ccdpin.pruneDeadInstances. now rewrite decide_True. }
    now rewrite !Hs.
  - assert (Hs : Ccdpin.pruneDeadInstances w s =
                 Ccdpin.withInstances
                   (Some (filter (fun kv => Ccdpin.instanceLive w kv.1 kv.2 = true)
                            (default ∅ (Instances s)))) s).
    { unfold Ccdpin.pruneDeadInstances. now rewrite decide_False. }
    rewrite Hs. unfold Ccdpin.pruneDeadInstances at 1.
    destruct (decide _) as [Hz'|Hnz']; [done|].
    unfold Ccdpin.withInstances.
    cbn [pVersion Instances pOriginalAllowedCPUs pOSCPUs Slices UpdatedAt from_option id].
    do 2 f_equal. apply map_eq. intros k. apply option_eq. intros t.
    rewrite !map_lookup_filter_Some. tauto.
Qed.

End Prune.

(** X16: [pruneDeadInstances] keeps exactly the entries whose key is the
    decimal form of a positive pid with a readable start time that does not
    contradict the recorded one (one of the two is zero, or they are equal),
    with the recorded start times unchanged; it leaves the other fields of
    the state alone, and pruning twice on the same host is pruning once. *)
Theorem prune_keeps_exactly_live {W : Type} `{Supervisor W} (w : W) (s : pinState) :
  (forall k t,
     default ∅ (Instances (Ccdpin.pruneDeadInstances w s)) !! k = Some t <->
     default ∅ (Instances s) !! k = Some t
     /\ exists pid live,
          GoStrings.Atoi k = Some pid /\ 0 < pid /\ host_proc_start pid w = Ok live
          /\ (t = 0 \/ live = 0 \/ live = t)%N)
  /\ Ccdpin.pruneDeadInstances w (Ccdpin.pruneDeadInstances w s)
     = Ccdpin.pruneDeadInstances w s
  /\ pVersion (Ccdpin.pruneDeadInstances w s) = pVersion s
  /\ pOriginalAllowedCPUs (Ccdpin.pruneDeadInstances w s) = pOriginalAllowedCPUs s
  /\ pOSCPUs (Ccdpin.pruneDeadInstances w s) = pOSCPUs s
  /\ Slices (Ccdpin.pruneDeadInstances w s) = Slices s
  /\ UpdatedAt (Ccdpin.pruneDeadInstances w s) = UpdatedAt s.
Proof.
  split; [|split; [apply prune_idem|]].
  - intros k t. rewrite prune_lookup, instanceLive_iff. done.
  - unfold Ccdpin.pruneDeadInstances. destruct (decide _); done.
Qed.

(** X17: a wrapper that is alive is never pruned by itself: when its pid is
    positive, its start time can be read and agrees with the one it recorded
    (or one of them is zero), pruning keeps its entry, and the removal at
    release then deletes it, so the wrapper is no longer counted. *)
Theorem live_wrapper_entry {W : Type} `{Supervisor W} (w : W)
    (m : Ccdpin.slicePinManager) (s : pinState) (live : N) :
  0 < Ccdpin.pid m ->
  GoStrings.fitsInt (Ccdpin.pid m) = true ->
  host_proc_start (Ccdpin.pid m) w = Ok live ->
  (Ccdpin.startTS m = 0 \/ live = 0 \/ live = Ccdpin.startTS m)%N ->
  default ∅ (Instances s) !! Ccdpin.instKey m = Some (Ccdpin.startTS m) ->
  default ∅ (Instances (Ccdpin.pruneDeadInstances w s)) !! Ccdpin.instKey m
    = Some (Ccdpin.startTS m)
  /\ default ∅ (Instances (Ccdpin.removeSelf m (Ccdpin.pruneDeadInstances w s)))
       !! Ccdpin.instKey m = None.
Proof.
  intros Hpos Hfits Hstart Hagree Hentry.
  assert (Hkept : default ∅ (Instances (Ccdpin.pruneDeadInstances w s)) !! Ccdpin.instKey m
                  = Some (Ccdpin.startTS m)).
  { apply prune_lookup. split; [exact Hentry|]. apply instanceLive_iff.
    exists (Ccdpin.pid m), live. unfold Ccdpin.instKey. rewrite Atoi_Itoa by done. done. }
  split; [exact Hkept|].
  unfold Ccdpin.removeSelf.
  destruct (Instances (Ccdpin.pruneDeadInstances w s)) as [i|] eqn:Hi;
    [|now rewrite Hi in *].
  cbn [from_option id] in Hkept. rewrite Hkept, N.eqb_refl, orb_true_r.
  cbn [Instances Ccdpin.withInstances from_option id]. apply lookup_delete_eq.
Qed.

Lemma live_wrapper_entry_witness :
  0 < Ccdpin.pid Scenario.pinA
  /\ GoStrings.fitsInt (Ccdpin.pid Scenario.pinA) = true
  /\ host_proc_start (Ccdpin.pid Scenario.pinA) (host Scenario.afterAB) = Ok 7%N
  /\ default ∅ (Instances (mem Scenario.afterAB)) !! Ccdpin.instKey Scenario.pinA
     = Some (Ccdpin.startTS Scenario.pinA)
  /\ default ∅ (Instances (Ccdpin.removeSelf Scenario.pinA
       (Ccdpin.pruneDeadInstances (host Scenario.afterAB) (mem Scenario.afterAB))))
       !! Ccdpin.instKey Scenario.pinA = None.
Proof.
  assert (Hpos : 0 < Ccdpin.pid Scenario.pinA) by (vm_compute; reflexivity).
  assert (Hstart : host_proc_start (Ccdpin.pid Scenario.pinA) (host Scenario.afterAB) = Ok 7%N)
    by (vm_compute; reflexivity).
  assert (Hentry :
    default ∅ (Instances (mem Scenario.afterAB)) !! Ccdpin.instKey Scenario.pinA
    = Some (Ccdpin.startTS Scenario.pinA)) by (vm_compute; reflexivity).
  split; [exact Hpos|]. split; [reflexivity|]. split; [exact Hstart|]. split; [exact Hentry|].
  apply (live_wrapper_entry (host Scenario.afterAB) Scenario.pinA (mem Scenario.afterAB) 7%N
           Hpos eq_refl Hstart); [right; right; reflexivity|exact Hentry].
Defined.

(** ** What the coordinator adds to the trace *)

Section CoordinatorOnly.
Context {W : Type} `{Supervisor W} `{Storage W}.
Implicit Types p : Proc W pinState.

Local Abbreviation co := (respects (@addsOnly W pinState coordinatorEvent)).

Lemma co_requests e : isRequest e -> coordinatorEvent e.
Proof. now destruct e. Qed.

Lemma co_Get sys u : co (Systemctl_GetAllowedCPUs sys u).
Proof. apply only_Get, co_requests. Qed.

Lemma co_Set sys u v : co (Systemctl_SetAllowedCPUs sys u v).
Proof. apply only_Set, co_requests. Qed.





Lemma co_probeSlices m l pinned cur : co (Ccdpin.probeSlices m l pinned cur).
Proof.
  revert pinned cur. induction l as [|u l IH]; intros pinned cur; cbn [Ccdpin.probeSlices].
  - apply respects_ret; apply _.
  - apply respects_bind; [apply _|apply respects_try, co_Get|].
    intros [val|e]; apply IH.
Qed.

Lemma co_rollback m l : co (Ccdpin.rollback m l).
Proof.
  induction l as [|u l IH]; cbn [Ccdpin.rollback].
  - apply respects_ret; apply _.
  - apply respects_bind; [apply _|apply respects_gets; apply _|]. intros s.
    destruct (_ !! u); [|exact IH].
    apply respects_bind; [apply _|apply respects_try, co_Set|]. intros _. exact IH.
Qed.

Lemma co_pinEach m pinned l : co (Ccdpin.pinEach m pinned l).
Proof.
  induction l as [|u l IH]; cbn [Ccdpin.pinEach].
  - apply respects_ret; apply _.
  - apply respects_bind; [apply _|apply respects_try, co_Set|].
    intros [[]|e]; [exact IH|].
    apply respects_bind; [apply _|apply co_rollback|].
    intros _. apply respects_fail; apply _.
Qed.

Lemma co_pinSlicesLocked m : co (Ccdpin.pinSlicesLocked m).
Proof.
  unfold Ccdpin.pinSlicesLocked.
  apply respects_bind; [apply _|apply co_probeSlices|].
  intros [pinned cur]. destruct pinned as [|u pinned].
  - apply respects_fail; apply _.
  - apply respects_bind; [apply _|apply only_setMem|intros _; apply co_pinEach].
Qed.





Lemma co_newSlicePinManager s sl os dbg : co (Ccdpin.newSlicePinManager s sl os dbg).
Proof. unfold Ccdpin.newSlicePinManager. only_steps ltac:(exact I). Qed.

End CoordinatorOnly.

(** ** The coordinator lock *)

Lemma lockHeldAfter_released evs : lockHeldAfter (evs ++ [LockReleased]) = false.
Proof. unfold lockHeldAfter. now rewrite foldl_app. Qed.

Section LockDiscipline.
Context {W : Type} `{Supervisor W} `{Storage W}.
Implicit Types p : Proc W pinState.

Lemma lockAndLoad_shape p res p1 :
  Ccdpin.lockAndLoad p = (res, p1) ->
  match res with
  | Ok _ => trace p1 = trace p ++ [LockTaken]
  | Err _ => trace p1 = trace p \/ trace p1 = trace p ++ [LockTaken; LockReleased]
  end.
Proof.
  unfold Ccdpin.lockAndLoad. unfold bind at 1. unfold onHostE at 1.
  destruct (fs_lock (host p)) as [[e|] w']; [intros [= <- <-]; now left|].
  unfold bind at 1. rewrite emit_run. cbn [mem host trace].
  unfold bind at 1. rewrite try_run. unfold onHost. cbn [mem host trace fst snd].
  destruct (fs_read_pin w') as [[s|]|e]; cbn [fst snd].
  - rewrite setMem_run. now intros [= <- <-].
  - rewrite setMem_run. now intros [= <- <-].
  - unfold bind at 1. rewrite unlock_run. intros [= <- <-]. right.
    cbn [trace]. now rewrite <- app_assoc.
Qed.

Lemma acquire_ends m p p1 :
  Ccdpin.lockAndLoad p = (Ok tt, p1) ->
  exists evs, trace (Ccdpin.AcquireAndPin m p).2 = trace p1 ++ evs ++ [LockReleased].
Proof.
  intros Hlock. unfold Ccdpin.AcquireAndPin. rewrite (bind_Ok _ _ _ _ _ Hlock).
  unfold bind at 1. rewrite try_run, acquireLocked_run. cbn zeta.
  destruct (decide (mapLen (Instances (atAcquire m p1)) = 1%nat)) as [Hone|Hmany].
  - destruct (Ccdpin.pinSlicesLocked m _) as [r2 p2] eqn:Hpin.
    destruct (co_pinSlicesLocked m _ _ _ Hpin) as (evs2 & Ht2 & _). cbn [trace] in Ht2.
    destruct r2 as [[]|e]; cbn [fst snd].
    + destruct (finishAcquire_run p2) as (r3 & w3 & Hfin). rewrite Hfin. cbn [fst snd].
      destruct r3 as [[]|e3].
      * cbn [ret snd trace]. exists (evs2 ++ [PinStateSaved
          (Ccdpin.fixVersion (Ccdpin.withUpdatedAt (host_now (host p2)) (mem p2)))]).
        rewrite Ht2, <- !app_assoc. reflexivity.
      * unfold bind at 1. rewrite unlock_run. cbn [fail snd trace].
        exists (evs2 ++ [PinStateSaved
          (Ccdpin.fixVersion (Ccdpin.withUpdatedAt (host_now (host p2)) (mem p2)));
          LockReleased]).
        rewrite Ht2, <- !app_assoc. reflexivity.
    + unfold bind at 1. rewrite unlock_run. cbn [fail snd trace].
      unfold afterFailedPin. cbn [trace].
      destruct (Ccdpin.saveLocked _) as [r q] eqn:Hsave. cbn [snd].
      destruct (saveLocked_frame _ _ _ Hsave) as (_ & Ht). cbn [trace mem] in Ht.
      exists (evs2 ++ [PinStateSaved (Ccdpin.fixVersion (Ccdpin.dropSelf m (mem p2)));
                       LockReleased]).
      rewrite Ht, Ht2, <- !app_assoc. reflexivity.
  - destruct (finishAcquire_run (mkProc (atAcquire m p1) (host p1) (trace p1)))
      as (r3 & w3 & Hfin).
    rewrite Hfin. cbn [fst snd trace host mem]. destruct r3 as [[]|e3].
    + cbn [ret snd trace]. eexists [_]. reflexivity.
    + unfold bind at 1. rewrite unlock_run. cbn [fail snd trace].
      eexists [_; _]. rewrite <- !app_assoc. reflexivity.
Qed.

Lemma restoreEach_total m originals l p :
  exists p', Ccdpin.restoreEach m originals l p = (Ok tt, p')
             /\ addsOnly coordinatorEvent p p' /\ mem p' = mem p.
Proof.
  revert p. induction l as [|u l IH]; intros p; cbn [Ccdpin.restoreEach].
  - exists p. split; [reflexivity|]. split; reflexivity.
  - unfold bind at 1. rewrite try_run.
    destruct (Systemctl_SetAllowedCPUs _ u _ p) as [r q] eqn:Hset. cbn [fst snd].
    destruct (IH q) as (p' & Hrun & Hadds & Hm). exists p'. split; [exact Hrun|].
    destruct (Set_frame _ _ _ _ _ _ Hset) as (Hmq & _).
    split; [|congruence]. etrans; [exact (co_Set _ _ _ _ _ _ Hset)|exact Hadds].
Qed.

Lemma release_ends m p p1 :
  Ccdpin.lockAndLoad p = (Ok tt, p1) ->
  exists p' evs,
    Ccdpin.releaseAndRestore m p = (Ok tt, p')
    /\ trace p' = trace p1 ++ evs ++ [LockReleased].
Proof.
  intros Hlock. unfold Ccdpin.releaseAndRestore.
  unfold bind at 1. rewrite try_run, Hlock. cbn [fst snd].
  unfold bind at 1. rewrite prune_run.
  unfold bind at 1. rewrite setMem_run. cbn [mem host trace].
  unfold bind at 1. rewrite getMem_run. cbn [mem].
  set (s2 := Ccdpin.removeSelf m _).
  assert (Hbranch : exists q,
    (if Ccdpin.restoreDue s2
     then Ccdpin.restoreEach m (pOriginalAllowedCPUs s2) (Slices s2) ;;; setMem Ccdpin.cleared
     else ret tt) (mkProc s2 (host p1) (trace p1)) = (Ok tt, q)
    /\ exists evs, trace q = trace p1 ++ evs).
  { destruct (Ccdpin.restoreDue s2).
    - destruct (restoreEach_total m (pOriginalAllowedCPUs s2) (Slices s2)
                  (mkProc s2 (host p1) (trace p1))) as (q & Hre & (evs & Ht & _) & _).
      eexists. unfold bind at 1. rewrite Hre, setMem_run. split; [reflexivity|].
      exists evs. exact Ht.
    - eexists. split; [reflexivity|]. exists []. now rewrite app_nil_r. }
  destruct Hbranch as (q & Hbranch & evs & Ht).
  unfold bind at 1. rewrite Hbranch.
  unfold bind at 1. rewrite timeNow_run.
  unfold bind at 1. rewrite setMem_run.
  unfold bind at 1. rewrite try_run.
  destruct (Ccdpin.saveLocked _) as [r q2] eqn:Hsave. cbn [fst snd].
  destruct (saveLocked_frame _ _ _ Hsave) as (_ & Ht2). cbn [mem trace] in Ht2.
  rewrite unlock_run. eexists _, (evs ++ [_]). split; [reflexivity|].
  cbn [trace]. rewrite Ht2, Ht, <- !app_assoc. reflexivity.
Qed.

Lemma acquire_lock_free m p :
  lockHeldAfter (added p (Ccdpin.AcquireAndPin m p).2) = false.
Proof.
  destruct (Ccdpin.lockAndLoad p) as [[[]|e] p1] eqn:Hlock;
    pose proof (lockAndLoad_shape _ _ _ Hlock) as Hshape; cbn beta iota in Hshape.
  - destruct (acquire_ends m p p1 Hlock) as (evs & Ht).
    rewrite (added_app p _ ([LockTaken] ++ evs ++ [LockReleased])).
    + rewrite app_assoc. apply lockHeldAfter_released.
    + rewrite Ht, Hshape, <- !app_assoc. reflexivity.
  - unfold Ccdpin.AcquireAndPin. rewrite (bind_Err _ _ _ _ _ Hlock). cbn [snd].
    destruct Hshape as [Ht|Ht].
    + rewrite (added_app p p1 []); [reflexivity|now rewrite app_nil_r].
    + rewrite (added_app p p1 _ Ht). reflexivity.
Qed.

Lemma release_total m p :
  exists p', Ccdpin.releaseAndRestore m p = (Ok tt, p')
             /\ lockHeldAfter (added p p') = false.
Proof.
  destruct (Ccdpin.lockAndLoad p) as [[[]|e] p1] eqn:Hlock;
    pose proof (lockAndLoad_shape _ _ _ Hlock) as Hshape; cbn beta iota in Hshape.
  - destruct (release_ends m p p1 Hlock) as (q' & evs' & Hrel & Ht').
    exists q'. split; [exact Hrel|].
    rewrite (added_app p _ ([LockTaken] ++ evs' ++ [LockReleased])).
    + rewrite app_assoc. apply lockHeldAfter_released.
    + rewrite Ht', Hshape, <- !app_assoc. reflexivity.
  - unfold Ccdpin.releaseAndRestore. unfold bind at 1. rewrite try_run, Hlock.
    cbn [fst snd]. rewrite emit_run. eexists. split; [reflexivity|].
    destruct Hshape as [Ht|Ht].
    + rewrite (added_app p _ [Warned "release lock"]); [reflexivity|].
      cbn [trace]. now rewrite Ht.
    + rewrite (added_app p _ [LockTaken; LockReleased; Warned "release lock"]); [reflexivity|].
      cbn [trace]. rewrite Ht, <- app_assoc. reflexivity.
Qed.

End LockDiscipline.

(** X18: the coordinator never returns with its lock held: in every run of
    [AcquireAndPin] and of [releaseAndRestore], successful or not, either
    the lock was not obtained or the last lock event is its release; and
    [releaseAndRestore] never fails. *)
Theorem coordinator_releases_lock {W : Type} `{Supervisor W} `{Storage W}
    (m : Ccdpin.slicePinManager) (p : Proc W pinState) :
  lockHeldAfter (added p (Ccdpin.AcquireAndPin m p).2) = false
  /\ (Ccdpin.releaseAndRestore m p).1 = Ok tt
  /\ lockHeldAfter (added p (Ccdpin.releaseAndRestore m p).2) = false.
Proof.
  split; [apply acquire_lock_free|].
  destruct (release_total m p) as (p' & -> & Hfree). done.
Qed.

(** ** The wrapper's [main] *)


Section WrapperMain.
Context {W : Type} `{Supervisor W} `{Storage W}.
Implicit Types p : Proc W pinState.



End WrapperMain.



(** ** [parseSlicesEnv] and [resolve] *)

Lemma noSpace_app_r (x y : string) : noSpace (x +:+ y) -> noSpace y.
Proof.
  induction x as [|c x IH]; [done|]. rewrite string_cons_app. cbn [noSpace].
  intros [_ H]. auto.
Qed.

Lemma noSpace_headOK s : noSpace s -> headOK s.
Proof. destruct s; [done|]. now intros [H _]. Qed.

Lemma noSpace_lastOK s : noSpace s -> lastOK s.
Proof.
  intros Hs. unfold lastOK.
  destruct (String.rev s) as [|c r] eqn:Hrev; [exact I|].
  assert (Heq : s = String.rev r +:+ String c EmptyString).
  { rewrite <- (string_rev_involutive s), Hrev. apply string_rev_cons. }
  cbn. unfold GoStrings.spaceWidthEnd.
  destruct (GoStrings.asciiSpace c) eqn:Hc.
  { rewrite Heq in Hs. apply noSpace_app_r in Hs as [Hw _].
    unfold GoStrings.spaceWidth in Hw. now rewrite Hc in Hw. }
  destruct r as [|d r']; [done|].
  rewrite string_rev_cons, string_app_assoc in Heq.
  rewrite ?string_cons_app, ?string_app_nil_l in Heq.
  destruct (GoStrings.space2 d c) eqn:H2.
  { rewrite Heq in Hs. apply noSpace_app_r in Hs as [Hw _].
    unfold GoStrings.spaceWidth in Hw.
    destruct (GoStrings.asciiSpace d); [done|]. now rewrite H2 in Hw. }
  destruct r' as [|e r'']; [done|].
  rewrite string_rev_cons, string_app_assoc in Heq.
  rewrite ?string_cons_app, ?string_app_nil_l in Heq.
  destruct (GoStrings.space3 e d c) eqn:H3; [|done].
  rewrite Heq in Hs. apply noSpace_app_r in Hs as [Hw _].
  unfold GoStrings.spaceWidth in Hw.
  destruct (GoStrings.asciiSpace e); [done|].
  destruct (GoStrings.space2 e d); [done|]. now rewrite H3 in Hw.
Qed.

Lemma noSpace_TrimSpace s : noSpace s -> GoStrings.TrimSpace s = s.
Proof. intros Hs. apply TrimSpace_id; [now apply noSpace_headOK|now apply noSpace_lastOK]. Qed.

Lemma noSpaceBefore_noSpace w after : noSpaceBefore w after -> noSpace w.
Proof.
  induction w as [|c r IH]; [done|]. cbn [noSpaceBefore noSpace]. intros [Hw Hr]. split; [|auto].
  destruct (decide (GoStrings.spaceWidth c r = 0%nat)) as [H0|Hn]; [exact H0|].
  rewrite (spaceWidth_app c r after Hn) in Hw. done.
Qed.

Lemma noSpaceBefore_snoc w c after :
  noSpaceBefore w (String c after) -> GoStrings.spaceWidth c after = 0%nat ->
  noSpaceBefore (w +:+ String c EmptyString) after.
Proof.
  induction w as [|a r IH].
  - intros _ Hc. rewrite string_app_nil_l. cbn [noSpaceBefore].
    now rewrite string_app_nil_l.
  - rewrite string_cons_app. cbn [noSpaceBefore]. intros [Hw Hr] Hc.
    rewrite string_app_assoc, string_cons_app, string_app_nil_l. auto.
Qed.

Lemma flush_elem cur k w :
  w ∈ GoStrings.flush cur k -> (cur <> EmptyString /\ w = String.rev cur) \/ w ∈ k.
Proof.
  destruct cur; cbn [GoStrings.flush]; [auto|].
  intros [->|Hw]%elem_of_cons; [left|right]; done.
Qed.

Lemma string_rev_nonempty s : s <> EmptyString -> String.rev s <> EmptyString.
Proof.
  destruct s as [|c s]; [done|]. intros _. rewrite string_rev_cons.
  destruct (String.rev s); discriminate.
Qed.

Lemma fieldsGo_noSpace s : forall cur w,
  noSpaceBefore (String.rev cur) s ->
  w ∈ GoStrings.fieldsGo cur s -> w <> EmptyString /\ noSpace w.
Proof.
  induction s as [|c r IH1 IH2 IH3] using string3_ind; intros cur w Hcur.
  - cbn [GoStrings.fieldsGo]. intros [(Hne & ->)|Hw]%flush_elem; [|now apply elem_of_nil in Hw].
    split; [now apply string_rev_nonempty|]. exact (noSpaceBefore_noSpace _ _ Hcur).
  - assert (Hflush : forall k,
      (forall w, w ∈ k -> w <> EmptyString /\ noSpace w) ->
      w ∈ GoStrings.flush cur k -> w <> EmptyString /\ noSpace w).
    { intros k Hk [(Hne & ->)|Hw]%flush_elem; [|auto].
      split; [now apply string_rev_nonempty|]. exact (noSpaceBefore_noSpace _ _ Hcur). }
    cbn [GoStrings.fieldsGo].
    destruct (spaceWidth_cases c r) as [Hw|[Hw|[(Hw & d & r' & ->)|(Hw & d & e & r'' & ->)]]];
      rewrite Hw.
    + apply IH1. rewrite string_rev_cons. now apply noSpaceBefore_snoc.
    + apply Hflush. intros w'. now apply IH1.
    + apply Hflush. intros w'. now apply (IH2 _ _ eq_refl).
    + apply Hflush. intros w'. now apply (IH3 _ _ _ eq_refl).
Qed.

Lemma Fields_noSpace s w : w ∈ GoStrings.Fields s -> w <> EmptyString /\ noSpace w.
Proof. apply (fieldsGo_noSpace s EmptyString). exact I. Qed.

Lemma slicesFrom_spec seen fields :
  Forall (fun f => f <> EmptyString /\ noSpace f) fields ->
  NoDup (Wrapper.slicesFrom seen fields)
  /\ (forall x, x ∈ Wrapper.slicesFrom seen fields <->
        x ∉ seen /\ x ∈ fields /\ GoMore.HasSuffix x ".slice" = true)
  /\ sublist (Wrapper.slicesFrom seen fields) fields.
Proof.
  revert seen. induction fields as [|f l IH]; intros seen Hall; cbn [Wrapper.slicesFrom].
  - split; [constructor|]. split; [|constructor]. intros x. split.
    + intros Hx. now apply elem_of_nil in Hx.
    + intros (_ & Hx & _). now apply elem_of_nil in Hx.
  - apply Forall_cons in Hall as ((Hne & Hns) & Hall). cbn zeta.
    rewrite (noSpace_TrimSpace f Hns). rewrite decide_False by done.
    destruct (IH seen Hall) as (Hnd & Hmem & Hsub).
    destruct (GoMore.HasSuffix f ".slice") eqn:Hsuf; cbn [negb].
    + destruct (decide (f ∈ seen)) as [Hseen|Hseen].
      * split; [exact Hnd|]. split; [|now apply sublist_cons].
        intros x. rewrite Hmem, elem_of_cons. split; [tauto|].
        intros (Hx & [->|Hin] & Hs); done.
      * destruct (IH ({[f]} ∪ seen) Hall) as (Hnd' & Hmem' & Hsub').
        split; [|split; [|now apply sublist_skip]].
        -- constructor; [|exact Hnd']. rewrite Hmem'. set_solver.
        -- intros x. rewrite !elem_of_cons, Hmem'. split.
           ++ intros [->|(Hx & Hin & Hs)]; [auto|]. split; [set_solver|auto].
           ++ intros (Hx & [->|Hin] & Hs); [now left|].
              destruct (decide (x = f)) as [->|Hxf]; [now left|right].
              split; [set_solver|done].
    + split; [exact Hnd|]. split; [|now apply sublist_cons].
      intros x. rewrite Hmem, elem_of_cons. split; [tauto|].
      intros (Hx & [->|Hin] & Hs); [congruence|done].
Qed.


(** X20: [parseSlicesEnv] returns, in order and without duplicates, exactly
    the white-space separated words of the value that end in [.slice]; the
    other words are dropped silently, and a blank value gives no slice. *)
Theorem parseSlicesEnv_slices (v : string) :
  NoDup (Wrapper.parseSlicesEnv v)
  /\ (forall x, x ∈ Wrapper.parseSlicesEnv v <->
        x ∈ GoStrings.Fields (GoStrings.TrimSpace v)
        /\ GoMore.HasSuffix x ".slice" = true)
  /\ sublist (Wrapper.parseSlicesEnv v) (GoStrings.Fields (GoStrings.TrimSpace v))
  /\ Forall (fun x => x <> EmptyString /\ noSpace x) (Wrapper.parseSlicesEnv v).
Proof.
  unfold Wrapper.parseSlicesEnv. cbn zeta.
  destruct (decide (GoStrings.TrimSpace v = EmptyString)) as [->|Hne].
  - split; [constructor|]. split; [|split; constructor].
    intros x. split; [intros Hx; now apply elem_of_nil in Hx|].
    intros (Hx & _). vm_compute in Hx. now apply elem_of_nil in Hx.
  - assert (Hall : Forall (fun f => f <> EmptyString /\ noSpace f)
                     (GoStrings.Fields (GoStrings.TrimSpace v))).
    { apply Forall_forall. intros f. apply Fields_noSpace. }
    destruct (slicesFrom_spec ∅ _ Hall) as (Hnd & Hmem & Hsub).
    split; [exact Hnd|]. split; [|split; [exact Hsub|]].
    + intros x. rewrite Hmem. split; [tauto|]. intros Hx. split; [set_solver|exact Hx].
    + apply Forall_forall. intros x (_ & Hx & _)%Hmem.
      exact (Fields_noSpace _ _ Hx).
Qed.




(** X22: when both CPU lists are given (by flag or environment) and neither
    [--print] nor a swap is asked for, [resolve] does not depend on topology
    detection: it returns the same result whatever detection would find,
    also when detection would fail. *)
Theorem resolve_without_detection (env : string -> string)
    (detect detect' : result Topology.Result)
    (canonicalize : string -> result (string * list nat)) (opts : Wrapper.options) :
  Wrapper.print opts = false ->
  Wrapper.swap opts = false ->
  Wrapper.parseBoolEnv env Wrapper.envSwap = false ->
  GoStrings.TrimSpace (Wrapper.osCPUs opts) <> EmptyString
    \/ GoStrings.TrimSpace (env Wrapper.envOSCPUs) <> EmptyString ->
  GoStrings.TrimSpace (Wrapper.gameCPUs opts) <> EmptyString
    \/ GoStrings.TrimSpace (env Wrapper.envGameCPUs) <> EmptyString ->
  Wrapper.resolve env detect canonicalize opts
  = Wrapper.resolve env detect' canonicalize opts.
Proof.
  intros Hprint Hswap Henv Hos Hgame. unfold Wrapper.resolve. cbn zeta.
  rewrite Hprint, Hswap, Henv.
  set (os1 := if decide (GoStrings.TrimSpace (Wrapper.osCPUs opts) = EmptyString)
              then _ else _).
  set (game1 := if decide (GoStrings.TrimSpace (Wrapper.gameCPUs opts) = EmptyString)
                then _ else _).
  assert (Hos1 : os1 <> EmptyString).
  { unfold os1.
    destruct (decide (GoStrings.TrimSpace (Wrapper.osCPUs opts) = EmptyString)) as [Hb|Hb];
      [|exact Hb]. destruct Hos; done. }
  assert (Hgame1 : game1 <> EmptyString).
  { unfold game1.
    destruct (decide (GoStrings.TrimSpace (Wrapper.gameCPUs opts) = EmptyString)) as [Hb|Hb];
      [|exact Hb]. destruct Hgame; done. }
  rewrite !bool_decide_eq_false_2 by done. cbn [orb]. reflexivity.
Qed.

Lemma resolve_without_detection_witness :
  Wrapper.print Cases.explicit = false
  /\ Wrapper.swap Cases.explicit = false
  /\ Wrapper.parseBoolEnv Cases.env Wrapper.envSwap = false
  /\ Wrapper.resolve Cases.env (Err TopologyNotAvailable) Topology.CanonicalizeCPUList
       Cases.explicit
     = Wrapper.resolve Cases.env (Ok Cases.twoCCD) Topology.CanonicalizeCPUList
         Cases.explicit.
Proof.
  assert (Henv : Wrapper.parseBoolEnv Cases.env Wrapper.envSwap = false)
    by (vm_compute; reflexivity).
  assert (Hos : GoStrings.TrimSpace (Wrapper.osCPUs Cases.explicit) <> EmptyString)
    by (vm_compute; discriminate).
  assert (Hgame : GoStrings.TrimSpace (Wrapper.gameCPUs Cases.explicit) <> EmptyString)
    by (vm_compute; discriminate).
  split; [reflexivity|]. split; [reflexivity|]. split; [exact Henv|].
  exact (resolve_without_detection Cases.env _ _ _ Cases.explicit eq_refl eq_refl Henv
           (or_introl Hos) (or_introl Hgame)).
Defined.

(** X23: [--swap] exchanges the two lists of the result it would otherwise
    give, provided topology detection succeeds and there is an OS list to
    swap: with both found, the swapped run returns the same options with
    [os_cpus] and [game_cpus] exchanged, along with the detected CCD lists.
    Detection is consulted under [--swap] even when both lists were given. *)
Theorem resolve_swap_exchanges (env : string -> string) (det : Topology.Result)
    (canonicalize : string -> result (string * list nat))
    (opts : Wrapper.options) (r : Ccdpin.resolved) (ccds : list string) :
  Wrapper.swap opts = false ->
  Wrapper.parseBoolEnv env Wrapper.envSwap = false ->
  Wrapper.resolve env (Ok det) canonicalize opts = Ok (r, ccds) ->
  GoStrings.TrimSpace (Ccdpin.rOSCPUs r) <> EmptyString ->
  Wrapper.resolve env (Ok det) canonicalize (withSwap opts)
  = Ok (exchanged r, Topology.Lists det)
  /\ forall e, Wrapper.resolve env (Err e) canonicalize (withSwap opts) = Err e.
Proof.
  intros Hswap Henv Hrun Hos. split.
  - revert Hrun. unfold Wrapper.resolve, withSwap. cbn zeta.
    cbn [Wrapper.print Wrapper.swap Wrapper.noOSPin Wrapper.gameCPUs Wrapper.osCPUs].
    rewrite Hswap, Henv. cbn [orb]. rewrite !orb_true_r, !orb_false_r.
    set (os1 := if decide (GoStrings.TrimSpace (Wrapper.osCPUs opts) = EmptyString)
                then _ else _).
    set (game1 := if decide (GoStrings.TrimSpace (Wrapper.gameCPUs opts) = EmptyString)
                  then _ else _).
    assert (Htail : forall os2 game2 lists,
      (if decide (GoStrings.TrimSpace game2 = EmptyString)
       then Err (ErrorMsg "could not resolve GAME_CPUS")
       else
         match
           (if decide (GoStrings.TrimSpace os2 <> EmptyString) then
              match canonicalize os2 with
              | Ok (c, _) => Ok c
              | Err e => Err (Wrapped "invalid OS CPU list" e)
              end
            else Ok os2)
         with
         | Ok os3 =>
             match canonicalize game2 with
             | Ok (game3, _) =>
                 Ok (Ccdpin.mkResolved os3 game3
                       (Wrapper.noOSPin opts || Wrapper.parseBoolEnv env Wrapper.envNoOSPin)
                       match Wrapper.parseSlicesEnv (env Wrapper.envOSSlices) with
                       | [] => ["app.slice"; "background.slice"; "session.slice"]
                       | s :: l0 => s :: l0
                       end
                       (Wrapper.parseBoolEnv env Wrapper.envDebug), lists)
             | Err e => Err (Wrapped "invalid GAME CPU list" e)
             end
         | Err e => Err e
         end) = Ok (r, ccds) ->
      (if decide (GoStrings.TrimSpace game2 = EmptyString)
       then Err (ErrorMsg "could not resolve GAME_CPUS")
       else
         match
           (if decide (GoStrings.TrimSpace os2 <> EmptyString) then
              match canonicalize os2 with
              | Ok (c, _) => Ok c
              | Err e => Err (Wrapped "invalid OS CPU list" e)
              end
            else Ok os2)
         with
         | Ok os3 =>
             match canonicalize game2 with
             | Ok (game3, _) =>
                 if decide (GoStrings.TrimSpace os3 = EmptyString)
                 then Err (ErrorMsg "cannot swap without OS_CPUS")
                 else
                   Ok (Ccdpin.mkResolved game3 os3
                         (Wrapper.noOSPin opts || Wrapper.parseBoolEnv env Wrapper.envNoOSPin)
                         match Wrapper.parseSlicesEnv (env Wrapper.envOSSlices) with
                         | [] => ["app.slice"; "background.slice"; "session.slice"]
                         | s :: l0 => s :: l0
                         end
                         (Wrapper.parseBoolEnv env Wrapper.envDebug), Topology.Lists det)
             | Err e => Err (Wrapped "invalid GAME CPU list" e)
             end
         | Err e => Err e
         end) = Ok (exchanged r, Topology.Lists det)).
    { intros os2 game2 lists.
      destruct (decide (GoStrings.TrimSpace game2 = EmptyString)); [discriminate|].
      destruct (if decide (GoStrings.TrimSpace os2 <> EmptyString) then _ else _)
        as [os3|e]; [|discriminate].
      destruct (canonicalize game2) as [[game3 cpus]|e]; [|discriminate].
      intros [= <-]. cbn [Ccdpin.rOSCPUs] in Hos. rewrite decide_False by done.
      reflexivity. }
    destruct (Wrapper.print opts || bool_decide (os1 = EmptyString)
              || bool_decide (game1 = EmptyString)) eqn:Hneed; cbn beta iota.
    + intros Hrun. eapply Htail. exact Hrun.
    + apply orb_false_iff in Hneed as (Hneed & Hg). apply orb_false_iff in Hneed as (_ & Ho).
      apply bool_decide_eq_false_1 in Hg. apply bool_decide_eq_false_1 in Ho.
      rewrite !(decide_False (P := os1 = EmptyString)) by done.
      rewrite !(decide_False (P := game1 = EmptyString)) by done.
      intros Hrun. eapply Htail. exact Hrun.
  - intros e. unfold Wrapper.resolve, withSwap. cbn zeta.
    cbn [Wrapper.print Wrapper.swap]. cbn [orb]. now rewrite !orb_true_r.
Qed.

Lemma resolve_swap_exchanges_witness :
  Wrapper.swap Cases.explicit = false
  /\ Wrapper.parseBoolEnv Cases.env Wrapper.envSwap = false
  /\ Wrapper.resolve Cases.env (Ok Cases.twoCCD) Topology.CanonicalizeCPUList Cases.explicit
     = Ok (Ccdpin.mkResolved "0-7" "8-15" false ["app.slice"; "user.slice"] false, [])
  /\ Wrapper.resolve Cases.env (Ok Cases.twoCCD) Topology.CanonicalizeCPUList
       (withSwap Cases.explicit)
     = Ok (Ccdpin.mkResolved "8-15" "0-7" false ["app.slice"; "user.slice"] false,
           ["0-7"; "8-15"]).
Proof.
  assert (Henv : Wrapper.parseBoolEnv Cases.env Wrapper.envSwap = false)
    by (vm_compute; reflexivity).
  assert (Hrun :
    Wrapper.resolve Cases.env (Ok Cases.twoCCD) Topology.CanonicalizeCPUList Cases.explicit
    = Ok (Ccdpin.mkResolved "0-7" "8-15" false ["app.slice"; "user.slice"] false, []))
    by (vm_compute; reflexivity).
  split; [reflexivity|]. split; [exact Henv|]. split; [exact Hrun|].
  apply (resolve_swap_exchanges Cases.env Cases.twoCCD Topology.CanonicalizeCPUList
           Cases.explicit _ _ eq_refl Henv Hrun).
  vm_compute. discriminate.
Defined.

(** ** The command line of the game *)

Lemma envKey_empty_name kv i :
  GoMore.IndexByte kv "="%char = Some (S i) -> GoMore.sliceTo kv (S i) <> EmptyString.
Proof. destruct kv; [discriminate|]. intros _. cbn [GoMore.sliceTo]. discriminate. Qed.

Lemma setenvFrom_head seen kv rest :
  Wrapper.setenvFrom seen (kv :: rest) =
  match envKey kv with
  | Some k =>
      if decide (k ∈ seen) then Wrapper.setenvFrom seen rest
      else ("--setenv=" +:+ kv) :: Wrapper.setenvFrom ({[k]} ∪ seen) rest
  | None => Wrapper.setenvFrom seen rest
  end.
Proof.
  cbn [Wrapper.setenvFrom]. unfold envKey.
  destruct (decide (kv = EmptyString)) as [->|Hne]; [reflexivity|].
  destruct (GoMore.IndexByte kv "="%char) as [[|i]|] eqn:Hi; try reflexivity.
  cbn zeta. rewrite decide_False by (now apply envKey_empty_name). reflexivity.
Qed.

Lemma setenvFrom_spec seen environ :
  NoDup (Wrapper.setenvFrom seen environ)
  /\ forall a, a ∈ Wrapper.setenvFrom seen environ <->
       exists pre kv post k,
         environ = pre ++ kv :: post /\ a = "--setenv=" +:+ kv
         /\ envKey kv = Some k /\ k ∉ seen
         /\ forall x, x ∈ pre -> envKey x <> Some k.
Proof.
  revert seen. induction environ as [|kv0 rest IH]; intros seen.
  - split; [constructor|]. intros a. split; [intros Ha; now apply elem_of_nil in Ha|].
    intros (pre & kv & post & k & Heq & _). now destruct pre.
  - rewrite setenvFrom_head.
    assert (Hskip : forall a,
      (envKey kv0 = None \/ exists k0, envKey kv0 = Some k0 /\ k0 ∈ seen) ->
      a ∈ Wrapper.setenvFrom seen rest <->
      exists pre kv post k,
        kv0 :: rest = pre ++ kv :: post /\ a = "--setenv=" +:+ kv
        /\ envKey kv = Some k /\ k ∉ seen
        /\ forall x, x ∈ pre -> envKey x <> Some k).
    { intros a Hwhy. rewrite (proj2 (IH seen)). split.
      - intros (pre & kv & post & k & -> & -> & Hk & Hns & Hpre).
        exists (kv0 :: pre), kv, post, k. repeat split; auto.
        intros x [->|Hx]%elem_of_cons; [|auto].
        destruct Hwhy as [Hn|(k0 & Hk0 & Hin)]; [congruence|]. intros Heq.
        rewrite Hk0 in Heq. injection Heq as ->. done.
      - intros (pre & kv & post & k & Heq & -> & Hk & Hns & Hpre).
        destruct pre as [|x pre]; cbn [app] in Heq; injection Heq as <- ->.
        + exfalso. destruct Hwhy as [Hn|(k0 & Hk0 & Hin)]; [congruence|].
          rewrite Hk0 in Hk. injection Hk as ->. done.
        + exists pre, kv, post, k. repeat split; auto.
          intros y Hy. apply Hpre. now apply elem_of_cons; right. }
    destruct (envKey kv0) as [k0|] eqn:Hk0.
    + destruct (decide (k0 ∈ seen)) as [Hseen|Hseen].
      * split; [apply IH|]. intros a. apply Hskip. right. eauto.
      * destruct (IH ({[k0]} ∪ seen)) as (Hnd & Hmem). split.
        -- constructor; [|exact Hnd]. rewrite Hmem.
           intros (pre & kv & post & k & _ & Heq & Hk & Hns & _).
           apply (inj (String.app "--setenv=")) in Heq as <-.
           rewrite Hk0 in Hk. injection Hk as <-. set_solver.
        -- intros a. rewrite elem_of_cons, Hmem. split.
           ++ intros [->|(pre & kv & post & k & -> & -> & Hk & Hns & Hpre)].
              ** exists [], kv0, rest, k0. repeat split; auto.
                 intros x Hx. now apply elem_of_nil in Hx.
              ** exists (kv0 :: pre), kv, post, k. repeat split; auto; [set_solver|].
                 intros x [->|Hx]%elem_of_cons; [|auto].
                 rewrite Hk0. intros [= ->]. set_solver.
           ++ intros (pre & kv & post & k & Heq & -> & Hk & Hns & Hpre).
              destruct pre as [|x pre]; cbn [app] in Heq; injection Heq as <- ->; [now left|].
              right. exists pre, kv, post, k. repeat split; auto.
              ** assert (k <> k0); [|set_solver]. intros ->.
                 apply (Hpre kv0); [apply list_elem_of_here|exact Hk0].
              ** intros y Hy. apply Hpre. now apply elem_of_cons; right.
    + split; [apply IH|]. intros a. apply Hskip. now left.
Qed.

(** X24: [systemdRunSetenvArgs] passes each environment variable once: an
    argument [--setenv=NAME=value] is produced exactly for the first entry
    of each name; entries without [=] or with an empty name are left out,
    and no argument is produced twice. *)
Theorem setenv_first_of_each_name (environ : list string) :
  NoDup (Wrapper.systemdRunSetenvArgs environ)
  /\ forall a, a ∈ Wrapper.systemdRunSetenvArgs environ <->
       exists pre kv post k,
         environ = pre ++ kv :: post /\ a = "--setenv=" +:+ kv
         /\ envKey kv = Some k
         /\ forall x, x ∈ pre -> envKey x <> Some k.
Proof.
  unfold Wrapper.systemdRunSetenvArgs.
  destruct (setenvFrom_spec ∅ environ) as (Hnd & Hmem). split; [exact Hnd|].
  intros a. rewrite Hmem. split.
  - intros (pre & kv & post & k & H1 & H2 & H3 & _ & H5). eauto 10.
  - intros (pre & kv & post & k & H1 & H2 & H3 & H5).
    exists pre, kv, post, k. repeat split; auto. set_solver.
Qed.

(** X25: the command line [runGame] executes ends with the wrapped command,
    unchanged: with [systemd-run] (and a user manager) or [taskset] at hand
    the command comes after a [--] separator, and with neither it is run as
    it is; only an empty command with no tool at hand has no command line. *)
Theorem gameArgv_passes_command (userSystemd systemdRun taskset : bool)
    (gameCPUs : string) (environ cmd : list string) :
  (Wrapper.gameArgv userSystemd systemdRun taskset gameCPUs environ cmd = None <->
     cmd = [] /\ taskset = false /\ userSystemd && systemdRun = false)
  /\ forall argv,
       Wrapper.gameArgv userSystemd systemdRun taskset gameCPUs environ cmd = Some argv ->
       exists prefix,
         argv = prefix ++ cmd
         /\ (prefix = [] <-> taskset = false /\ userSystemd && systemdRun = false)
         /\ (prefix = [] \/ last prefix = Some "--")
         /\ (taskset = true ->
             exists pre, prefix = pre ++ ["taskset"; "-c"; gameCPUs; "--"])
         /\ (userSystemd && systemdRun = true ->
             exists rest,
               prefix = ["systemd-run"; "--user"; "--scope"; "--wait"; "--quiet";
                         "--slice=game.slice"; "-p"; "AllowedCPUs=" +:+ gameCPUs]
                        ++ Wrapper.systemdRunSetenvArgs environ ++ "--" :: rest).
Proof.
  unfold Wrapper.gameArgv.
  set (setenv := Wrapper.systemdRunSetenvArgs environ).
  destruct (userSystemd && systemdRun) eqn:Hsd; destruct taskset; cbn zeta.
  - split; [split; [discriminate|intros (_ & Hf & _); discriminate Hf]|].
    intros argv Hargv. injection Hargv as <-.
    exists ("systemd-run" ::
            (["--user"; "--scope"; "--wait"; "--quiet"; "--slice=game.slice";
              "-p"; "AllowedCPUs=" +:+ gameCPUs] ++ setenv ++ ["--"])
            ++ ["taskset"; "-c"; gameCPUs; "--"]).
    split; [reflexivity|].
    split; [split; [discriminate|intros [Hf _]; discriminate Hf]|].
    split; [right; rewrite app_comm_cons, last_app; reflexivity|].
    split.
    + intros _. eexists. rewrite app_comm_cons. reflexivity.
    + intros _. exists ["taskset"; "-c"; gameCPUs; "--"].
      cbn [app]. rewrite <- app_assoc. reflexivity.
  - split; [split; [discriminate|intros (_ & _ & Hf); discriminate Hf]|].
    intros argv Hargv. injection Hargv as <-.
    exists ("systemd-run" ::
            ["--user"; "--scope"; "--wait"; "--quiet"; "--slice=game.slice";
             "-p"; "AllowedCPUs=" +:+ gameCPUs] ++ setenv ++ ["--"]).
    split; [reflexivity|].
    split; [split; [discriminate|intros [_ Hf]; discriminate Hf]|].
    split; [right; rewrite app_comm_cons, app_assoc, last_app; reflexivity|].
    split; [discriminate|].
    intros _. exists []. reflexivity.
  - split; [split; [discriminate|intros (_ & Hf & _); discriminate Hf]|].
    intros argv Hargv. injection Hargv as <-.
    exists ["taskset"; "-c"; gameCPUs; "--"]. split; [reflexivity|].
    split; [split; [discriminate|intros [Hf _]; discriminate Hf]|].
    split; [right; reflexivity|].
    split; [intros _; exists []; reflexivity|discriminate].
  - split.
    + destruct cmd; split; [auto|reflexivity|discriminate|intros [Hf _]; discriminate Hf].
    + intros argv Hargv. exists []. destruct cmd as [|bin args]; [discriminate|].
      injection Hargv as <-. split; [reflexivity|]. split; [split; auto|].
      split; [now left|]. split; discriminate.
Qed.

Lemma gameArgv_passes_command_witness :
  Wrapper.gameArgv true true true "8-15" ["PROTON_LOG=1"; "broken"; "PROTON_LOG=2"]
    ["game"; "-fullscreen"]
  = Some ["systemd-run"; "--user"; "--scope"; "--wait"; "--quiet"; "--slice=game.slice";
          "-p"; "AllowedCPUs=8-15"; "--setenv=PROTON_LOG=1"; "--";
          "taskset"; "-c"; "8-15"; "--"; "game"; "-fullscreen"]
  /\ exists prefix,
       ["systemd-run"; "--user"; "--scope"; "--wait"; "--quiet"; "--slice=game.slice";
        "-p"; "AllowedCPUs=8-15"; "--setenv=PROTON_LOG=1"; "--";
        "taskset"; "-c"; "8-15"; "--"; "game"; "-fullscreen"]
       = prefix ++ ["game"; "-fullscreen"]
       /\ (prefix = [] \/ last prefix = Some "--").
Proof.
  assert (Hrun :
    Wrapper.gameArgv true true true "8-15" ["PROTON_LOG=1"; "broken"; "PROTON_LOG=2"]
      ["game"; "-fullscreen"]
    = Some ["systemd-run"; "--user"; "--scope"; "--wait"; "--quiet"; "--slice=game.slice";
            "-p"; "AllowedCPUs=8-15"; "--setenv=PROTON_LOG=1"; "--";
            "taskset"; "-c"; "8-15"; "--"; "game"; "-fullscreen"])
    by (vm_compute; reflexivity).
  split; [exact Hrun|].
  destruct (proj2 (gameArgv_passes_command true true true "8-15"
                     ["PROTON_LOG=1"; "broken"; "PROTON_LOG=2"] ["game"; "-fullscreen"])
              _ Hrun) as (prefix & Heq & _ & Hlast & _).
  exists prefix. split; [exact Heq|exact Hlast].
Defined.

(** ** The status command *)

(** X26: the process filter of [ccdbind status], for a [--filter] value
    made of ASCII bytes.  [--only-games] and [--all] together are refused;
    alone, either one decides the filter whatever [--filter] holds, even a
    value that would be refused; without them [--filter] is read without
    surrounding white space and in lower case, the empty value means
    [games], and anything but [games] and [all] is refused. *)
Theorem resolveFilter_choice (quote : string -> string) (flagFilter : string)
    (flagOnlyGames flagAll : bool) (r : string) :
  isASCII flagFilter = true ->
  StatusCmd.resolveFilter quote flagFilter flagOnlyGames flagAll = Ok r <->
  let given := Procscan.ToLower (GoStrings.TrimSpace flagFilter) in
  (flagOnlyGames = true /\ flagAll = false /\ r = "games")
  \/ (flagOnlyGames = false /\ flagAll = true /\ r = "all")
  \/ (flagOnlyGames = false /\ flagAll = false
      /\ ((given = EmptyString \/ given = "games") /\ r = "games"
          \/ given = "all" /\ r = "all")).
Proof.
  intros _. cbn zeta. unfold StatusCmd.resolveFilter.
  set (given := Procscan.ToLower (GoStrings.TrimSpace flagFilter)). clearbody given.
  assert (Hga : "games" <> "all") by discriminate.
  destruct flagOnlyGames, flagAll; cbn [andb]; cbn zeta.
  - split; [discriminate|]. intros [(_ & Hf & _)|[(Hf & _)|(Hf & _)]]; discriminate Hf.
  - destruct (decide ("games" = EmptyString)) as [Hf|_]; [discriminate Hf|].
    destruct (decide ("games" <> "games" /\ "games" <> "all")) as [[Hf _]|_];
      [now destruct Hf|].
    split.
    + intros [= <-]. left. auto.
    + intros [(_ & _ & ->)|[(Hf & _)|(Hf & _)]]; [reflexivity|discriminate Hf..].
  - destruct (decide ("all" = EmptyString)) as [Hf|_]; [discriminate Hf|].
    destruct (decide ("all" <> "games" /\ "all" <> "all")) as [[_ Hf]|_];
      [now destruct Hf|].
    split.
    + intros [= <-]. right. left. auto.
    + intros [(Hf & _)|[(_ & _ & ->)|(_ & Hf & _)]];
        [discriminate Hf|reflexivity|discriminate Hf].
  - destruct (decide (given = EmptyString)) as [->|Hne].
    + destruct (decide ("games" <> "games" /\ "games" <> "all")) as [[Hf _]|_];
        [now destruct Hf|].
      split.
      * intros [= <-]. right. right. split; [reflexivity|]. split; [reflexivity|].
        left. split; [left|]; reflexivity.
      * intros [(Hf & _)|[(_ & Hf & _)|(_ & _ & [(_ & ->)|(Hf & _)])]];
          [discriminate Hf..|reflexivity|discriminate Hf].
    + destruct (decide (given <> "games" /\ given <> "all")) as [[Hg Ha]|Hok].
      * split; [discriminate|].
        intros [(Hf & _)|[(_ & Hf & _)|(_ & _ & [([Hf|Hf] & _)|(Hf & _)])]];
          try discriminate Hf; contradiction.
      * split.
        -- intros [= <-]. right. right. split; [reflexivity|]. split; [reflexivity|].
           destruct (decide (given = "games")) as [Hg|Hg]; [left; auto|].
           destruct (decide (given = "all")) as [Ha|Ha]; [right; auto|].
           exfalso. apply Hok. auto.
        -- intros [(Hf & _)|[(_ & Hf & _)|(_ & _ & [([Hf|Hf] & ->)|(Hf & ->)])]];
             try discriminate Hf; try contradiction; congruence.
Qed.

Lemma resolveFilter_choice_witness :
  isASCII " ALL " = true
  /\ StatusCmd.resolveFilter (fun s => s) " ALL " false false = Ok "all"
  /\ forall r, StatusCmd.resolveFilter (fun s => s) "Games" true false = Ok r -> r = "games".
Proof.
  assert (Hascii : isASCII " ALL " = true) by reflexivity.
  assert (Hascii' : isASCII "Games" = true) by reflexivity.
  split; [exact Hascii|]. split.
  - apply (proj2 (resolveFilter_choice (fun s => s) " ALL " false false "all" Hascii)).
    right. right. split; [reflexivity|]. split; [reflexivity|].
    right. split; vm_compute; reflexivity.
  - intros r Hr.
    destruct (proj1 (resolveFilter_choice (fun s => s) "Games" true false r Hascii') Hr)
      as [(_ & _ & ->)|[(Hf & _)|(Hf & _)]]; [reflexivity|discriminate Hf..].
Defined.

(** X27: the slice section of [ccdbind status] only reads: it asks for the
    [AllowedCPUs] of every managed slice, in order, and goes on after a read
    that fails; the report has one entry per slice, with the original value
    the state holds for it, and an entry with an error has no current
    value.  The state and the runtime structure are left as they are. *)
Theorem sliceReport_reads_every_slice {W : Type} `{Supervisor W} `{Storage W}
    {Mem : Type} sys (originals : option (gmap string string))
    (slices : list string) (p : Proc W Mem) :
  exists out p',
    StatusCmd.sliceReport sys originals slices p = (Ok out, p')
    /\ map StatusCmd.Unit out = slices
    /\ mem p' = mem p
    /\ trace p' = trace p ++ map (fun u => Bus (GetAllowedCPUs u)) slices
    /\ Forall (fun ss =>
         StatusCmd.OriginalAllowed ss = strAtNil originals (StatusCmd.Unit ss)
         /\ (StatusCmd.ReadAllowedCPUErr ss = None
             \/ StatusCmd.sAllowedCPUs ss = EmptyString)) out.
Proof.
  revert p. induction slices as [|u rest IH]; intros p; cbn [StatusCmd.sliceReport].
  - exists [], p. rewrite app_nil_r. repeat split; constructor.
  - unfold bind at 1. rewrite try_run.
    destruct (Systemctl_GetAllowedCPUs sys u p) as [res p1] eqn:Hget. cbn [fst snd].
    destruct (Get_frame _ _ _ _ _ Hget) as (Hm1 & Ht1).
    destruct (IH p1) as (out & p' & Hrun & Hunits & Hm & Ht & Hall).
    unfold bind at 1. rewrite Hrun. cbn [ret].
    eexists _, p'. split; [reflexivity|]. cbn [map].
    split; [destruct res; cbn [StatusCmd.Unit]; now rewrite Hunits|].
    split; [congruence|].
    split; [rewrite Ht, Ht1, <- app_assoc; reflexivity|].
    constructor; [|exact Hall]. destruct res; cbn; auto.
Qed.

(** ** The slices of a loaded configuration *)

Lemma dedupeFrom_clean_snoc seen l x :
  NoDup l -> Forall clean l -> (forall y, y ∈ l -> y ∉ seen) -> clean x ->
  Daemon.dedupeFrom seen (l ++ [x])
  = if decide (x ∈ seen \/ x ∈ l) then l else l ++ [x].
Proof.
  intros Hnd Hcl Hseen (Hxne & Hxtrim). revert seen Hseen.
  induction l as [|y l IH]; intros seen Hseen; cbn [app Daemon.dedupeFrom]; cbn zeta.
  - rewrite Hxtrim. rewrite decide_False by exact Hxne.
    destruct (decide (x ∈ seen)) as [Hin|Hin].
    + rewrite decide_True by now left. reflexivity.
    + rewrite decide_False; [reflexivity|]. intros [?|Hf]; [done|now apply elem_of_nil in Hf].
  - apply NoDup_cons in Hnd as (Hy & Hnd). apply Forall_cons in Hcl as ((Hyne & Hytrim) & Hcl).
    rewrite Hytrim. rewrite decide_False by exact Hyne.
    rewrite decide_False by (apply Hseen, list_elem_of_here).
    rewrite (IH Hnd Hcl).
    + destruct (decide (x ∈ seen \/ x ∈ y :: l)) as [Hin|Hin].
      * rewrite decide_True; [reflexivity|]. set_solver.
      * rewrite decide_False; [reflexivity|]. set_solver.
    + intros z Hz. assert (z ∉ seen) by (apply Hseen; now apply elem_of_cons; right).
      set_solver.
Qed.

Lemma dedupe_clean_fixed l :
  NoDup l -> Forall clean l -> Daemon.dedupe l = l.
Proof.
  intros Hnd Hcl. unfold Daemon.dedupe. rewrite dedupeFrom_agree.
  apply dedupeFrom_fixed; [exact Hnd|]. intros x Hx.
  destruct (proj1 (Forall_forall _ _) Hcl x Hx) as (Hne & Htrim).
  split; [set_solver|]. split; [exact Hne|]. split; exact Htrim.
Qed.

(** X28: for a configuration returned by [Load], the slices the daemon
    manages are the configured [pin_slices] as they stand, in their order,
    followed by [session.slice] when [pin_session_slice] is set and the
    list does not name it already: the second clean-up in [slicesToPin]
    changes nothing.  The default pair stands in only when the loaded list
    is empty and [pin_session_slice] is off. *)
Theorem loaded_slicesToPin decode parseDuration dip home join readFile path cfg :
  ConfigFile.Load decode parseDuration dip home join readFile path = Ok cfg ->
  Daemon.slicesToPin (daemonConfig cfg)
  = match ConfigFile.PinSlices cfg, ConfigFile.PinSessionSlice cfg with
    | [], false => ["app.slice"; "background.slice"]
    | l, false => l
    | l, true => if decide ("session.slice" ∈ l) then l else l ++ ["session.slice"]
    end.
Proof.
  intros (cfg0 & Ht0 & Hrest)%Load_inv.
  pose proof (withIgnoreList_tidy _ _ _ _ _ _ Ht0 Hrest) as Ht.
  destruct Ht as (_ & _ & _ & _ & _ & _ & Hnd & Hcl & _).
  unfold Daemon.slicesToPin, daemonConfig. cbn [PinSlices PinSessionSlice]. cbn zeta.
  destruct (ConfigFile.PinSessionSlice cfg).
  - unfold Daemon.dedupe. rewrite (dedupeFrom_clean_snoc ∅ _ "session.slice" Hnd Hcl);
      [|set_solver|split; [discriminate|reflexivity]].
    destruct (decide ("session.slice" ∈ ConfigFile.PinSlices cfg)) as [Hin|Hin].
    + rewrite decide_True by now right.
      destruct (ConfigFile.PinSlices cfg); [now apply elem_of_nil in Hin|].
      rewrite decide_True by exact Hin. reflexivity.
    + rewrite decide_False by set_solver.
      destruct (ConfigFile.PinSlices cfg); rewrite decide_False by exact Hin; reflexivity.
  - rewrite app_nil_r, (dedupe_clean_fixed _ Hnd Hcl).
    destruct (ConfigFile.PinSlices cfg); reflexivity.
Qed.

Lemma loaded_slicesToPin_witness :
  exists cfg,
    ConfigFile.Load Cases.decode Cases.parseDuration (Ok "~/.config/ccdbind/ignore.txt")
      (Ok "/home/u") Cases.join Cases.readFile "config.toml" = Ok cfg
    /\ Daemon.slicesToPin (daemonConfig cfg) = ["app.slice"; "session.slice"].
Proof.
  destruct (ConfigFile.Load Cases.decode Cases.parseDuration
              (Ok "~/.config/ccdbind/ignore.txt") (Ok "/home/u") Cases.join
              Cases.readFile "config.toml") as [cfg|e] eqn:Hload;
    [|vm_compute in Hload; discriminate Hload].
  exists cfg. split; [reflexivity|].
  rewrite (loaded_slicesToPin _ _ _ _ _ _ _ _ Hload).
  vm_compute in Hload. injection Hload as <-. reflexivity.
Defined.
